(** * i2pkg: a model of [main.go]

    [main.go] exports the configuration packages of an Icinga 2 node: it lists
    the packages over the HTTP API, lists the files of each package's active
    stage, fetches every file and writes one JSON bundle per package.

    The program is embedded as a state-passing interpreter over a [state] that
    holds the trace of everything the process did to the outside world (lines
    on standard output and standard error, HTTP round trips, file operations)
    and the heap cells the program allocates ([http.Request], [url.URL] and
    [http.Header] values are reached through pointers in Go, and [sendReq]
    works on copies of them).  What the outside world answers is a parameter,
    the record [Outside]. *)

From Stdlib Require Import ZArith NArith String Ascii List Lia.
From stdpp Require Import base option strings gmap list pretty.

Open Scope string_scope.
Open Scope list_scope.

(** ** Functions of Go's standard library that the program calls *)

(** [strings.Contains(s, substr)]: some suffix of [s] starts with [substr]. *)
Fixpoint strings_Contains (s substr : string) : bool :=
  String.prefix substr s ||
  match s with
  | EmptyString => false
  | String _ s' => strings_Contains s' substr
  end.

(** [net/url]: the escaping modes of [shouldEscape] that matter here. *)
Inductive encoding :=
| encodePath
| encodePathSegment.

Definition byte_in (lo hi c : ascii) : bool :=
  (N_of_ascii lo <=? N_of_ascii c)%N && (N_of_ascii c <=? N_of_ascii hi)%N.

Definition byte_among (cs : list ascii) (c : ascii) : bool :=
  existsb (Ascii.eqb c) cs.

(** [net/url.shouldEscape(c, mode)] for the two path modes. *)
Definition shouldEscape (c : ascii) (mode : encoding) : bool :=
  if byte_in "a" "z" c || byte_in "A" "Z" c || byte_in "0" "9" c then false
  else if byte_among ["-"; "_"; "."; "~"]%char c then false
  else if byte_among ["$"; "&"; "+"; ","; "/"; ":"; ";"; "="; "?"; "@"]%char c then
    match mode with
    | encodePath => Ascii.eqb c "?"
    | encodePathSegment => byte_among ["/"; ";"; ","; "?"]%char c
    end
  else true.

Definition upperhex : string := "0123456789ABCDEF".

Definition hexdigit (n : N) : ascii :=
  default "0"%char (String.get (N.to_nat n) upperhex).

(** [net/url.escape(s, mode)]: a byte that must be escaped becomes [%XX] with
    the two upper-case hex digits [upperhex[c>>4]] and [upperhex[c&15]]; every
    other byte is copied.  (The [+] for a space belongs to the query mode only.) *)
Fixpoint escape (s : string) (mode : encoding) : string :=
  match s with
  | EmptyString => EmptyString
  | String c s' =>
      if shouldEscape c mode then
        String "%" (String (hexdigit (N.shiftr (N_of_ascii c) 4))
                   (String (hexdigit (N.land (N_of_ascii c) 15)) (escape s' mode)))
      else String c (escape s' mode)
  end.

(** [url.PathEscape]. *)
Definition PathEscape (s : string) : string := escape s encodePathSegment.

(** [fmt.Sprintf("%d", n)]. *)
Definition decimal (n : Z) : string := pretty n.

(** *** [unicode/utf8] and the string encoder of [encoding/json] *)


(** The entries of [utf8.first]: the low three bits give the length of the
    sequence a byte starts, the high four bits index [acceptRanges]; [xx]
    marks a byte that starts no sequence and [as_] an ASCII byte. *)
Definition xx : N := 0xF1.
Definition as_ : N := 0xF0.
Definition s1 : N := 0x02.
Definition s2 : N := 0x13.
Definition s3 : N := 0x03.
Definition s4 : N := 0x23.
Definition s5 : N := 0x34.
Definition s6 : N := 0x04.
Definition s7 : N := 0x44.

Definition first (b : N) : N :=
  if (b <? 0x80)%N then as_
  else if (b <? 0xC2)%N then xx
  else if (b <? 0xE0)%N then s1
  else if (b =? 0xE0)%N then s2
  else if (b <? 0xED)%N then s3
  else if (b =? 0xED)%N then s4
  else if (b <? 0xF0)%N then s3
  else if (b =? 0xF0)%N then s5
  else if (b <? 0xF4)%N then s6
  else if (b =? 0xF4)%N then s7
  else xx.














(** ** The data of the program *)

Definition nl : string := String "010"%char EmptyString.

(** Results that carry a value or an error. *)
Inductive res (E A : Type) :=
| Ok (a : A)
| Err (e : E).
Arguments Ok {E A} a.
Arguments Err {E A} e.

(** An [io.Reader]: it delivers [bytes] and then ends, with [io.EOF] when
    [failure] is [None] and with that error otherwise. *)
Record reader := mkReader { bytes : string; failure : option string }.

(** [ioutil.ReadAll]. *)
Definition ReadAll (rd : reader) : res string string :=
  match failure rd with
  | Some e => Err e
  | None => Ok (bytes rd)
  end.

(** [closableReader], the [io.ReadCloser] around a reader: [Read] is the
    reader's and [Close] returns nil. *)
Record closableReader := mkClosableReader { cr_r : reader }.

Definition closableReader_Read (cr : closableReader) : reader := cr_r cr.
Definition closableReader_Close (cr : closableReader) : option string := None.

(** [badHttpStatus] is the program's own error type; every other error value
    comes from a library and is known by its message. *)
Inductive error :=
| badHttpStatus (code : Z)
| libraryError (msg : string).

Definition Error (e : error) : string :=
  match e with
  | badHttpStatus code => "HTTP " +:+ decimal code
  | libraryError msg => msg
  end.

(** A pointer is the index of a cell of the heap. *)
Definition ptr := nat.

(** The fields of [url.URL] and [http.Request] that the program sets; the
    other fields keep their zero values throughout. *)
Record url_URL := mkURL { Scheme : string; Host : string; Path : string }.

Record http_Request := mkRequest {
  Method : string;
  URL : ptr;                      (* *url.URL *)
  Header : ptr;                   (* http.Header, a map: a reference *)
  Body : option closableReader
}.

Record http_Response := mkResponse { StatusCode : Z; RespBody : reader }.

Record tls_Config := mkConfig { RootCAs : list string; ServerName : string }.
Record http_Transport := mkTransport { TLSClientConfig : tls_Config }.
Record httpLogger := mkLogger { next : http_Transport }.
Record http_Client := mkClient { Transport : httpLogger }.

Inductive obj :=
| ObjURL (u : url_URL)
| ObjHeader (h : gmap string (list string))
| ObjRequest (rq : http_Request).

(** The elements of the two [results] arrays the program decodes. *)
Record pkg := mkPkg { pkg_ActiveStage : string; pkg_Name : string }.
Record file := mkFile { file_Name : string; file_Type : string }.

(** The values of the flag variables once [flag.Parse] has returned. *)
Record Flags := mkFlags { host : string; port : string; ca : string; cn : string; user : string }.

(** The flags' default values (lines 55-59). *)
Definition flag_defaults : Flags := mkFlags "" "5665" "" "" "".

(** ** The outside world *)

(** A request as the transport gets it, pointers followed. *)
Record wire := mkWire {
  wMethod : string;
  wURL : url_URL;
  wHeader : gmap string (list string);
  wBody : option reader
}.

(** Writing the bundle through the [bufio.Writer]: the bytes reach the file
    while [Encode] runs or at [Flush], and either may report the failure. *)
Inductive write_result :=
| Written
| EncodeFailed (msg : string)
| FlushFailed (msg : string).

(** What the process does to the outside world, with what it got back. *)
Inductive event :=
| EvStdout (s : string)
| EvStderr (s : string)
| EvReadFile (name : string) (got : res string string)
| EvRoundTrip (t : http_Transport) (rq : wire) (got : res string http_Response)
| EvCreate (name : string) (got : option string)
| EvWrite (name : string) (files : gmap string string) (got : write_result)
| EvClose (name : string) (got : option string).

(** The answers of the outside world, and the library functions whose
    results the program only passes on.  The server and the file system may
    answer by everything that happened before (the trace so far). *)
Record Outside := mkOutside {
  LookupEnv : string -> option string;
  ReadFile : string -> res string string;
  AppendCertsFromPEM : string -> bool;
  basicAuth : string -> string -> string;
  URL_String : url_URL -> string;
  RoundTrip : list event -> http_Transport -> wire -> res string http_Response;
  DecodePackages : reader -> res string (list pkg);
  DecodeFiles : reader -> res string (list file);
  Create : list event -> string -> option string;
  WriteJSON : list event -> string -> gmap string string -> write_result;
  Close : list event -> string -> option string
}.

(** [os.Getenv]: the empty string for a variable that is not set. *)
Definition os_Getenv (O : Outside) (key : string) : string :=
  default "" (LookupEnv O key).

(** ** The interpreter state and its monad *)

Record state := mkState { trace : list event; heap : list obj }.

(** A computation returns, leaves the process through [os.Exit], or panics
    (a nil or dangling pointer is followed). *)
Inductive outcome (A : Type) :=
| Ret (a : A)
| Exit (code : Z)
| Panic.
Arguments Ret {A} a.
Arguments Exit {A} code.
Arguments Panic {A}.

Definition M (A : Type) : Type := state -> outcome A * state.

#[global] Instance M_ret : MRet M := fun A a s => (Ret a, s).

#[global] Instance M_bind : MBind M := fun A B k m s =>
  match m s with
  | (Ret a, s') => k a s'
  | (Exit code, s') => (Exit code, s')
  | (Panic, s') => (Panic, s')
  end.

Definition os_Exit {A} (code : Z) : M A := fun s => (Exit code, s).

Definition panic {A} : M A := fun s => (Panic, s).

Definition emit (e : event) : M unit :=
  fun s => (Ret tt, mkState (trace s ++ [e]) (heap s)).

Definition history : M (list event) := fun s => (Ret (trace s), s).

Definition alloc (o : obj) : M ptr :=
  fun s => (Ret (List.length (heap s)), mkState (trace s) (heap s ++ [o])).

Definition load (p : ptr) : M obj :=
  fun s => match heap s !! p with
           | Some o => (Ret o, s)
           | None => (Panic, s)
           end.

Definition store (p : ptr) (o : obj) : M unit :=
  fun s => match heap s !! p with
           | Some _ => (Ret tt, mkState (trace s) (<[p := o]> (heap s)))
           | None => (Panic, s)
           end.

Definition load_Request (p : ptr) : M http_Request :=
  o ← load p; match o with ObjRequest rq => mret rq | _ => panic end.

Definition load_URL (p : ptr) : M url_URL :=
  o ← load p; match o with ObjURL u => mret u | _ => panic end.

Definition load_Header (p : ptr) : M (gmap string (list string)) :=
  o ← load p; match o with ObjHeader h => mret h | _ => panic end.

(** [fmt.Fprintln(os.Stderr, msg)]. *)
Definition Fprintln_Stderr (msg : string) : M unit := emit (EvStderr (msg +:+ nl)).

(** The exit status of the process: 0 when [main] returns, the argument of
    [os.Exit], and 2 when the Go runtime ends the process on a panic. *)
Definition exit_status {A} (o : outcome A) : Z :=
  match o with
  | Ret _ => 0
  | Exit code => code
  | Panic => 2
  end.

(** ** The program *)

(** [httpLogger.RoundTrip] (lines 25-28): print the method and the URL, then
    hand the request to the next round tripper. *)
Definition httpLogger_RoundTrip (O : Outside) (hl : httpLogger) (request : ptr)
  : M (res string http_Response) :=
  rq ← load_Request request;
  u ← load_URL (URL rq);
  h ← load_Header (Header rq);
  emit (EvStdout (Method rq +:+ " " +:+ URL_String O u +:+ nl));;
  tr ← history;
  let w := mkWire (Method rq) u h (closableReader_Read <$> Body rq) in
  let got := RoundTrip O tr (next hl) w in
  emit (EvRoundTrip (next hl) w got);;
  mret got.

(** [http.Client.Do]: the request goes through the client's [Transport].
    One request is sent and its answer is handed back, which is what the
    client does with an answer that it does not follow as a redirect; the
    client that follows redirects is [client_Do'] below, in the part on
    redirects. *)
Definition client_Do (O : Outside) (client : http_Client) (request : ptr)
  : M (res string http_Response) :=
  httpLogger_RoundTrip O (Transport client) request.

(** [http.Request.SetBasicAuth]: sets the Authorization entry of the
    request's header map, in place. *)
Definition SetBasicAuth (O : Outside) (request : ptr) (username password : string) : M unit :=
  rq ← load_Request request;
  h ← load_Header (Header rq);
  store (Header rq) (ObjHeader (<["Authorization" := ["Basic " +:+ basicAuth O username password]]> h)).

(** The [out] argument of [sendReq]: nil, a [*[]byte], or a pointer to a
    value that [json.Decoder.Decode] fills. *)
Inductive sink : Type -> Type :=
| OutNil : sink unit
| OutBytes : sink string
| OutJSON (A : Type) (Decode : reader -> res string A) : sink A.
Arguments OutJSON {A} Decode.

(** Lines 243-254: what [sendReq] makes of the body of a 200 response. *)
Definition sendReq_out {A} (out : sink A) (resp : http_Response) : res error A :=
  match out in sink T return res error T with
  | OutNil => Ok tt
  | OutBytes =>
      match ReadAll (RespBody resp) with
      | Err errRA => Err (libraryError errRA)
      | Ok body => Ok body
      end
  | OutJSON Decode =>
      match Decode (RespBody resp) with
      | Err errDc => Err (libraryError errDc)
      | Ok v => Ok v
      end
  end.

(** [sendReq] (lines 214-257).  [input] is the [in] argument: nil, or a value
    given by what [json.Encoder.Encode] makes of it (its JSON text, or an
    error). *)
Definition sendReq (O : Outside) (client : http_Client) (base : ptr) (method uri : string)
    (input : option (res string string)) {A} (out : sink A) : M (res error A) :=
  b ← load_Request base;
  req ← alloc (ObjRequest b);                                   (* req := *base *)
  u ← load_URL (URL b);
  url ← alloc (ObjURL u);                                       (* url := *req.URL *)
  store req (ObjRequest (mkRequest method (URL b) (Header b) (Body b)));;   (* req.Method = method *)
  store req (ObjRequest (mkRequest method url (Header b) (Body b)));;       (* req.URL = &url *)
  store url (ObjURL (mkURL (Scheme u) (Host u) uri));;                      (* url.Path = uri *)
  encoded ←
    match input with
    | None => mret (Ok tt)
    | Some (Err errEc) => mret (Err (libraryError errEc))
    | Some (Ok buf) =>
        store req (ObjRequest (mkRequest method url (Header b)
                     (Some (mkClosableReader (mkReader buf None)))));;
        mret (Ok tt)
    end;
  match encoded with
  | Err errEc => mret (Err errEc)
  | Ok _ =>
      got ← client_Do O client req;
      match got with
      | Err errDo => mret (Err (libraryError errDo))
      | Ok resp =>
          if decide (StatusCode resp ≠ 200%Z) then
            emit (EvStderr (bytes (RespBody resp)));;            (* io.Copy(os.Stderr, resp.Body) *)
            mret (Err (badHttpStatus (StatusCode resp)))
          else mret (sendReq_out out resp)
      end
  end.

(** The test of line 156. *)
Definition exported (f : file) : bool :=
  bool_decide (file_Type f = "file") && strings_Contains (file_Name f) "/".

Definition files_uri (p : pkg) (f : file) : string :=
  "/v1/config/files/" +:+ PathEscape (pkg_Name p) +:+ "/" +:+
  PathEscape (pkg_ActiveStage p) +:+ "/" +:+ file_Name f.

Definition stages_uri (p : pkg) : string :=
  "/v1/config/stages/" +:+ PathEscape (pkg_Name p) +:+ "/" +:+ PathEscape (pkg_ActiveStage p).

(** The loop of lines 155-181 over [files.Results], from the map
    [uploadFiles] built so far. *)
Fixpoint main_files (O : Outside) (client : http_Client) (req : ptr) (p : pkg)
    (files : list file) (uploadFiles : gmap string string) : M (gmap string string) :=
  match files with
  | [] => mret uploadFiles
  | f :: rest =>
      if exported f then
        got ← sendReq O client req "GET" (files_uri p f) None OutBytes;
        match got with
        | Err errSR => Fprintln_Stderr (Error errSR);; os_Exit 1
        | Ok content =>
            main_files O client req p rest (<[file_Name f := content]> uploadFiles)
        end
      else main_files O client req p rest uploadFiles
  end.

Definition bundle_name (p : pkg) : string := PathEscape (pkg_Name p) +:+ ".json".

(** Lines 183-209: the bundle file of a package. *)
Definition main_bundle (O : Outside) (p : pkg) (uploadFiles : gmap string string) : M unit :=
  if decide (0 < size uploadFiles) then
    tr ← history;
    let errOp := Create O tr (bundle_name p) in
    emit (EvCreate (bundle_name p) errOp);;
    match errOp with
    | Some e => Fprintln_Stderr e;; os_Exit 1
    | None =>
        tr ← history;
        let w := WriteJSON O tr (bundle_name p) uploadFiles in
        emit (EvWrite (bundle_name p) uploadFiles w);;
        match w with
        | EncodeFailed errEc => Fprintln_Stderr errEc;; os_Exit 1
        | FlushFailed errFl => Fprintln_Stderr errFl;; os_Exit 1
        | Written =>
            tr ← history;
            let errCl := Close O tr (bundle_name p) in
            emit (EvClose (bundle_name p) errCl);;
            match errCl with
            | Some e => Fprintln_Stderr e;; os_Exit 1
            | None => mret tt
            end
        end
    end
  else mret tt.

(** The test of line 134. *)
Definition wanted (p : pkg) : bool :=
  bool_decide (pkg_Name p ≠ "") && bool_decide (pkg_ActiveStage p ≠ "").

(** The body of the loop over the packages (lines 134-210). *)
Definition main_package (O : Outside) (client : http_Client) (req : ptr) (p : pkg) : M unit :=
  if wanted p then
    got ← sendReq O client req "GET" (stages_uri p) None (OutJSON (DecodeFiles O));
    match got with
    | Err errSR => Fprintln_Stderr (Error errSR);; os_Exit 1
    | Ok files =>
        uploadFiles ← main_files O client req p files ∅;
        main_bundle O p uploadFiles
    end
  else mret tt.

(** The loop of lines 133-211 over [packages.Results]. *)
Fixpoint main_packages (O : Outside) (client : http_Client) (req : ptr) (packages : list pkg)
  : M unit :=
  match packages with
  | [] => mret tt
  | p :: rest => main_package O client req p;; main_packages O client req rest
  end.

(** [ioutil.ReadFile]. *)
Definition ioutil_ReadFile (O : Outside) (name : string) : M (res string string) :=
  let got := ReadFile O name in
  emit (EvReadFile name got);; mret got.

(** A flag that must not be empty (lines 63-92). *)
Definition required (value missing : string) : M unit :=
  if decide (value = "") then Fprintln_Stderr missing;; os_Exit 2 else mret tt.

(** [main] (lines 54-212), from the values of the flags. *)
Definition main (O : Outside) (fl : Flags) : M unit :=
  required (host fl) "-host missing";;
  required (port fl) "-port missing";;
  required (ca fl) "-ca missing";;
  required (cn fl) "-cn missing";;
  required (user fl) "-user missing";;
  let pass := os_Getenv O "I2_PASS" in
  required pass "$I2_PASS missing";;
  pem ← ioutil_ReadFile O (ca fl);
  match pem with
  | Err errRF => Fprintln_Stderr errRF;; os_Exit 1
  | Ok pem =>
      if negb (AppendCertsFromPEM O pem) then Fprintln_Stderr "bad CA cert";; os_Exit 1
      else
        let cas := [pem] in
        let client := mkClient (mkLogger (mkTransport (mkConfig cas (cn fl)))) in
        url ← alloc (ObjURL (mkURL "https" (host fl +:+ ":" +:+ port fl) ""));
        header ← alloc (ObjHeader ∅);
        req ← alloc (ObjRequest (mkRequest "" url header None));
        SetBasicAuth O req (user fl) pass;;
        got ← sendReq O client req "GET" "/v1/config/packages" None (OutJSON (DecodePackages O));
        match got with
        | Err errSR => Fprintln_Stderr (Error errSR);; os_Exit 1
        | Ok packages => main_packages O client req packages
        end
  end.

(** A run of the process: its exit status and its trace. *)
Definition run (O : Outside) (fl : Flags) : Z * list event :=
  let '(o, s) := main O fl (mkState [] []) in (exit_status o, trace s).

(** ** Reading traces *)

(** The base request of [main]: the cell at [base] holds a request whose URL
    and header cells hold [u] and [h]. *)
Definition template_at (s : state) (base : ptr) (b : http_Request) (u : url_URL)
    (h : gmap string (list string)) : Prop :=
  heap s !! base = Some (ObjRequest b) ∧
  heap s !! URL b = Some (ObjURL u) ∧
  heap s !! Header b = Some (ObjHeader h).

(** What [sendReq] does once [client.Do] has returned (lines 232-256): the
    lines it adds to standard error, and its result. *)
Definition answer {A} (out : sink A) (got : res string http_Response)
  : list event * res error A :=
  match got with
  | Err errDo => ([], Err (libraryError errDo))
  | Ok resp =>
      if decide (StatusCode resp ≠ 200%Z)
      then ([EvStderr (bytes (RespBody resp))], Err (badHttpStatus (StatusCode resp)))
      else ([], sendReq_out out resp)
  end.

Definition is_round_trip (e : event) : bool :=
  match e with EvRoundTrip _ _ _ => true | _ => false end.

Definition is_file_event (e : event) : bool :=
  match e with EvCreate _ _ | EvWrite _ _ _ | EvClose _ _ => true | _ => false end.

(** A response whose status is not 200. *)
Definition bad_status (e : event) : bool :=
  match e with
  | EvRoundTrip _ _ (Ok resp) => bool_decide (StatusCode resp ≠ 200%Z)
  | _ => false
  end.

(** The paths of the requests of a trace, in order. *)
Fixpoint requested (tr : list event) : list string :=
  match tr with
  | [] => []
  | EvRoundTrip _ w _ :: tr' => Path (wURL w) :: requested tr'
  | _ :: tr' => requested tr'
  end.

(** The bodies of the responses of a trace, in order. *)
Fixpoint received (tr : list event) : list string :=
  match tr with
  | [] => []
  | EvRoundTrip _ _ (Ok resp) :: tr' => bytes (RespBody resp) :: received tr'
  | _ :: tr' => received tr'
  end.

Definition is_stages_uri (uri : string) : bool := String.prefix "/v1/config/stages/" uri.


(** Once a response with a bad status is in the trace, all that follows is
    its body and the line of the error on standard error. *)
Fixpoint bad_status_ends (tr : list event) : Prop :=
  match tr with
  | [] => True
  | e :: tr' =>
      match e with
      | EvRoundTrip _ _ (Ok resp) =>
          if decide (StatusCode resp ≠ 200%Z)
          then tr' = [EvStderr (bytes (RespBody resp));
                      EvStderr (Error (badHttpStatus (StatusCode resp)) +:+ nl)]
          else bad_status_ends tr'
      | _ => bad_status_ends tr'
      end
  end.

(** *** The shape of the runs *)

(** One call of [sendReq] by [main]: the logged line, the round trip, and
    what [answer] adds. *)
Inductive call_run {A} (out : sink A) (uri : string) : list event -> res error A -> Prop :=
| call_intro l t w got :
    wMethod w = "GET" -> Path (wURL w) = uri ->
    call_run out uri (EvStdout l :: EvRoundTrip t w got :: (answer out got).1) (answer out got).2.

Inductive files_run (p : pkg)
  : list file -> gmap string string -> list event -> outcome (gmap string string) -> Prop :=
| files_done m :
    files_run p [] m [] (Ret m)
| files_skip f fs m evs o :
    exported f = false ->
    files_run p fs m evs o ->
    files_run p (f :: fs) m evs o
| files_fetch f fs m call content evs o :
    exported f = true ->
    call_run OutBytes (files_uri p f) call (Ok content) ->
    files_run p fs (<[file_Name f := content]> m) evs o ->
    files_run p (f :: fs) m (call ++ evs) o
| files_abort f fs m call errSR :
    exported f = true ->
    call_run OutBytes (files_uri p f) call (Err errSR) ->
    files_run p (f :: fs) m (call ++ [EvStderr (Error errSR +:+ nl)]) (Exit 1).

Inductive bundle_run (p : pkg) (m : gmap string string) : list event -> outcome unit -> Prop :=
| bundle_none :
    size m = 0 ->
    bundle_run p m [] (Ret tt)
| bundle_create_fails e :
    0 < size m ->
    bundle_run p m [EvCreate (bundle_name p) (Some e); EvStderr (e +:+ nl)] (Exit 1)
| bundle_encode_fails e :
    0 < size m ->
    bundle_run p m [EvCreate (bundle_name p) None;
                    EvWrite (bundle_name p) m (EncodeFailed e); EvStderr (e +:+ nl)] (Exit 1)
| bundle_flush_fails e :
    0 < size m ->
    bundle_run p m [EvCreate (bundle_name p) None;
                    EvWrite (bundle_name p) m (FlushFailed e); EvStderr (e +:+ nl)] (Exit 1)
| bundle_close_fails e :
    0 < size m ->
    bundle_run p m [EvCreate (bundle_name p) None; EvWrite (bundle_name p) m Written;
                    EvClose (bundle_name p) (Some e); EvStderr (e +:+ nl)] (Exit 1)
| bundle_written :
    0 < size m ->
    bundle_run p m [EvCreate (bundle_name p) None; EvWrite (bundle_name p) m Written;
                    EvClose (bundle_name p) None] (Ret tt).

Inductive package_run (O : Outside) (p : pkg) : list event -> outcome unit -> Prop :=
| package_skipped :
    wanted p = false ->
    package_run O p [] (Ret tt)
| package_listing_fails call errSR :
    wanted p = true ->
    call_run (OutJSON (DecodeFiles O)) (stages_uri p) call (Err errSR) ->
    package_run O p (call ++ [EvStderr (Error errSR +:+ nl)]) (Exit 1)
| package_fetch_fails call files evs code :
    wanted p = true ->
    call_run (OutJSON (DecodeFiles O)) (stages_uri p) call (Ok files) ->
    files_run p files ∅ evs (Exit code) ->
    package_run O p (call ++ evs) (Exit code)
| package_fetched call files evs m evs' o :
    wanted p = true ->
    call_run (OutJSON (DecodeFiles O)) (stages_uri p) call (Ok files) ->
    files_run p files ∅ evs (Ret m) ->
    bundle_run p m evs' o ->
    package_run O p (call ++ evs ++ evs') o.

Inductive packages_run (O : Outside) : list pkg -> list event -> outcome unit -> Prop :=
| packages_done :
    packages_run O [] [] (Ret tt)
| packages_abort p ps evs code :
    package_run O p evs (Exit code) ->
    packages_run O (p :: ps) evs (Exit code)
| packages_next p ps evs evs' o :
    package_run O p evs (Ret tt) ->
    packages_run O ps evs' o ->
    packages_run O (p :: ps) (evs ++ evs') o.

Definition missing_messages : list string :=
  ["-host missing"; "-port missing"; "-ca missing"; "-cn missing"; "-user missing";
   "$I2_PASS missing"].

Inductive main_run (O : Outside) (fl : Flags) : list event -> outcome unit -> Prop :=
| run_missing msg :
    msg ∈ missing_messages ->
    main_run O fl [EvStderr (msg +:+ nl)] (Exit 2)
| run_ca_unreadable errRF :
    main_run O fl [EvReadFile (ca fl) (Err errRF); EvStderr (errRF +:+ nl)] (Exit 1)
| run_ca_bad pem :
    main_run O fl [EvReadFile (ca fl) (Ok pem); EvStderr ("bad CA cert" +:+ nl)] (Exit 1)
| run_packages_fail pem call errSR :
    call_run (OutJSON (DecodePackages O)) "/v1/config/packages" call (Err errSR) ->
    main_run O fl (EvReadFile (ca fl) (Ok pem) :: call ++ [EvStderr (Error errSR +:+ nl)]) (Exit 1)
| run_export pem call packages evs o :
    call_run (OutJSON (DecodePackages O)) "/v1/config/packages" call (Ok packages) ->
    packages_run O packages evs o ->
    main_run O fl (EvReadFile (ca fl) (Ok pem) :: call ++ evs) o.

(** *** One call of [sendReq] *)

(** The body of the request that [sendReq] sends: the encoded [in] argument
    when there is one, and the base request's body otherwise. *)
Definition sendReq_body (input : option (res string string)) (b : http_Request)
  : option closableReader :=
  match input with
  | Some (Ok buf) => Some (mkClosableReader (mkReader buf None))
  | _ => Body b
  end.

(** The request on the wire, the line that [httpLogger] prints for it, and
    the two cells that [sendReq] allocates when the heap has [n] cells. *)
Definition sent (body : option closableReader) (u : url_URL) (h : gmap string (list string))
    (method uri : string) : wire :=
  mkWire method (mkURL (Scheme u) (Host u) uri) h (closableReader_Read <$> body).

Definition logged (O : Outside) (u : url_URL) (method uri : string) : event :=
  EvStdout (method +:+ " " +:+ URL_String O (mkURL (Scheme u) (Host u) uri) +:+ nl).

Definition copies (b : http_Request) (body : option closableReader) (u : url_URL)
    (method uri : string) (n : nat) : list obj :=
  [ObjRequest (mkRequest method (S n) (Header b) body);
   ObjURL (mkURL (Scheme u) (Host u) uri)].

(** A trace without a bad status. *)
Definition clean (tr : list event) : Prop := Forall (fun e => bad_status e = false) tr.

(** A trace without a file operation. *)
Definition quiet (tr : list event) : Prop := Forall (fun e => is_file_event e = false) tr.

(** The map that the loop builds from the entries it fetches and the bodies
    it gets for them. *)
Definition collect (m : gmap string string) (fetched : list (file * string))
  : gmap string string :=
  foldl (fun acc fb => <[file_Name fb.1 := fb.2]> acc) m fetched.


(** [uri] is the path of the request for a file that the listing of the
    active stage of [p], received earlier in [tr], names. *)
Definition file_request (O : Outside) (tr : list event) (p : pkg) (uri : string) : Prop :=
  ∃ t w resp files f,
    EvRoundTrip t w (Ok resp) ∈ tr ∧ Path (wURL w) = stages_uri p ∧
    DecodeFiles O (RespBody resp) = Ok files ∧ f ∈ files ∧ exported f = true ∧
    uri = files_uri p f.

Definition package_request (O : Outside) (tr : list event) (ps : list pkg) (uri : string) : Prop :=
  ∃ p, p ∈ ps ∧ wanted p = true ∧ (uri = stages_uri p ∨ file_request O tr p uri).


(** ** Scenarios *)

Definition demo_flags : Flags := mkFlags "icinga" "5665" "ca.pem" "icinga" "root".

Definition demo_packages : list pkg :=
  [mkPkg "st 1" "my pkg"; mkPkg "" "idle"; mkPkg "s2" "conf"].

Definition demo_files : list file :=
  [mkFile "a" "file"; mkFile "dir/b" "directory"; mkFile "dir/b" "file";
   mkFile "dir/b" "file"; mkFile "sub/dir/file.conf" "file"].

Definition demo_files2 : list file :=
  [mkFile "include.conf" "file"; mkFile "conf.d/" "directory"].

Definition round_trips (tr : list event) : nat := List.length (List.filter is_round_trip tr).

(** A server whose file contents change from one request to the next, and
    that answers the second stage listing with [second]. *)
Definition demo_server (file_body : string -> string) (second : http_Response)
    (tr : list event) (t : http_Transport) (w : wire) : res string http_Response :=
  let uri := Path (wURL w) in
  if String.eqb uri "/v1/config/packages" then Ok (mkResponse 200 (mkReader "packages" None))
  else if String.eqb uri "/v1/config/stages/my%20pkg/st%201"
       then Ok (mkResponse 200 (mkReader "stage 1" None))
  else if is_stages_uri uri then Ok second
  else Ok (mkResponse 200 (mkReader (file_body (decimal (Z.of_nat (round_trips tr)))) None)).

Definition demo_world (file_body : string -> string) (second : http_Response) : Outside := {|
  LookupEnv := fun key => if String.eqb key "I2_PASS" then Some "icinga" else None;
  ReadFile := fun name => if String.eqb name "ca.pem" then Ok "PEM" else Err "no such file";
  AppendCertsFromPEM := fun pem => String.eqb pem "PEM";
  basicAuth := fun username password => username +:+ ":" +:+ password;
  URL_String := fun u => Scheme u +:+ "://" +:+ Host u +:+ escape (Path u) encodePath;
  RoundTrip := demo_server file_body second;
  DecodePackages := fun rd =>
    if String.eqb (bytes rd) "packages" then Ok demo_packages else Err "invalid character";
  DecodeFiles := fun rd =>
    if String.eqb (bytes rd) "stage 1" then Ok demo_files
    else if String.eqb (bytes rd) "stage 2" then Ok demo_files2
    else Err "invalid character";
  Create := fun _ _ => None;
  WriteJSON := fun _ _ _ => Written;
  Close := fun _ _ => None
|}.

Definition demo_outside : Outside :=
  demo_world (fun n => "content " +:+ n) (mkResponse 200 (mkReader "stage 2" None)).

(** The same, but the listing of the second stage is refused. *)
Definition demo_refused : http_Response := mkResponse 404 (mkReader "No such package" None).

Definition demo_failing : Outside :=
  demo_world (fun n => "content " +:+ n) demo_refused.



(** The client, the base request and the state of [main] in these scenarios
    when the export begins. *)
Definition demo_transport : http_Transport := mkTransport (mkConfig ["PEM"] "icinga").
Definition demo_client : http_Client := mkClient (mkLogger demo_transport).
Definition demo_url : url_URL := mkURL "https" "icinga:5665" "".
Definition demo_header : gmap string (list string) :=
  {["Authorization" := ["Basic root:icinga"]]}.
Definition demo_request : http_Request := mkRequest "" 0 1 None.
Definition demo_state : state :=
  mkState [] [ObjURL demo_url; ObjHeader demo_header; ObjRequest demo_request].

Definition demo_pkg : pkg := mkPkg "st 1" "my pkg".
Definition demo_conf : pkg := mkPkg "s2" "conf".

(** The two events of a request that is answered with status 200. *)
Definition demo_call (O : Outside) (uri body : string) : list event :=
  [logged O demo_url "GET" uri;
   EvRoundTrip demo_transport (sent None demo_url demo_header "GET" uri)
     (Ok (mkResponse 200 (mkReader body None)))].

(** The map of the first package when the two files have these bodies. *)
Definition demo_map (b c : string) : gmap string string :=
  <["sub/dir/file.conf" := c]> (<["dir/b" := b]> ∅).


(** ** The run after the configuration is read *)

(** The message of the first check of lines 63-92 that fails, in the order
    of the checks. *)
Definition first_missing (O : Outside) (fl : Flags) : option string :=
  if decide (host fl = "") then Some "-host missing"
  else if decide (port fl = "") then Some "-port missing"
  else if decide (ca fl = "") then Some "-ca missing"
  else if decide (cn fl = "") then Some "-cn missing"
  else if decide (user fl = "") then Some "-user missing"
  else if decide (os_Getenv O "I2_PASS" = "") then Some "$I2_PASS missing"
  else None.

(** The client, the URL and the header of the base request that [main]
    builds (lines 109-119), and the state when they are built: the CA file
    has been read, and the heap holds the URL, the header map and the base
    request, at the pointers 0, 1 and 2. *)
Definition main_client (fl : Flags) (pem : string) : http_Client :=
  mkClient (mkLogger (mkTransport (mkConfig [pem] (cn fl)))).

Definition main_url (fl : Flags) : url_URL :=
  mkURL "https" (host fl +:+ ":" +:+ port fl) "".

Definition main_header (O : Outside) (fl : Flags) : gmap string (list string) :=
  <["Authorization" := ["Basic " +:+ basicAuth O (user fl) (os_Getenv O "I2_PASS")]]> ∅.

Definition main_request : http_Request := mkRequest "" 0 1 None.

Definition ready_state (O : Outside) (fl : Flags) (pem : string) : state :=
  mkState [EvReadFile (ca fl) (Ok pem)]
          [ObjURL (main_url fl); ObjHeader (main_header O fl); ObjRequest main_request].

(** Lines 128-211: the packages request and the loop over its results. *)
Definition main_export (O : Outside) (fl : Flags) (pem : string) : M unit :=
  got ← sendReq O (main_client fl pem) 2 "GET" "/v1/config/packages" None
          (OutJSON (DecodePackages O));
  match got with
  | Err errSR => Fprintln_Stderr (Error errSR);; os_Exit 1
  | Ok packages => main_packages O (main_client fl pem) 2 packages
  end.

(** An event that records a failure of the outside world. *)
Definition failed (e : event) : bool :=
  match e with
  | EvReadFile _ (Err _) => true
  | EvRoundTrip _ _ (Err _) => true
  | EvRoundTrip _ _ (Ok resp) => bool_decide (StatusCode resp ≠ 200%Z)
  | EvCreate _ (Some _) => true
  | EvWrite _ _ (EncodeFailed _) => true
  | EvWrite _ _ (FlushFailed _) => true
  | EvClose _ (Some _) => true
  | _ => false
  end.

Definition is_stderr (e : event) : bool :=
  match e with EvStderr _ => true | _ => false end.

(** What keeps a property of traces through the export (see the section
    [invariant]): each action of [main] on the outside world keeps it. *)
Definition kept (O : Outside) (client : http_Client) (b : http_Request) (u : url_URL)
    (h : gmap string (list string)) (Inv : list event -> Prop) : Prop :=
  (∀ tr uri,
     Inv tr ->
     Inv (tr ++ [logged O u "GET" uri;
                 EvRoundTrip (next (Transport client)) (sent (Body b) u h "GET" uri)
                   (RoundTrip O (tr ++ [logged O u "GET" uri]) (next (Transport client))
                      (sent (Body b) u h "GET" uri))])) ∧
  (∀ tr msg, Inv tr -> Inv (tr ++ [EvStderr msg])) ∧
  (∀ tr name, Inv tr -> Inv (tr ++ [EvCreate name (Create O tr name)])) ∧
  (∀ tr name m,
     Inv (tr ++ [EvCreate name None]) ->
     Inv ((tr ++ [EvCreate name None])
            ++ [EvWrite name m (WriteJSON O (tr ++ [EvCreate name None]) name m)])) ∧
  (∀ tr name m,
     Inv ((tr ++ [EvCreate name None]) ++ [EvWrite name m Written]) ->
     Inv (((tr ++ [EvCreate name None]) ++ [EvWrite name m Written])
            ++ [EvClose name
                  (Close O ((tr ++ [EvCreate name None]) ++ [EvWrite name m Written]) name)])).

(** The line that [httpLogger.RoundTrip] prints for a request. *)
Definition log_line (O : Outside) (w : wire) : event :=
  EvStdout (wMethod w +:+ " " +:+ URL_String O (wURL w) +:+ nl).

(** Standard output is the log of the requests: a round trip comes right
    after the line for its request, and a line on standard output is
    followed by the round trip it announces. *)
Definition requests_logged (O : Outside) (tr : list event) : Prop :=
  (∀ i t w got, tr !! i = Some (EvRoundTrip t w got) ->
     ∃ j, i = S j ∧ tr !! j = Some (log_line O w)) ∧
  (∀ j l, tr !! j = Some (EvStdout l) ->
     ∃ t w got, tr !! S j = Some (EvRoundTrip t w got) ∧ EvStdout l = log_line O w).

(** A request sent as [main] configures the client and the base request. *)
Definition as_configured (O : Outside) (fl : Flags) (t : http_Transport) (w : wire) : Prop :=
  (∃ pem, ReadFile O (ca fl) = Ok pem ∧ AppendCertsFromPEM O pem = true ∧
          RootCAs (TLSClientConfig t) = [pem]) ∧
  ServerName (TLSClientConfig t) = cn fl ∧
  wMethod w = "GET" ∧ wBody w = None ∧
  Scheme (wURL w) = "https" ∧ Host (wURL w) = host fl +:+ ":" +:+ port fl ∧
  wHeader w
    = {["Authorization" := ["Basic " +:+ basicAuth O (user fl) (os_Getenv O "I2_PASS")]]}.

(** Every round trip of a trace is one that [P] accepts. *)
Definition request_ok (P : http_Transport -> wire -> Prop) (tr : list event) : Prop :=
  ∀ i t w got, tr !! i = Some (EvRoundTrip t w got) -> P t w.

(** A bundle file is written right after it is created, and closed right
    after it is written. *)
Definition files_in_order (tr : list event) : Prop :=
  (∀ i name m w, tr !! i = Some (EvWrite name m w) ->
     ∃ j, i = S j ∧ tr !! j = Some (EvCreate name None)) ∧
  (∀ i name c, tr !! i = Some (EvClose name c) ->
     ∃ j m, i = S j ∧ tr !! j = Some (EvWrite name m Written)).

(** After the first failure of a trace come only lines on standard error. *)
Fixpoint failure_ends (tr : list event) : Prop :=
  match tr with
  | [] => True
  | e :: tr' =>
      if failed e then tr' ≠ [] ∧ Forall (fun e' => is_stderr e' = true) tr'
      else failure_ends tr'
  end.

(** A trace without a failure and without a line on standard error. *)
Definition smooth (tr : list event) : Prop :=
  Forall (fun e => failed e = false ∧ is_stderr e = false) tr.

(** What a run leaves, by its outcome: a smooth trace when it returns, and a
    trace that ends with the line of an error when it exits. *)
Definition left_behind {A} (evs : list event) (o : outcome A) : Prop :=
  failure_ends evs ∧
  match o with
  | Ret _ => smooth evs
  | Exit code => ∃ pre msg, evs = pre ++ [EvStderr (msg +:+ nl)]
  | Panic => False
  end.


(** What [main] prints on standard error after an event that records an
    error: the message of the error, followed by a newline; for a response
    with a bad status the body first, and then the line of [badHttpStatus].
    A response with status 200 is an error when its body cannot be taken in:
    [sendReq] decodes the answer to the packages request and to a stage
    listing as JSON, and reads the answer to a file request to its end.
    For a round trip that fails, the line is that of the error that
    [client.Do] returns, which the library makes from the transport's. *)
Definition report (O : Outside) (e : event) : option (list string) :=
  match e with
  | EvReadFile _ (Err msg) => Some [msg +:+ nl]
  | EvRoundTrip _ _ (Err msg) => Some [msg +:+ nl]
  | EvRoundTrip _ w (Ok resp) =>
      if decide (StatusCode resp ≠ 200%Z)
      then Some [bytes (RespBody resp); "HTTP " +:+ decimal (StatusCode resp) +:+ nl]
      else if String.eqb (Path (wURL w)) "/v1/config/packages" then
        match DecodePackages O (RespBody resp) with
        | Err msg => Some [msg +:+ nl]
        | Ok _ => None
        end
      else if is_stages_uri (Path (wURL w)) then
        match DecodeFiles O (RespBody resp) with
        | Err msg => Some [msg +:+ nl]
        | Ok _ => None
        end
      else
        match failure (RespBody resp) with
        | Some msg => Some [msg +:+ nl]
        | None => None
        end
  | EvCreate _ (Some msg) => Some [msg +:+ nl]
  | EvWrite _ _ (EncodeFailed msg) => Some [msg +:+ nl]
  | EvWrite _ _ (FlushFailed msg) => Some [msg +:+ nl]
  | EvClose _ (Some msg) => Some [msg +:+ nl]
  | _ => None
  end.

(** After the first event of a trace that records an error comes its
    report, and nothing else. *)
Fixpoint reported (O : Outside) (tr : list event) : Prop :=
  match tr with
  | [] => True
  | e :: tr' =>
      match report O e with
      | Some msgs => tr' = EvStderr <$> msgs
      | None => reported O tr'
      end
  end.

(** A trace without an error. *)
Definition calm (O : Outside) (tr : list event) : Prop :=
  Forall (fun e => report O e = None) tr.

(** The three requests of [main], by what the body of the answer is for. *)
Inductive purpose O : ∀ A, sink A -> string -> Prop :=
| for_packages : purpose O _ (OutJSON (DecodePackages O)) "/v1/config/packages"
| for_listing p : purpose O _ (OutJSON (DecodeFiles O)) (stages_uri p)
| for_file p f : purpose O _ OutBytes (files_uri p f).


(** What a part of the run leaves: without an exit no error, and otherwise
    the report of the first one. *)
Definition settled {B} (O : Outside) (evs : list event) (o : outcome B) : Prop :=
  reported O evs ∧ match o with Ret _ => calm O evs | Exit _ => True | Panic => False end.


(** An error of the round trip itself, for which [client.Do] returns an
    error of the library's. *)
Definition transport_error (e : event) : bool :=
  match e with EvRoundTrip _ _ (Err _) => true | _ => false end.


(** ** Redirects *)

(** The client of line 109 has no [CheckRedirect], so [http.Client.Do]
    follows a response with one of these statuses when it carries a
    [Location]: it sends a further request, and the response to the first
    one never reaches [sendReq].  [client_Do] above sends one request and
    hands back the answer to it: it is [Client.Do] for the answers that the
    client does not follow, and these are all the answers whose status is
    none of the five. *)
Definition redirect_status (code : Z) : bool :=
  (code =? 301)%Z || (code =? 302)%Z || (code =? 303)%Z || (code =? 307)%Z || (code =? 308)%Z.

(** A round trip whose answer the client may follow. *)
Definition may_redirect (e : event) : bool :=
  match e with
  | EvRoundTrip _ _ (Ok resp) => redirect_status (StatusCode resp)
  | _ => false
  end.

(** A trace in which no answer is one that the client may follow: every
    response in it is the one that [client.Do] returned. *)
Definition direct (tr : list event) : Prop :=
  Forall (fun e => may_redirect e = false) tr.

(** ** The program with a client that follows redirects *)

(** What [Client.Do] makes of the response to a request (net/http's
    [redirectBehavior], the [Location] header and the default redirect
    policy): it returns the response, or sends the request [w] next, or
    fails. *)
Inductive redirect :=
| NoRedirect
| Redirect (w : wire)
| RedirectError (msg : string).

(** The part of [net/http] that decides this.  It is left open, since it
    hangs on headers of the response that [http_Response] does not record;
    like the server it may answer by everything that happened before.
    [url_Error first last msg] is the text of the [*url.Error] in which
    [Client.Do] wraps an error: it names the method of the first request
    and the URL of the last one. *)
Record Policy := mkPolicy {
  redirectBehavior : list event -> wire -> http_Response -> redirect;
  url_Error : wire -> wire -> string -> string
}.

(** [httpLogger.RoundTrip] (lines 25-28) for a request that the client has
    made for a redirect: such a request is net/http's own and is never on
    the heap of the program. *)
Definition httpLogger_RoundTrip_hop (O : Outside) (hl : httpLogger) (w : wire)
  : M (res string http_Response) :=
  emit (EvStdout (wMethod w +:+ " " +:+ URL_String O (wURL w) +:+ nl));;
  tr ← history;
  let got := RoundTrip O tr (next hl) w in
  emit (EvRoundTrip (next hl) w got);;
  mret got.

(** The loop of [Client.Do] once the transport has answered the request
    [w] with [got]; [left] is the number of requests that the default
    policy still allows (it stops after ten). *)
Fixpoint follow (O : Outside) (P : Policy) (hl : httpLogger) (left : nat) (first w : wire)
    (got : res string http_Response) : M (res string http_Response) :=
  match got with
  | Err errRT => mret (Err (url_Error P first w errRT))
  | Ok resp =>
      tr ← history;
      match redirectBehavior P tr w resp with
      | NoRedirect => mret (Ok resp)
      | RedirectError msg => mret (Err (url_Error P first w msg))
      | Redirect w' =>
          match left with
          | 0%nat => mret (Err (url_Error P first w' "stopped after 10 redirects"))
          | S left' =>
              got' ← httpLogger_RoundTrip_hop O hl w';
              follow O P hl left' first w' got'
          end
      end
  end.

(** [http.Client.Do]: the request goes through the client's [Transport],
    and so does every request that the client makes for a redirect. *)
Definition client_Do' (O : Outside) (P : Policy) (client : http_Client) (request : ptr)
  : M (res string http_Response) :=
  rq ← load_Request request;
  u ← load_URL (URL rq);
  h ← load_Header (Header rq);
  let w := mkWire (Method rq) u h (closableReader_Read <$> Body rq) in
  got ← httpLogger_RoundTrip O (Transport client) request;
  follow O P (Transport client) 9 w w got.

(** [sendReq] (lines 214-257) with this client. *)
Definition sendReq' (O : Outside) (P : Policy) (client : http_Client) (base : ptr)
    (method uri : string) (input : option (res string string)) {A} (out : sink A)
  : M (res error A) :=
  b ← load_Request base;
  req ← alloc (ObjRequest b);                                   (* req := *base *)
  u ← load_URL (URL b);
  url ← alloc (ObjURL u);                                       (* url := *req.URL *)
  store req (ObjRequest (mkRequest method (URL b) (Header b) (Body b)));;   (* req.Method = method *)
  store req (ObjRequest (mkRequest method url (Header b) (Body b)));;       (* req.URL = &url *)
  store url (ObjURL (mkURL (Scheme u) (Host u) uri));;                      (* url.Path = uri *)
  encoded ←
    match input with
    | None => mret (Ok tt)
    | Some (Err errEc) => mret (Err (libraryError errEc))
    | Some (Ok buf) =>
        store req (ObjRequest (mkRequest method url (Header b)
                     (Some (mkClosableReader (mkReader buf None)))));;
        mret (Ok tt)
    end;
  match encoded with
  | Err errEc => mret (Err errEc)
  | Ok _ =>
      got ← client_Do' O P client req;
      match got with
      | Err errDo => mret (Err (libraryError errDo))
      | Ok resp =>
          if decide (StatusCode resp ≠ 200%Z) then
            emit (EvStderr (bytes (RespBody resp)));;            (* io.Copy(os.Stderr, resp.Body) *)
            mret (Err (badHttpStatus (StatusCode resp)))
          else mret (sendReq_out out resp)
      end
  end.

(** The loop of lines 155-181. *)
Fixpoint main_files' (O : Outside) (P : Policy) (client : http_Client) (req : ptr) (p : pkg)
    (files : list file) (uploadFiles : gmap string string) : M (gmap string string) :=
  match files with
  | [] => mret uploadFiles
  | f :: rest =>
      if exported f then
        got ← sendReq' O P client req "GET" (files_uri p f) None OutBytes;
        match got with
        | Err errSR => Fprintln_Stderr (Error errSR);; os_Exit 1
        | Ok content =>
            main_files' O P client req p rest (<[file_Name f := content]> uploadFiles)
        end
      else main_files' O P client req p rest uploadFiles
  end.

(** The body of the loop over the packages (lines 134-210). *)
Definition main_package' (O : Outside) (P : Policy) (client : http_Client) (req : ptr)
    (p : pkg) : M unit :=
  if wanted p then
    got ← sendReq' O P client req "GET" (stages_uri p) None (OutJSON (DecodeFiles O));
    match got with
    | Err errSR => Fprintln_Stderr (Error errSR);; os_Exit 1
    | Ok files =>
        uploadFiles ← main_files' O P client req p files ∅;
        main_bundle O p uploadFiles
    end
  else mret tt.

(** The loop of lines 133-211. *)
Fixpoint main_packages' (O : Outside) (P : Policy) (client : http_Client) (req : ptr)
    (packages : list pkg) : M unit :=
  match packages with
  | [] => mret tt
  | p :: rest => main_package' O P client req p;; main_packages' O P client req rest
  end.

(** [main] (lines 54-212), from the values of the flags. *)
Definition main' (O : Outside) (P : Policy) (fl : Flags) : M unit :=
  required (host fl) "-host missing";;
  required (port fl) "-port missing";;
  required (ca fl) "-ca missing";;
  required (cn fl) "-cn missing";;
  required (user fl) "-user missing";;
  let pass := os_Getenv O "I2_PASS" in
  required pass "$I2_PASS missing";;
  pem ← ioutil_ReadFile O (ca fl);
  match pem with
  | Err errRF => Fprintln_Stderr errRF;; os_Exit 1
  | Ok pem =>
      if negb (AppendCertsFromPEM O pem) then Fprintln_Stderr "bad CA cert";; os_Exit 1
      else
        let cas := [pem] in
        let client := mkClient (mkLogger (mkTransport (mkConfig cas (cn fl)))) in
        url ← alloc (ObjURL (mkURL "https" (host fl +:+ ":" +:+ port fl) ""));
        header ← alloc (ObjHeader ∅);
        req ← alloc (ObjRequest (mkRequest "" url header None));
        SetBasicAuth O req (user fl) pass;;
        got ← sendReq' O P client req "GET" "/v1/config/packages" None
                (OutJSON (DecodePackages O));
        match got with
        | Err errSR => Fprintln_Stderr (Error errSR);; os_Exit 1
        | Ok packages => main_packages' O P client req packages
        end
  end.

Definition run' (O : Outside) (P : Policy) (fl : Flags) : Z * list event :=
  let '(o, s) := main' O P fl (mkState [] []) in (exit_status o, trace s).

(** *** Reading the traces of this program *)

(** What [follow] adds to the history [tr], and what it returns. *)
Fixpoint hops (O : Outside) (P : Policy) (t : http_Transport) (left : nat) (first w : wire)
    (got : res string http_Response) (tr : list event)
  : list event * res string http_Response :=
  match got with
  | Err errRT => ([], Err (url_Error P first w errRT))
  | Ok resp =>
      match redirectBehavior P tr w resp with
      | NoRedirect => ([], Ok resp)
      | RedirectError msg => ([], Err (url_Error P first w msg))
      | Redirect w' =>
          match left with
          | 0%nat => ([], Err (url_Error P first w' "stopped after 10 redirects"))
          | S left' =>
              let line := EvStdout (wMethod w' +:+ " " +:+ URL_String O (wURL w') +:+ nl) in
              let got' := RoundTrip O (tr ++ [line]) t w' in
              let rest := hops O P t left' first w' got'
                            (tr ++ [line; EvRoundTrip t w' got']) in
              (line :: EvRoundTrip t w' got' :: rest.1, rest.2)
          end
      end
  end.

(** The exchange that [Client.Do] has for the request [w] after the history
    [tr]: every request with the line that [httpLogger] prints for it, and
    what [Do] returns at the end. *)
Definition exchange (O : Outside) (P : Policy) (t : http_Transport) (tr : list event)
    (w : wire) : list event * res string http_Response :=
  let line := EvStdout (wMethod w +:+ " " +:+ URL_String O (wURL w) +:+ nl) in
  let got := RoundTrip O (tr ++ [line]) t w in
  let rest := hops O P t 9 w w got (tr ++ [line; EvRoundTrip t w got]) in
  (line :: EvRoundTrip t w got :: rest.1, rest.2).

(** The response that [Client.Do] returns to [sendReq] at the event [e],
    which comes after the history [pre]: the response of a round trip that
    the client does not follow. *)
Definition returned (P : Policy) (pre : list event) (e : event) : option http_Response :=
  match e with
  | EvRoundTrip _ w (Ok resp) =>
      match redirectBehavior P (pre ++ [e]) w resp with
      | NoRedirect => Some resp
      | _ => None
      end
  | _ => None
  end.

(** [Client.Do] returns a response whose status is not 200. *)
Definition returned_bad (P : Policy) (pre : list event) (e : event) : bool :=
  match returned P pre e with
  | Some resp => bool_decide (StatusCode resp ≠ 200%Z)
  | None => false
  end.

(** After the history [pre], no response with a bad status is returned in
    [tr]. *)
Fixpoint clean' (P : Policy) (pre tr : list event) : Prop :=
  match tr with
  | [] => True
  | e :: tr' => returned_bad P pre e = false ∧ clean' P (pre ++ [e]) tr'
  end.

(** Once a response with a bad status is returned, all that follows is its
    body and the line of the error on standard error. *)
Fixpoint bad_status_ends' (P : Policy) (pre tr : list event) : Prop :=
  match tr with
  | [] => True
  | e :: tr' =>
      if returned_bad P pre e then
        match e with
        | EvRoundTrip _ _ (Ok resp) =>
            tr' = [EvStderr (bytes (RespBody resp));
                   EvStderr (Error (badHttpStatus (StatusCode resp)) +:+ nl)]
        | _ => False
        end
      else bad_status_ends' P (pre ++ [e]) tr'
  end.

(** After the history [pre], no response is returned in [tr]: the client
    follows every one, or fails. *)
Fixpoint passing (P : Policy) (pre tr : list event) : Prop :=
  match tr with
  | [] => True
  | e :: tr' => returned P pre e = None ∧ passing P (pre ++ [e]) tr'
  end.

(** What a part of the run leaves after the history [pre]: when it returns,
    no bad status; when it ends the process, the status 1. *)
Definition aborts' {A} (P : Policy) (pre evs : list event) (o : outcome A) : Prop :=
  bad_status_ends' P pre evs ∧
  match o with
  | Ret _ => clean' P pre evs
  | Exit code => code = 1%Z
  | Panic => False
  end.

(** *** A server that moves the listing of the second stage *)

(** The client follows a response with status 302 to the path that its body
    names (standing for its [Location]), with the method, the host and the
    header of the request. *)
Definition demo_policy : Policy := {|
  redirectBehavior := fun _ w resp =>
    if (StatusCode resp =? 302)%Z
    then Redirect (mkWire (wMethod w)
                     (mkURL (Scheme (wURL w)) (Host (wURL w)) (bytes (RespBody resp)))
                     (wHeader w) None)
    else NoRedirect;
  url_Error := fun first w msg =>
    "Get " +:+ Scheme (wURL w) +:+ "://" +:+ Host (wURL w) +:+ Path (wURL w) +:+ ": " +:+ msg
|}.

(** The listing of the second stage has moved to [/v1/config/stages/conf/s3],
    where the server answers with [there]. *)
Definition demo_moved (there : http_Response) : Outside := {|
  LookupEnv := LookupEnv demo_outside;
  ReadFile := ReadFile demo_outside;
  AppendCertsFromPEM := AppendCertsFromPEM demo_outside;
  basicAuth := basicAuth demo_outside;
  URL_String := URL_String demo_outside;
  RoundTrip := fun tr t w =>
    if String.eqb (Path (wURL w)) "/v1/config/stages/conf/s2"
    then Ok (mkResponse 302 (mkReader "/v1/config/stages/conf/s3" None))
    else if String.eqb (Path (wURL w)) "/v1/config/stages/conf/s3" then Ok there
    else RoundTrip demo_outside tr t w;
  DecodePackages := DecodePackages demo_outside;
  DecodeFiles := DecodeFiles demo_outside;
  Create := Create demo_outside;
  WriteJSON := WriteJSON demo_outside;
  Close := Close demo_outside
|}.

(** *** A server that refuses every stage listing *)



(** *** A client that never follows *)

(** The policy of a client that hands every response back and every error
    on as it is. *)
Definition never : Policy := {|
  redirectBehavior := fun _ _ _ => NoRedirect;
  url_Error := fun _ _ msg => msg
|}.

(** *** Runs in which the client has nothing to follow *)

(** Go's client returns a response whose status is none of the five. *)
Definition returns_others (P : Policy) : Prop :=
  ∀ tr w resp,
    redirect_status (StatusCode resp) = false -> redirectBehavior P tr w resp = NoRedirect.

(** A trace in which every round trip has an answer, and none that the
    client may follow. *)
Definition straight (tr : list event) : Prop :=
  Forall (fun e => match e with
                   | EvRoundTrip _ _ (Ok resp) => redirect_status (StatusCode resp) = false
                   | EvRoundTrip _ _ (Err _) => False
                   | _ => True
                   end) tr.

(** * Proofs *)

(** ** Stepping through the monad *)

Lemma bind_Ret {A B} (m : M A) (k : A -> M B) s a s' :
  m s = (Ret a, s') -> (m ≫= k) s = k a s'.
Proof. intros H. unfold mbind, M_bind. by rewrite H. Qed.

Lemma bind_Exit {A B} (m : M A) (k : A -> M B) s code s' :
  m s = (Exit code, s') -> (m ≫= k) s = (Exit code, s').
Proof. intros H. unfold mbind, M_bind. by rewrite H. Qed.

Lemma bind_Panic {A B} (m : M A) (k : A -> M B) s s' :
  m s = (Panic, s') -> (m ≫= k) s = (Panic, s').
Proof. intros H. unfold mbind, M_bind. by rewrite H. Qed.

Lemma load_Request_ok tr hp p rq :
  hp !! p = Some (ObjRequest rq) -> load_Request p (mkState tr hp) = (Ret rq, mkState tr hp).
Proof. intros H. unfold load_Request, load, mbind, M_bind. simpl. by rewrite H. Qed.

Lemma load_URL_ok tr hp p u :
  hp !! p = Some (ObjURL u) -> load_URL p (mkState tr hp) = (Ret u, mkState tr hp).
Proof. intros H. unfold load_URL, load, mbind, M_bind. simpl. by rewrite H. Qed.

Lemma load_Header_ok tr hp p h :
  hp !! p = Some (ObjHeader h) -> load_Header p (mkState tr hp) = (Ret h, mkState tr hp).
Proof. intros H. unfold load_Header, load, mbind, M_bind. simpl. by rewrite H. Qed.

Lemma store_ok tr hp p o o' :
  hp !! p = Some o' -> store p o (mkState tr hp) = (Ret tt, mkState tr (<[p := o]> hp)).
Proof. intros H. unfold store. simpl. by rewrite H. Qed.

Lemma lookup_new {A} (l : list A) x l' : (l ++ x :: l') !! List.length l = Some x.
Proof. by rewrite list_lookup_middle. Qed.

Lemma lookup_new1 {A} (l : list A) x y l' : (l ++ x :: y :: l') !! S (List.length l) = Some y.
Proof.
  replace (l ++ x :: y :: l') with ((l ++ [x]) ++ y :: l') by by rewrite <- app_assoc.
  rewrite list_lookup_middle; [done | rewrite length_app; simpl; lia].
Qed.

Lemma insert_new {A} (l : list A) x y l' : <[List.length l := y]> (l ++ x :: l') = l ++ y :: l'.
Proof. induction l; simpl; [done | by rewrite IHl]. Qed.

Lemma insert_new1 {A} (l : list A) x y z l' :
  <[S (List.length l) := z]> (l ++ x :: y :: l') = l ++ x :: z :: l'.
Proof. induction l; simpl; [done | by rewrite IHl]. Qed.

Lemma template_at_grow s base b u h tr hp :
  template_at s base b u h -> template_at (mkState tr (heap s ++ hp)) base b u h.
Proof.
  intros (H1 & H2 & H3). repeat split; simpl; by apply lookup_app_l_Some.
Qed.

Lemma client_Do_step O client tr hp req rq u h :
  hp !! req = Some (ObjRequest rq) ->
  hp !! URL rq = Some (ObjURL u) ->
  hp !! Header rq = Some (ObjHeader h) ->
  let line := EvStdout (Method rq +:+ " " +:+ URL_String O u +:+ nl) in
  let w := mkWire (Method rq) u h (closableReader_Read <$> Body rq) in
  let got := RoundTrip O (tr ++ [line]) (next (Transport client)) w in
  client_Do O client req (mkState tr hp) =
    (Ret got, mkState (tr ++ [line; EvRoundTrip (next (Transport client)) w got]) hp).
Proof.
  intros Hrq Hu Hh line w got.
  unfold client_Do, httpLogger_RoundTrip.
  erewrite bind_Ret by (by apply load_Request_ok).
  erewrite bind_Ret by (by apply load_URL_ok).
  erewrite bind_Ret by (by apply load_Header_ok).
  erewrite bind_Ret by reflexivity.
  erewrite bind_Ret by reflexivity.
  erewrite bind_Ret by reflexivity.
  unfold mret, M_ret. simpl. by rewrite <- app_assoc.
Qed.

Lemma sendReq_heap O client base method uri input A (out : sink A) s b u h :
  template_at s base b u h ->
  heap (sendReq O client base method uri input out s).2 =
  heap s ++ copies b (sendReq_body input b) u method uri (List.length (heap s)).
Proof.
  intros (Hb & Hu & Hh). destruct s as [tr hp]. simpl in *.
  unfold sendReq.
  erewrite bind_Ret by (by apply load_Request_ok).
  erewrite bind_Ret by reflexivity. simpl.
  erewrite bind_Ret by (apply load_URL_ok; by apply lookup_app_l_Some).
  erewrite bind_Ret by reflexivity. simpl.
  rewrite length_app, <- app_assoc. simpl. rewrite Nat.add_1_r.
  erewrite bind_Ret by (eapply store_ok, lookup_new). rewrite insert_new.
  erewrite bind_Ret by (eapply store_ok, lookup_new). rewrite insert_new.
  erewrite bind_Ret by (eapply store_ok, lookup_new1). rewrite insert_new1.
  destruct input as [[buf | errEc] |].
  - erewrite bind_Ret.
    2:{ erewrite bind_Ret by (eapply store_ok, lookup_new). rewrite insert_new. reflexivity. }
    cbv beta iota.
    erewrite bind_Ret.
    2:{ apply client_Do_step; [apply lookup_new | apply lookup_new1 |].
        simpl. by apply lookup_app_l_Some. }
    simpl. match goal with |- context [RoundTrip ?a ?b ?c ?d] => generalize (RoundTrip a b c d) end.
    intros [resp | errDo]; [| done].
    by destruct (decide (StatusCode resp ≠ 200%Z)).
  - by erewrite bind_Ret by reflexivity.
  - erewrite bind_Ret by reflexivity. cbv beta iota.
    erewrite bind_Ret.
    2:{ apply client_Do_step; [apply lookup_new | apply lookup_new1 |].
        simpl. by apply lookup_app_l_Some. }
    simpl. match goal with |- context [RoundTrip ?a ?b ?c ?d] => generalize (RoundTrip a b c d) end.
    intros [resp | errDo]; [| done].
    by destruct (decide (StatusCode resp ≠ 200%Z)).
Qed.

Lemma sendReq_sends O client base method uri input A (out : sink A) s b u h :
  template_at s base b u h ->
  (∀ errEc, input ≠ Some (Err errEc)) ->
  let w := sent (sendReq_body input b) u h method uri in
  let got := RoundTrip O (trace s ++ [logged O u method uri]) (next (Transport client)) w in
  sendReq O client base method uri input out s =
    (Ret (answer out got).2,
     mkState (trace s ++ logged O u method uri :: EvRoundTrip (next (Transport client)) w got
                      :: (answer out got).1)
             (heap s ++ copies b (sendReq_body input b) u method uri (List.length (heap s)))).
Proof.
  intros (Hb & Hu & Hh) Hin w got. destruct s as [tr hp]. simpl in *.
  unfold sendReq.
  erewrite bind_Ret by (by apply load_Request_ok).
  erewrite bind_Ret by reflexivity. simpl.
  erewrite bind_Ret by (apply load_URL_ok; by apply lookup_app_l_Some).
  erewrite bind_Ret by reflexivity. simpl.
  rewrite length_app, <- app_assoc. simpl. rewrite Nat.add_1_r.
  erewrite bind_Ret by (eapply store_ok, lookup_new). rewrite insert_new.
  erewrite bind_Ret by (eapply store_ok, lookup_new). rewrite insert_new.
  erewrite bind_Ret by (eapply store_ok, lookup_new1). rewrite insert_new1.
  erewrite (bind_Ret _ _ _ (Ok tt)
              (mkState tr (hp ++ copies b (sendReq_body input b) u method uri (List.length hp)))).
  2:{ destruct input as [[buf | errEc] |]; [| by destruct (Hin errEc) | done].
      erewrite bind_Ret by (eapply store_ok, lookup_new). by rewrite insert_new. }
  erewrite bind_Ret.
  2:{ apply client_Do_step; [apply lookup_new | apply lookup_new1 |].
      simpl. by apply lookup_app_l_Some. }
  simpl. subst got w. unfold sent, logged, copies.
  match goal with |- context [RoundTrip ?a ?b ?c ?d] => generalize (RoundTrip a b c d) end.
  intros got. unfold answer. destruct got as [resp | errDo]; [| done].
  destruct (decide (StatusCode resp ≠ 200%Z)); [| done].
  erewrite bind_Ret by reflexivity. unfold mret, M_ret. simpl.
  by rewrite <- app_assoc.
Qed.

Lemma sendReq_step O client base method uri A (out : sink A) s b u h :
  template_at s base b u h ->
  let w := sent (Body b) u h method uri in
  let got := RoundTrip O (trace s ++ [logged O u method uri]) (next (Transport client)) w in
  sendReq O client base method uri None out s =
    (Ret (answer out got).2,
     mkState (trace s ++ logged O u method uri :: EvRoundTrip (next (Transport client)) w got
                      :: (answer out got).1)
             (heap s ++ copies b (Body b) u method uri (List.length (heap s)))).
Proof. intros Ht. by apply (sendReq_sends O client base method uri None). Qed.

Lemma call_run_step O client A (out : sink A) body u h uri tr :
  let w := sent body u h "GET" uri in
  let got := RoundTrip O tr (next (Transport client)) w in
  call_run out uri
    (logged O u "GET" uri :: EvRoundTrip (next (Transport client)) w got :: (answer out got).1)
    (answer out got).2.
Proof. intros w got. by constructor. Qed.

Lemma Fprintln_exit {A} msg code s :
  (Fprintln_Stderr msg;; os_Exit code : M A) s =
  (Exit code, mkState (trace s ++ [EvStderr (msg +:+ nl)]) (heap s)).
Proof. reflexivity. Qed.

Ltac listed := repeat first [apply list_elem_of_here | apply list_elem_of_further].

Ltac exits :=
  lazymatch goal with
  | |- context [@mbind _ _ _ ?A (fun _ => os_Exit ?c) (Fprintln_Stderr ?m) ?s] =>
      rewrite (@Fprintln_exit A m c s); simpl
  end.

Lemma main_files_run O client req p files : ∀ m s b u h,
  template_at s req b u h ->
  ∃ evs hp o,
    main_files O client req p files m s = (o, mkState (trace s ++ evs) (heap s ++ hp)) ∧
    files_run p files m evs o.
Proof.
  induction files as [| f rest IH]; intros m s b u h Ht; simpl.
  - exists [], [], (Ret m). rewrite !app_nil_r. destruct s. split; [done | constructor].
  - destruct (exported f) eqn:Hex.
    + erewrite bind_Ret by (by eapply sendReq_step).
      pose proof (call_run_step O client _ OutBytes (Body b) u h (files_uri p f)
                    (trace s ++ [logged O u "GET" (files_uri p f)])) as Hcall.
      simpl in Hcall.
      set (got := RoundTrip O _ _ _) in *.
      destruct (answer OutBytes got).2 as [content | errSR] eqn:Hans.
      * edestruct (IH (<[file_Name f := content]> m)) as (evs & hp & o & Heq & Hrun).
        { eapply template_at_grow, Ht. }
        rewrite Heq. simpl. eexists _, _, o. rewrite <- !app_assoc. split; [done |].
        eapply files_fetch; [done | | done]. exact Hcall.
      * exits. eexists _, _, _. rewrite <- !app_assoc. split; [done |].
        eapply files_abort; [done |]. exact Hcall.
    + edestruct (IH m) as (evs & hp & o & Heq & Hrun); [done |].
      rewrite Heq. eexists _, _, _. split; [done |]. by constructor.
Qed.

Lemma main_bundle_run O p m s :
  ∃ evs o,
    main_bundle O p m s = (o, mkState (trace s ++ evs) (heap s)) ∧ bundle_run p m evs o.
Proof.
  unfold main_bundle. destruct (decide (0 < size m)) as [Hm | Hm].
  - erewrite bind_Ret by reflexivity.
    erewrite bind_Ret by reflexivity. simpl.
    destruct (Create O (trace s) (bundle_name p)) as [e |].
    { exits. eexists _, _. rewrite <- !app_assoc. split; [done |].
      by constructor. }
    erewrite bind_Ret by reflexivity.
    erewrite bind_Ret by reflexivity. simpl.
    destruct (WriteJSON O _ _ m) as [| e | e].
    + erewrite bind_Ret by reflexivity.
      erewrite bind_Ret by reflexivity. simpl.
      destruct (Close O _ _) as [e |].
      * exits. eexists _, _. rewrite <- !app_assoc. split; [done |].
        by constructor.
      * eexists _, _. rewrite <- !app_assoc. split; [done |]. by constructor.
    + exits. eexists _, _. rewrite <- !app_assoc. split; [done |].
      by constructor.
    + exits. eexists _, _. rewrite <- !app_assoc. split; [done |].
      by constructor.
  - exists [], (Ret tt). rewrite app_nil_r. destruct s. split; [done |].
    constructor. lia.
Qed.

Lemma files_run_no_panic p files m evs o : files_run p files m evs o -> o ≠ Panic.
Proof. induction 1; congruence. Qed.

Lemma bundle_run_no_panic p m evs o : bundle_run p m evs o -> o ≠ Panic.
Proof. destruct 1; congruence. Qed.

Lemma package_run_no_panic O p evs o : package_run O p evs o -> o ≠ Panic.
Proof. destruct 1; try congruence. by eapply bundle_run_no_panic. Qed.

Lemma packages_run_no_panic O ps evs o : packages_run O ps evs o -> o ≠ Panic.
Proof. induction 1; congruence. Qed.

Lemma main_package_run O client req p s b u h :
  template_at s req b u h ->
  ∃ evs hp o,
    main_package O client req p s = (o, mkState (trace s ++ evs) (heap s ++ hp)) ∧
    package_run O p evs o.
Proof.
  intros Ht. unfold main_package. destruct (wanted p) eqn:Hw.
  - erewrite bind_Ret by (by eapply sendReq_step).
    pose proof (call_run_step O client _ (OutJSON (DecodeFiles O)) (Body b) u h (stages_uri p)
                  (trace s ++ [logged O u "GET" (stages_uri p)])) as Hcall.
    simpl in Hcall.
    set (got := RoundTrip O _ _ _) in *.
    destruct (answer (OutJSON (DecodeFiles O)) got).2 as [files | errSR] eqn:Hans.
    + edestruct (main_files_run O client req p files ∅) as (evs & hp & o & Heq & Hrun).
      { eapply template_at_grow, Ht. }
      destruct o as [m | code |].
      * erewrite bind_Ret by exact Heq.
        edestruct (main_bundle_run O p m) as (evs' & o & Heq' & Hrun').
        rewrite Heq'. simpl. eexists _, _, _. rewrite <- !app_assoc. split; [done |].
        eapply (package_fetched _ _ (_ :: _ :: _)); [done | exact Hcall | exact Hrun | exact Hrun'].
      * erewrite bind_Exit by exact Heq.
        simpl. eexists _, _, _. rewrite <- !app_assoc. split; [done |].
        eapply (package_fetch_fails _ _ (_ :: _ :: _)); [done | exact Hcall | exact Hrun].
      * by apply files_run_no_panic in Hrun.
    + exits. eexists _, _, _. rewrite <- !app_assoc. split; [done |].
      eapply (package_listing_fails _ _ (_ :: _ :: _)); [done | exact Hcall].
  - exists [], [], (Ret tt). rewrite !app_nil_r. destruct s. split; [done | by constructor].
Qed.

Lemma main_packages_run O client req packages : ∀ s b u h,
  template_at s req b u h ->
  ∃ evs hp o,
    main_packages O client req packages s = (o, mkState (trace s ++ evs) (heap s ++ hp)) ∧
    packages_run O packages evs o.
Proof.
  induction packages as [| p rest IH]; intros s b u h Ht; simpl.
  - exists [], [], (Ret tt). rewrite !app_nil_r. destruct s. split; [done | constructor].
  - edestruct (main_package_run O client req p) as (evs & hp & o & Heq & Hrun); [exact Ht |].
    destruct o as [[] | code |].
    + erewrite bind_Ret by exact Heq.
      edestruct IH as (evs' & hp' & o & Heq' & Hrun').
      { eapply template_at_grow, Ht. }
      rewrite Heq'. simpl. eexists _, _, _. rewrite <- !app_assoc. split; [done |].
      by econstructor.
    + erewrite bind_Exit by exact Heq. eexists _, _, _. split; [done |]. by constructor.
    + by apply package_run_no_panic in Hrun.
Qed.


Lemma required_ok value missing s : value ≠ "" -> required value missing s = (Ret tt, s).
Proof. intros H. unfold required. by destruct (decide (value = "")). Qed.

Lemma required_missing {A} value missing (k : M A) s :
  value = "" ->
  (required value missing;; k) s =
  (Exit 2, mkState (trace s ++ [EvStderr (missing +:+ nl)]) (heap s)).
Proof. intros ->. reflexivity. Qed.

Lemma SetBasicAuth_ok O tr hp req rq h username password :
  hp !! req = Some (ObjRequest rq) ->
  hp !! Header rq = Some (ObjHeader h) ->
  SetBasicAuth O req username password (mkState tr hp) =
  (Ret tt, mkState tr (<[Header rq :=
     ObjHeader (<["Authorization" := ["Basic " +:+ basicAuth O username password]]> h)]> hp)).
Proof.
  intros Hrq Hh. unfold SetBasicAuth.
  erewrite bind_Ret by (by apply load_Request_ok).
  erewrite bind_Ret by (by apply load_Header_ok).
  by erewrite store_ok.
Qed.

Lemma main_runs O fl :
  ∃ evs hp o, main O fl (mkState [] []) = (o, mkState evs hp) ∧ main_run O fl evs o.
Proof.
  unfold main.
  destruct (decide (host fl = "")) as [H1 | H1].
  { rewrite required_missing by done. eexists _, _, _. split; [done |].
    constructor. unfold missing_messages. listed. }
  erewrite bind_Ret by (by apply required_ok).
  destruct (decide (port fl = "")) as [H2 | H2].
  { rewrite required_missing by done. eexists _, _, _. split; [done |].
    constructor. unfold missing_messages. listed. }
  erewrite bind_Ret by (by apply required_ok).
  destruct (decide (ca fl = "")) as [H3 | H3].
  { rewrite required_missing by done. eexists _, _, _. split; [done |].
    constructor. unfold missing_messages. listed. }
  erewrite bind_Ret by (by apply required_ok).
  destruct (decide (cn fl = "")) as [H4 | H4].
  { rewrite required_missing by done. eexists _, _, _. split; [done |].
    constructor. unfold missing_messages. listed. }
  erewrite bind_Ret by (by apply required_ok).
  destruct (decide (user fl = "")) as [H5 | H5].
  { rewrite required_missing by done. eexists _, _, _. split; [done |].
    constructor. unfold missing_messages. listed. }
  erewrite bind_Ret by (by apply required_ok).
  cbv zeta.
  destruct (decide (os_Getenv O "I2_PASS" = "")) as [H6 | H6].
  { rewrite required_missing by done. eexists _, _, _. split; [done |].
    constructor. unfold missing_messages. listed. }
  erewrite bind_Ret by (by apply required_ok).
  erewrite bind_Ret by reflexivity.
  destruct (ReadFile O (ca fl)) as [pem | errRF].
  2:{ exits. eexists _, _, _. split; [done |]. constructor. }
  destruct (AppendCertsFromPEM O pem); unfold negb; cbv beta iota.
  2:{ exits. eexists _, _, _. split; [done |]. constructor. }
  erewrite bind_Ret by reflexivity.
  erewrite bind_Ret by reflexivity.
  erewrite bind_Ret by reflexivity. simpl.
  erewrite bind_Ret by (by eapply SetBasicAuth_ok). simpl.
  set (u := mkURL _ _ _). set (b := mkRequest _ _ _ _). set (h := <[_ := _]> _).
  set (s := mkState _ _).
  assert (template_at s 2 b u h) as Ht by done.
  erewrite bind_Ret by (by eapply sendReq_step).
  pose proof (call_run_step O (mkClient (mkLogger (mkTransport (mkConfig [pem] (cn fl)))))
                _ (OutJSON (DecodePackages O)) (Body b) u h "/v1/config/packages"
                (trace s ++ [logged O u "GET" "/v1/config/packages"])) as Hcall.
  simpl in Hcall.
  set (got := RoundTrip O _ _ _) in *.
  destruct (answer (OutJSON (DecodePackages O)) got).2 as [packages | errSR] eqn:Hans.
  - edestruct (main_packages_run O) as (evs & hp & o & Heq & Hrun).
    { eapply template_at_grow, Ht. }
    rewrite Heq. simpl. eexists _, _, _. split; [done |].
    eapply (run_export _ _ _ (_ :: _ :: _)); [exact Hcall | exact Hrun].
  - exits. eexists _, _, _. split; [done |].
    eapply (run_packages_fail _ _ _ (_ :: _ :: _)). exact Hcall.
Qed.

(** ** What a call leaves in the trace *)

Lemma call_run_Ok {A} (out : sink A) uri call v :
  call_run out uri call (Ok v) ->
  ∃ l t w resp,
    call = [EvStdout l; EvRoundTrip t w (Ok resp)] ∧ wMethod w = "GET" ∧
    Path (wURL w) = uri ∧ StatusCode resp = 200%Z ∧ sendReq_out out resp = Ok v.
Proof.
  inversion 1 as [l t w got Hm Hp Hc Hr]. subst. unfold answer in *.
  destruct got as [resp | e]; [| done].
  destruct (decide (StatusCode resp ≠ 200%Z)) as [Hs | Hs]; [done |].
  exists l, t, w, resp. simpl in *. repeat split; try done.
  by destruct (decide (StatusCode resp = 200%Z)).
Qed.

Lemma call_run_Err {A} (out : sink A) uri call e :
  call_run out uri call (Err e) ->
  ∃ l t w got,
    Path (wURL w) = uri ∧
    ((∃ resp, got = Ok resp ∧ StatusCode resp ≠ 200%Z ∧ e = badHttpStatus (StatusCode resp) ∧
              call = [EvStdout l; EvRoundTrip t w got; EvStderr (bytes (RespBody resp))]) ∨
     ((∀ resp, got = Ok resp -> StatusCode resp = 200%Z) ∧
      (∃ msg, e = libraryError msg) ∧ call = [EvStdout l; EvRoundTrip t w got])).
Proof.
  inversion 1 as [l t w got Hm Hp Hc Hr]. subst. unfold answer in *.
  exists l, t, w, got. split; [done |].
  destruct got as [resp | msg].
  - destruct (decide (StatusCode resp ≠ 200%Z)) as [Hs | Hs]; simpl in *.
    + left. exists resp. by simplify_eq.
    + right. repeat split; try done.
      * intros ? [= <-]. by destruct (decide (StatusCode resp = 200%Z)).
      * destruct out; simpl in Hr; simplify_eq.
        -- destruct (ReadAll _); simplify_eq. eauto.
        -- destruct (Decode _); simplify_eq. eauto.
  - right. simpl in *. simplify_eq. repeat split; [done | eauto].
Qed.

Lemma requested_app a b : requested (a ++ b) = requested a ++ requested b.
Proof. induction a as [| [] a IH]; simpl; by rewrite ?IH. Qed.

Lemma received_app a b : received (a ++ b) = received a ++ received b.
Proof. induction a as [| [| | | ? ? [] | | |] a IH]; simpl; by rewrite ?IH. Qed.

Lemma In_requested t w got tr : In (EvRoundTrip t w got) tr -> In (Path (wURL w)) (requested tr).
Proof.
  induction tr as [| e tr IH]; simpl; [done |].
  intros [-> | H]; [by left |]. destruct e; simpl; auto.
Qed.

(** ** A bad status ends the run *)

Lemma clean_app a b : clean (a ++ b) ↔ clean a ∧ clean b.
Proof. apply Forall_app. Qed.

Lemma bad_status_ends_clean a b : clean a -> bad_status_ends (a ++ b) ↔ bad_status_ends b.
Proof.
  induction 1 as [| e a He Ha IH]; simpl; [done |].
  destruct e as [| | | t w [resp | msg] | | |]; try done.
  simpl in He. destruct (decide (StatusCode resp ≠ 200%Z)); [| done].
  by rewrite bool_decide_eq_false in He.
Qed.

Lemma clean_ends tr : clean tr -> bad_status_ends tr.
Proof. intros H. rewrite <- (app_nil_r tr). by apply bad_status_ends_clean. Qed.

Lemma no_round_trip_clean tr : Forall (fun e => is_round_trip e = false) tr -> clean tr.
Proof. intros H. eapply Forall_impl; [exact H |]. by intros []. Qed.

Lemma call_Ok_clean {A} (out : sink A) uri call v : call_run out uri call (Ok v) -> clean call.
Proof.
  intros (l & t & w & resp & -> & _ & _ & Hs & _)%call_run_Ok.
  repeat constructor. simpl. rewrite bool_decide_eq_false. naive_solver.
Qed.

(** A call that fails, followed by the line that [main] prints for it. *)
Lemma call_Err_ends {A} (out : sink A) uri call e :
  call_run out uri call (Err e) ->
  bad_status_ends (call ++ [EvStderr (Error e +:+ nl)]).
Proof.
  intros (l & t & w & got & _ & [(resp & -> & Hs & -> & ->) | (Hok & _ & ->)])%call_run_Err; simpl.
  - by destruct (decide (StatusCode resp ≠ 200%Z)).
  - destruct got as [resp |]; [| done].
    destruct (decide (StatusCode resp ≠ 200%Z)) as [Hs | Hs]; [| done].
    by destruct Hs; apply Hok.
Qed.

Lemma files_run_ends p files m evs o :
  files_run p files m evs o ->
  bad_status_ends evs ∧ (clean evs ∨ o = Exit 1).
Proof.
  induction 1 as [m | f fs m evs o Hex Hrun IH | f fs m call content evs o Hex Hcall Hrun IH
                 | f fs m call errSR Hex Hcall]; simpl.
  - split; [done | left; constructor].
  - done.
  - destruct IH as [IH1 IH2]. pose proof (call_Ok_clean _ _ _ _ Hcall) as Hc. split.
    + by apply bad_status_ends_clean.
    + destruct IH2 as [IH2 | IH2]; [left | by right]. by apply clean_app.
  - split; [by eapply call_Err_ends | by right].
Qed.

Lemma bundle_run_clean p m evs o : bundle_run p m evs o -> clean evs.
Proof. destruct 1; by repeat constructor. Qed.

Lemma package_run_ends O p evs o :
  package_run O p evs o ->
  bad_status_ends evs ∧ (clean evs ∨ o = Exit 1).
Proof.
  destruct 1 as [Hw | call errSR Hw Hcall | call files evs code Hw Hcall Hrun
                | call files evs m evs' o Hw Hcall Hrun Hb].
  - split; [done | left; constructor].
  - split; [by eapply call_Err_ends | by right].
  - pose proof (call_Ok_clean _ _ _ _ Hcall) as Hc.
    destruct (files_run_ends _ _ _ _ _ Hrun) as [H1 H2]. split.
    + by apply bad_status_ends_clean.
    + destruct H2 as [H2 | H2]; [left; by apply clean_app | right; by simplify_eq].
  - pose proof (call_Ok_clean _ _ _ _ Hcall) as Hc.
    destruct (files_run_ends _ _ _ _ _ Hrun) as [H1 [H2 | H2]]; [| done].
    pose proof (bundle_run_clean _ _ _ _ Hb) as H3.
    assert (clean (call ++ evs ++ evs')) by (rewrite !clean_app; done).
    split; [by apply clean_ends | by left].
Qed.

Lemma packages_run_ends O ps evs o :
  packages_run O ps evs o ->
  bad_status_ends evs ∧ (clean evs ∨ o = Exit 1).
Proof.
  induction 1 as [| p ps evs code Hp | p ps evs evs' o Hp Hps IH].
  - split; [done | left; constructor].
  - destruct (package_run_ends _ _ _ _ Hp) as [H1 [H2 | H2]]; [by split; [| left] |].
    split; [done | by right].
  - destruct (package_run_ends _ _ _ _ Hp) as [H1 [H2 | H2]]; [| done].
    destruct IH as [IH1 IH2]. split.
    + by apply bad_status_ends_clean.
    + destruct IH2 as [IH2 | IH2]; [left; by apply clean_app | by right].
Qed.

Lemma main_run_ends O fl evs o :
  main_run O fl evs o ->
  bad_status_ends evs ∧ (clean evs ∨ o = Exit 1).
Proof.
  destruct 1 as [msg Hmsg | errRF | pem | pem call errSR Hcall | pem call packages evs o Hcall Hps].
  - split; [done | left; by repeat constructor].
  - split; [done | by right].
  - split; [done | by right].
  - split; [| by right]. simpl. by eapply call_Err_ends.
  - pose proof (call_Ok_clean _ _ _ _ Hcall) as Hc.
    destruct (packages_run_ends _ _ _ _ Hps) as [H1 H2]. split.
    + simpl. by apply bad_status_ends_clean.
    + destruct H2 as [H2 | H2]; [left | by right].
      constructor; [done |]. by apply clean_app.
Qed.

Lemma bad_status_ends_split tr pre t w resp post :
  bad_status_ends tr ->
  tr = pre ++ EvRoundTrip t w (Ok resp) :: post ->
  StatusCode resp ≠ 200%Z ->
  post = [EvStderr (bytes (RespBody resp));
          EvStderr (Error (badHttpStatus (StatusCode resp)) +:+ nl)].
Proof.
  intros Hends -> Hs. induction pre as [| e pre IH]; simpl in Hends.
  - by destruct (decide (StatusCode resp ≠ 200%Z)).
  - destruct e as [| | | t' w' [resp' | msg] | | |]; try by apply IH.
    destruct (decide (StatusCode resp' ≠ 200%Z)); [| by apply IH].
    simpl in Hends. destruct pre as [| ? [| ? [| ? ?]]]; simplify_eq.
Qed.

(** ** Requests and files in the runs *)

Lemma call_run_quiet {A} (out : sink A) uri call r : call_run out uri call r -> quiet call.
Proof.
  destruct 1 as [l t w got _ _]. unfold answer.
  destruct got as [resp |]; [destruct (decide _) |]; by repeat constructor.
Qed.

Lemma call_run_requested {A} (out : sink A) uri call r :
  call_run out uri call r -> requested call = [uri].
Proof.
  destruct 1 as [l t w got _ <-]. unfold answer. simpl. f_equal.
  destruct got as [resp |]; [destruct (decide _) |]; done.
Qed.

Lemma call_run_received uri call content :
  call_run OutBytes uri call (Ok content) -> received call = [content].
Proof.
  intros (l & t & w & resp & -> & _ & _ & _ & Hout)%call_run_Ok. simpl in *.
  unfold ReadAll in Hout. destruct (failure (RespBody resp)); by simplify_eq.
Qed.

Lemma files_run_quiet p files m evs o : files_run p files m evs o -> quiet evs.
Proof.
  induction 1 as [| | f fs m call content evs o Hex Hcall Hrun IH | f fs m call errSR Hex Hcall].
  - constructor.
  - done.
  - apply Forall_app. split; [by eapply call_run_quiet | done].
  - apply Forall_app. split; [by eapply call_run_quiet | by repeat constructor].
Qed.

Lemma files_run_Ret p files m0 evs m :
  files_run p files m0 evs (Ret m) ->
  requested evs = files_uri p <$> List.filter exported files ∧
  List.length (received evs) = List.length (List.filter exported files) ∧
  m = collect m0 (zip (List.filter exported files) (received evs)).
Proof.
  remember (Ret m) as o eqn:Ho. intros Hrun. revert Ho.
  induction Hrun as [m0 | f fs m0 evs o Hex Hrun IH | f fs m0 call content evs o Hex Hcall Hrun IH
                    | f fs m0 call errSR Hex Hcall]; intros Ho; simpl.
  - by simplify_eq.
  - rewrite Hex. by apply IH.
  - rewrite Hex. destruct (IH Ho) as (IH1 & IH2 & IH3).
    rewrite requested_app, received_app.
    rewrite (call_run_requested _ _ _ _ Hcall), (call_run_received _ _ _ Hcall). simpl.
    by rewrite IH1, IH2, IH3.
  - done.
Qed.

Lemma files_run_requested p files m evs o :
  files_run p files m evs o ->
  Forall (fun uri => ∃ f, f ∈ files ∧ exported f = true ∧ uri = files_uri p f) (requested evs).
Proof.
  induction 1 as [| f fs m evs o Hex Hrun IH | f fs m call content evs o Hex Hcall Hrun IH
                 | f fs m call errSR Hex Hcall]; simpl.
  - constructor.
  - eapply Forall_impl; [exact IH |]. intros uri (g & ? & ? & ?). exists g.
    split; [by apply list_elem_of_further | done].
  - rewrite requested_app, (call_run_requested _ _ _ _ Hcall). constructor.
    + exists f. split; [apply list_elem_of_here | done].
    + eapply Forall_impl; [exact IH |]. intros uri (g & ? & ? & ?). exists g.
      split; [by apply list_elem_of_further | done].
  - rewrite requested_app, (call_run_requested _ _ _ _ Hcall). simpl. constructor; [| done].
    exists f. split; [apply list_elem_of_here | done].
Qed.

Lemma collect_dom fetched : ∀ m,
  dom (collect m fetched) = dom m ∪ list_to_set (file_Name <$> fetched.*1).
Proof.
  induction fetched as [| [f body] fetched IH]; intros m; simpl.
  - by rewrite (right_id_L ∅ (∪)).
  - unfold collect in *. simpl. rewrite IH, dom_insert_L.
    by rewrite (comm_L (∪) {[file_Name f]} (dom m)), <- (assoc_L (∪)).
Qed.


Lemma String_prefix_empty s : String.prefix "" s = true.
Proof. by destruct s. Qed.

Lemma stages_uri_is_stages p : is_stages_uri (stages_uri p) = true.
Proof. unfold is_stages_uri, stages_uri. simpl. apply String_prefix_empty. Qed.

Lemma files_uri_not_stages p f : is_stages_uri (files_uri p f) = false.
Proof. reflexivity. Qed.



Lemma bundle_run_requested p m evs o : bundle_run p m evs o -> requested evs = [].
Proof. by destruct 1. Qed.





(** ** Whole runs *)

Lemma run_main_run O fl :
  ∃ o, (run O fl).1 = exit_status o ∧ main_run O fl (run O fl).2 o.
Proof.
  destruct (main_runs O fl) as (evs & hp & o & Heq & Hrun).
  exists o. unfold run. by rewrite Heq.
Qed.

Lemma files_run_exit p files m evs code : files_run p files m evs (Exit code) -> code = 1%Z.
Proof.
  remember (Exit code) as o eqn:Ho. intros Hrun. revert Ho.
  induction Hrun; intros Ho; simplify_eq; auto.
Qed.

Lemma bundle_run_exit p m evs code : bundle_run p m evs (Exit code) -> code = 1%Z.
Proof. inversion 1; done. Qed.

Lemma package_run_exit O p evs code : package_run O p evs (Exit code) -> code = 1%Z.
Proof.
  inversion 1; subst; [done | by eapply files_run_exit | by eapply bundle_run_exit].
Qed.

Lemma packages_run_exit O ps evs code : packages_run O ps evs (Exit code) -> code = 1%Z.
Proof.
  remember (Exit code) as o eqn:Ho. intros Hrun. revert Ho.
  induction Hrun; intros Ho; simplify_eq; [by eapply package_run_exit | auto].
Qed.

Lemma main_run_exit O fl evs code :
  main_run O fl evs (Exit code) -> code = 1%Z ∨ code = 2%Z.
Proof.
  inversion 1; subst; auto. left. by eapply packages_run_exit.
Qed.

Lemma run_succeeds O fl o :
  (run O fl).1 = 0%Z -> (run O fl).1 = exit_status o -> main_run O fl (run O fl).2 o -> o = Ret tt.
Proof.
  intros H0 Ho Hrun. rewrite H0 in Ho. destruct o as [[] | code |]; simpl in Ho; [done | | done].
  apply main_run_exit in Hrun as [-> | ->]; done.
Qed.

Lemma package_run_quiet O p evs o : package_run O p evs o -> clean evs ∨ quiet evs.
Proof.
  destruct 1 as [Hw | call errSR Hw Hcall | call files evs code Hw Hcall Hrun
                | call files evs m evs' o Hw Hcall Hrun Hb].
  - left. constructor.
  - right. apply Forall_app. split; [by eapply call_run_quiet | by repeat constructor].
  - right. apply Forall_app. split; [by eapply call_run_quiet | by eapply files_run_quiet].
  - left. rewrite !clean_app. split; [by eapply call_Ok_clean | split].
    + by destruct (files_run_ends _ _ _ _ _ Hrun) as [_ [? | ?]].
    + by eapply bundle_run_clean.
Qed.

(** ** Escaped and raw path segments *)






Lemma exported_spec f :
  exported f = true ↔ file_Type f = "file" ∧ strings_Contains (file_Name f) "/" = true.
Proof. unfold exported. by rewrite andb_true_iff, bool_decide_eq_true. Qed.


(** [strings_Contains] finds [substr] exactly when [s] splits around it. *)
Lemma prefix_cons a s1 b s2 :
  String.prefix (String a s1) (String b s2)
  = if ascii_dec a b then String.prefix s1 s2 else false.
Proof. reflexivity. Qed.

Lemma prefix_spec s1 s2 : String.prefix s1 s2 = true ↔ ∃ t, s2 = s1 +:+ t.
Proof.
  revert s2. induction s1 as [| a s1 IH]; intros s2.
  - rewrite String_prefix_empty. split; [by exists s2 | done].
  - destruct s2 as [| b s2].
    + split; [done | by intros [t Ht]].
    + rewrite prefix_cons. destruct (ascii_dec a b) as [-> | Hne].
      * rewrite IH. split; intros [t Ht]; exists t.
        -- by rewrite Ht.
        -- by injection Ht.
      * split; [done | intros [t Ht]; injection Ht; done].
Qed.

Lemma strings_Contains_spec s substr :
  strings_Contains s substr = true ↔ ∃ a b, s = a +:+ substr +:+ b.
Proof.
  induction s as [| c s IH].
  - change (strings_Contains "" substr) with (String.prefix substr "" || false).
    rewrite orb_false_r, prefix_spec. split.
    + intros [t Ht]. by exists "", t.
    + intros (a & b & Hab). destruct a; [by exists b | done].
  - change (strings_Contains (String c s) substr)
      with (String.prefix substr (String c s) || strings_Contains s substr).
    rewrite orb_true_iff, prefix_spec, IH. split.
    + intros [[t Ht] | (a & b & Hab)]; [by exists "", t |].
      exists (String c a), b. by rewrite Hab.
    + intros (a & b & Hab). destruct a as [| c' a]; [left; by exists b |].
      right. exists a, b. by injection Hab.
Qed.

(** ** The shape of the requests *)

Lemma file_request_mono O tr tr' p uri :
  tr ⊆ tr' -> file_request O tr p uri -> file_request O tr' p uri.
Proof.
  intros Hsub (t & w & resp & files & f & Hin & H). exists t, w, resp, files, f.
  split; [by apply Hsub | done].
Qed.

Lemma package_request_mono O tr tr' ps ps' uri :
  tr ⊆ tr' -> ps ⊆ ps' -> package_request O tr ps uri -> package_request O tr' ps' uri.
Proof.
  intros Htr Hps (p & Hp & Hw & [-> | Hf]); exists p; (split; [by apply Hps |]); (split; [done |]).
  - by left.
  - right. by eapply file_request_mono.
Qed.

Lemma call_run_listing O uri call files :
  call_run (OutJSON (DecodeFiles O)) uri call (Ok files) ->
  ∃ t w resp, EvRoundTrip t w (Ok resp) ∈ call ∧ Path (wURL w) = uri ∧
              DecodeFiles O (RespBody resp) = Ok files.
Proof.
  intros (l & t & w & resp & -> & _ & Hp & _ & Hout)%call_run_Ok. exists t, w, resp.
  split; [listed | split; [done |]]. simpl in Hout.
  destruct (DecodeFiles O (RespBody resp)); by simplify_eq.
Qed.

Lemma package_run_requests O p evs o :
  package_run O p evs o ->
  Forall (package_request O evs [p]) (requested evs).
Proof.
  destruct 1 as [Hw | call errSR Hw Hcall | call files evs code Hw Hcall Hrun
                | call files evs m evs' o Hw Hcall Hrun Hb].
  - constructor.
  - rewrite requested_app, (call_run_requested _ _ _ _ Hcall). simpl.
    constructor; [| done]. exists p. split; [listed | by split; [| left]].
  - rewrite requested_app, (call_run_requested _ _ _ _ Hcall). simpl.
    destruct (call_run_listing _ _ _ _ Hcall) as (t & w & resp & Hin & Hp & Hd).
    constructor.
    + exists p. split; [listed | by split; [| left]].
    + eapply Forall_impl; [exact (files_run_requested _ _ _ _ _ Hrun) |].
      intros uri (f & Hf & Hex & ->). exists p. split; [listed | split; [done | right]].
      exists t, w, resp, files, f. split; [| done]. apply elem_of_app. by left.
  - rewrite !requested_app, (call_run_requested _ _ _ _ Hcall),
      (bundle_run_requested _ _ _ _ Hb), app_nil_r. simpl.
    destruct (call_run_listing _ _ _ _ Hcall) as (t & w & resp & Hin & Hp & Hd).
    constructor.
    + exists p. split; [listed | by split; [| left]].
    + eapply Forall_impl; [exact (files_run_requested _ _ _ _ _ Hrun) |].
      intros uri (f & Hf & Hex & ->). exists p. split; [listed | split; [done | right]].
      exists t, w, resp, files, f. split; [| done]. apply elem_of_app. by left.
Qed.

Lemma packages_run_requests O ps evs o :
  packages_run O ps evs o ->
  Forall (package_request O evs ps) (requested evs).
Proof.
  induction 1 as [| p ps evs code Hp | p ps evs evs' o Hp Hps IH].
  - constructor.
  - eapply Forall_impl; [exact (package_run_requests _ _ _ _ Hp) |].
    intros uri. apply package_request_mono; [done |]. intros q Hq.
    apply list_elem_of_singleton in Hq as ->. listed.
  - rewrite requested_app. apply Forall_app. split.
    + eapply Forall_impl; [exact (package_run_requests _ _ _ _ Hp) |].
      intros uri. apply package_request_mono.
      * intros e He. apply elem_of_app. by left.
      * intros q Hq. apply list_elem_of_singleton in Hq as ->. listed.
    + eapply Forall_impl; [exact IH |].
      intros uri. apply package_request_mono.
      * intros e He. apply elem_of_app. by right.
      * intros q Hq. by apply list_elem_of_further.
Qed.





(** ** The text of an encoded string *)






(** ** The bundle of a stage *)

Lemma filter_exported f files :
  f ∈ List.filter exported files ↔ f ∈ files ∧ exported f = true.
Proof. rewrite !list_elem_of_In. apply List.filter_In. Qed.



(** ** The bundle file of a package *)

Lemma bundle_run_events p m evs o e :
  bundle_run p m evs o -> e ∈ evs ->
  0 < size m ∧
  ((∃ got, e = EvCreate (bundle_name p) got) ∨ (∃ got, e = EvWrite (bundle_name p) m got) ∨
   (∃ got, e = EvClose (bundle_name p) got) ∨ (∃ msg, e = EvStderr msg)).
Proof.
  destruct 1; intros He; [by apply elem_of_nil in He | ..]; (split; [done |]);
    repeat (apply elem_of_cons in He as [-> | He]; [eauto 6 |]); by apply elem_of_nil in He.
Qed.

Lemma quiet_elem tr e : quiet tr -> e ∈ tr -> is_file_event e = false.
Proof. intros Hq He. exact (proj1 (Forall_forall _ _) Hq e He). Qed.

(** A file operation of a package happens in its [bundle_run], after the
    listing and the fetches. *)
Lemma package_run_bundle O p evs o e :
  package_run O p evs o -> e ∈ evs -> is_file_event e = true ->
  ∃ call files evs1 m evs2,
    evs = call ++ evs1 ++ evs2 ∧
    call_run (OutJSON (DecodeFiles O)) (stages_uri p) call (Ok files) ∧
    files_run p files ∅ evs1 (Ret m) ∧ bundle_run p m evs2 o ∧ e ∈ evs2.
Proof.
  destruct 1 as [Hw | call errSR Hw Hcall | call files evs code Hw Hcall Hrun
                | call files evs m evs' o Hw Hcall Hrun Hb]; intros He Hfile.
  - by apply elem_of_nil in He.
  - apply elem_of_app in He as [He | He].
    + by rewrite (quiet_elem _ _ (call_run_quiet _ _ _ _ Hcall) He) in Hfile.
    + apply list_elem_of_singleton in He as ->. done.
  - apply elem_of_app in He as [He | He].
    + by rewrite (quiet_elem _ _ (call_run_quiet _ _ _ _ Hcall) He) in Hfile.
    + by rewrite (quiet_elem _ _ (files_run_quiet _ _ _ _ _ Hrun) He) in Hfile.
  - exists call, files, evs, m, evs'. repeat split; try done.
    apply elem_of_app in He as [He | He].
    + by rewrite (quiet_elem _ _ (call_run_quiet _ _ _ _ Hcall) He) in Hfile.
    + apply elem_of_app in He as [He | He]; [| done].
      by rewrite (quiet_elem _ _ (files_run_quiet _ _ _ _ _ Hrun) He) in Hfile.
Qed.


Lemma collect_nil_listing p files evs m :
  files_run p files ∅ evs (Ret m) -> List.filter exported files = [] -> m = ∅.
Proof. intros (_ & _ & ->)%files_run_Ret ->. reflexivity. Qed.

Lemma bundle_run_empty p evs o : bundle_run p ∅ evs o -> evs = [].
Proof. inversion 1 as [| ? Hs | ? Hs | ? Hs | ? Hs | Hs]; [done | ..]; by rewrite map_size_empty in Hs; lia. Qed.

Lemma call_run_second {A} (out : sink A) uri call v rest t w resp :
  call_run out uri call (Ok v) ->
  (call ++ rest) !! 1 = Some (EvRoundTrip t w (Ok resp)) ->
  sendReq_out out resp = Ok v.
Proof.
  intros (l & t' & w' & resp' & -> & _ & _ & _ & Hout)%call_run_Ok. simpl. by intros [= -> -> ->].
Qed.

Lemma decoded_listing O resp files files' :
  sendReq_out (OutJSON (DecodeFiles O)) resp = Ok files ->
  DecodeFiles O (RespBody resp) = Ok files' -> files = files'.
Proof. intros H Hd. simpl in H. rewrite Hd in H. by simplify_eq. Qed.

(** ** What the bundle holds for a fetched file *)







(** * The program with a client that follows redirects *)

(** ** Stepping through [Client.Do] *)

Lemma httpLogger_RoundTrip_hop_step O hl w tr hp :
  let line := EvStdout (wMethod w +:+ " " +:+ URL_String O (wURL w) +:+ nl) in
  let got := RoundTrip O (tr ++ [line]) (next hl) w in
  httpLogger_RoundTrip_hop O hl w (mkState tr hp) =
    (Ret got, mkState (tr ++ [line; EvRoundTrip (next hl) w got]) hp).
Proof.
  intros line got. unfold httpLogger_RoundTrip_hop.
  erewrite bind_Ret by reflexivity.
  erewrite bind_Ret by reflexivity.
  erewrite bind_Ret by reflexivity.
  unfold mret, M_ret. simpl. by rewrite <- app_assoc.
Qed.

Lemma follow_hops O P hl first left : ∀ w got tr hp,
  follow O P hl left first w got (mkState tr hp) =
    (Ret (hops O P (next hl) left first w got tr).2,
     mkState (tr ++ (hops O P (next hl) left first w got tr).1) hp).
Proof.
  induction left as [| left IH]; intros w got tr hp.
  - destruct got as [resp | e]; cbn [follow hops]; [| by rewrite app_nil_r].
    erewrite bind_Ret by reflexivity. cbn [trace].
    destruct (redirectBehavior P tr w resp); cbn [fst snd]; by rewrite app_nil_r.
  - destruct got as [resp | e]; cbn [follow hops]; [| by rewrite app_nil_r].
    erewrite bind_Ret by reflexivity. cbn [trace].
    destruct (redirectBehavior P tr w resp) as [| w' | msg]; cbn [fst snd];
      [by rewrite app_nil_r | | by rewrite app_nil_r].
    erewrite bind_Ret by apply httpLogger_RoundTrip_hop_step.
    rewrite IH. cbn zeta. by rewrite <- app_assoc.
Qed.

Lemma client_Do'_step O P client tr hp req rq u h :
  hp !! req = Some (ObjRequest rq) ->
  hp !! URL rq = Some (ObjURL u) ->
  hp !! Header rq = Some (ObjHeader h) ->
  let w := mkWire (Method rq) u h (closableReader_Read <$> Body rq) in
  client_Do' O P client req (mkState tr hp) =
    (Ret (exchange O P (next (Transport client)) tr w).2,
     mkState (tr ++ (exchange O P (next (Transport client)) tr w).1) hp).
Proof.
  intros Hrq Hu Hh w. unfold client_Do'.
  erewrite bind_Ret by (by apply load_Request_ok).
  erewrite bind_Ret by (by apply load_URL_ok).
  erewrite bind_Ret by (by apply load_Header_ok).
  erewrite bind_Ret by (by apply (client_Do_step O client)).
  rewrite follow_hops. unfold exchange. cbn zeta. cbn [fst snd].
  by rewrite <- app_assoc.
Qed.

Lemma sendReq'_sends O P client base method uri input A (out : sink A) s b u h :
  template_at s base b u h ->
  (∀ errEc, input ≠ Some (Err errEc)) ->
  let ex := exchange O P (next (Transport client)) (trace s)
              (sent (sendReq_body input b) u h method uri) in
  sendReq' O P client base method uri input out s =
    (Ret (answer out ex.2).2,
     mkState (trace s ++ ex.1 ++ (answer out ex.2).1)
             (heap s ++ copies b (sendReq_body input b) u method uri (List.length (heap s)))).
Proof.
  intros (Hb & Hu & Hh) Hin ex. destruct s as [tr hp]. simpl in Hb, Hu, Hh.
  cbn [trace heap] in *.
  unfold sendReq'.
  erewrite bind_Ret by (by apply load_Request_ok).
  erewrite bind_Ret by reflexivity. cbn [heap trace].
  erewrite bind_Ret by (apply load_URL_ok; by apply lookup_app_l_Some).
  erewrite bind_Ret by reflexivity. cbn [heap trace].
  rewrite length_app, <- app_assoc. cbn [List.length app]. rewrite Nat.add_1_r.
  erewrite bind_Ret by (eapply store_ok, lookup_new). rewrite insert_new.
  erewrite bind_Ret by (eapply store_ok, lookup_new). rewrite insert_new.
  erewrite bind_Ret by (eapply store_ok, lookup_new1). rewrite insert_new1.
  erewrite (bind_Ret _ _ _ (Ok tt)
              (mkState tr (hp ++ copies b (sendReq_body input b) u method uri (List.length hp)))).
  2:{ destruct input as [[buf | errEc] |]; [| by destruct (Hin errEc) | done].
      erewrite bind_Ret by (eapply store_ok, lookup_new). by rewrite insert_new. }
  cbv beta iota.
  erewrite bind_Ret.
  2:{ apply client_Do'_step; [apply lookup_new | apply lookup_new1 |].
      cbn [Header]. by apply lookup_app_l_Some. }
  cbn [Method URL Header Body]. fold (sent (sendReq_body input b) u h method uri).
  change (mkWire method (mkURL (Scheme u) (Host u) uri) h
            (closableReader_Read <$> sendReq_body input b))
    with (sent (sendReq_body input b) u h method uri).
  fold ex. destruct ex as [evs got]. cbn [fst snd]. unfold answer.
  destruct got as [resp | errDo]; [| by rewrite app_nil_r].
  destruct (decide (StatusCode resp ≠ 200%Z)); [| by rewrite app_nil_r].
  erewrite bind_Ret by reflexivity. unfold mret, M_ret. cbn [trace heap fst snd].
  by rewrite <- app_assoc.
Qed.

(** ** What an exchange leaves in the trace *)

Lemma clean'_app P a : ∀ pre b,
  clean' P pre (a ++ b) ↔ clean' P pre a ∧ clean' P (pre ++ a) b.
Proof.
  induction a as [| e a IH]; intros pre b; cbn [app clean'].
  - rewrite app_nil_r. tauto.
  - rewrite IH, <- app_assoc. cbn [app]. tauto.
Qed.

Lemma passing_app P a : ∀ pre b,
  passing P pre (a ++ b) ↔ passing P pre a ∧ passing P (pre ++ a) b.
Proof.
  induction a as [| e a IH]; intros pre b; cbn [app passing].
  - rewrite app_nil_r. tauto.
  - rewrite IH, <- app_assoc. cbn [app]. tauto.
Qed.

Lemma passing_clean P tr : ∀ pre, passing P pre tr -> clean' P pre tr.
Proof.
  induction tr as [| e tr IH]; intros pre; cbn [passing clean']; [done |].
  intros [He Htr]. split; [| by apply IH]. unfold returned_bad. by rewrite He.
Qed.

Lemma ends'_clean P a : ∀ pre b,
  clean' P pre a -> bad_status_ends' P pre (a ++ b) ↔ bad_status_ends' P (pre ++ a) b.
Proof.
  induction a as [| e a IH]; intros pre b; cbn [app clean' bad_status_ends'].
  - by rewrite app_nil_r.
  - intros [He Ha]. rewrite He, (IH _ _ Ha), <- app_assoc. done.
Qed.

Lemma clean'_ends P pre tr : clean' P pre tr -> bad_status_ends' P pre tr.
Proof.
  intros H. rewrite <- (app_nil_r tr). by apply ends'_clean.
Qed.

Lemma no_round_trip_passing P tr : ∀ pre,
  Forall (fun e => is_round_trip e = false) tr -> passing P pre tr.
Proof.
  induction tr as [| e tr IH]; intros pre; cbn [passing]; [done |].
  intros [He Htr]%Forall_cons. split; [by destruct e | by apply IH].
Qed.

Lemma hops_returned O P t first left : ∀ w got pre,
  let e := EvRoundTrip t w got in
  let r := hops O P t left first w got (pre ++ [e]) in
  quiet (e :: r.1) ∧
  match r.2 with
  | Ok resp =>
      ∃ ex0 w', e :: r.1 = ex0 ++ [EvRoundTrip t w' (Ok resp)] ∧ passing P pre ex0 ∧
                returned P (pre ++ ex0) (EvRoundTrip t w' (Ok resp)) = Some resp
  | Err _ => passing P pre (e :: r.1)
  end.
Proof.
  induction left as [| left IH]; intros w got pre e r; subst e r.
  - destruct got as [resp | msg]; cbn [hops].
    2:{ split; [by repeat constructor | by cbn]. }
    destruct (redirectBehavior P (pre ++ [EvRoundTrip t w (Ok resp)]) w resp)
      as [| w' | msg] eqn:Hd; cbn [fst snd].
    + split; [by repeat constructor |]. exists [], w. rewrite app_nil_r.
      split; [done | split; [done |]]. cbn. by rewrite Hd.
    + split; [by repeat constructor |]. cbn. by rewrite Hd.
    + split; [by repeat constructor |]. cbn. by rewrite Hd.
  - destruct got as [resp | msg]; cbn [hops].
    2:{ split; [by repeat constructor | by cbn]. }
    destruct (redirectBehavior P (pre ++ [EvRoundTrip t w (Ok resp)]) w resp)
      as [| w' | msg] eqn:Hd; cbn [fst snd].
    + split; [by repeat constructor |]. exists [], w. rewrite app_nil_r.
      split; [done | split; [done |]]. cbn. by rewrite Hd.
    + cbn zeta.
      set (line := EvStdout (wMethod w' +:+ " " +:+ URL_String O (wURL w') +:+ nl)).
      set (got' := RoundTrip O ((pre ++ [EvRoundTrip t w (Ok resp)]) ++ [line]) t w').
      specialize (IH w' got' (pre ++ [EvRoundTrip t w (Ok resp); line])).
      cbn zeta in IH.
      replace ((pre ++ [EvRoundTrip t w (Ok resp); line]) ++ [EvRoundTrip t w' got'])
        with ((pre ++ [EvRoundTrip t w (Ok resp)]) ++ [line; EvRoundTrip t w' got']) in IH
        by (by rewrite <- !app_assoc).
      assert (returned P pre (EvRoundTrip t w (Ok resp)) = None) as Hnone
        by (cbn [returned]; by rewrite Hd).
      destruct IH as [Hq IH]. cbn [fst snd]. split.
      { unfold quiet in *. constructor; [done |]. constructor; [done |]. exact Hq. }
      destruct (hops O P t left first w' got'
                  ((pre ++ [EvRoundTrip t w (Ok resp)]) ++ [line; EvRoundTrip t w' got'])).2
        as [resp' | msg'].
      * destruct IH as (ex0 & w'' & Heq & Hpass & Hret).
        exists (EvRoundTrip t w (Ok resp) :: line :: ex0), w''. split; [| split].
        -- cbn [app]. by rewrite <- Heq.
        -- cbn [passing]. split; [done |]. split; [done |].
           by rewrite <- app_assoc.
        -- rewrite <- Hret. f_equal. by rewrite <- app_assoc.
      * cbn [passing]. split; [done |]. split; [done |].
        by rewrite <- app_assoc.
    + split; [by repeat constructor |]. cbn. by rewrite Hd.
Qed.

Lemma exchange_call O P t A (out : sink A) pre w :
  let ex := exchange O P t pre w in
  let call := ex.1 ++ (answer out ex.2).1 in
  quiet call ∧
  match (answer out ex.2).2 with
  | Ok _ => clean' P pre call
  | Err e => bad_status_ends' P pre (call ++ [EvStderr (Error e +:+ nl)])
  end.
Proof.
  intros ex call. subst ex call. unfold exchange. cbn zeta. cbn [fst snd].
  set (line := EvStdout (wMethod w +:+ " " +:+ URL_String O (wURL w) +:+ nl)).
  set (got := RoundTrip O (pre ++ [line]) t w).
  pose proof (hops_returned O P t w 9 w got (pre ++ [line])) as Hh. cbn zeta in Hh.
  replace ((pre ++ [line]) ++ [EvRoundTrip t w got])
    with (pre ++ [line; EvRoundTrip t w got]) in Hh by (by rewrite <- app_assoc).
  destruct Hh as [Hq Hh].
  set (r := hops O P t 9 w w got (pre ++ [line; EvRoundTrip t w got])) in *.
  destruct r as [evs [resp | msg]]; cbn [fst snd] in *; unfold answer.
  - destruct Hh as (ex0 & w' & Heq & Hpass & Hret).
    assert (returned_bad P (pre ++ line :: ex0) (EvRoundTrip t w' (Ok resp))
            = bool_decide (StatusCode resp ≠ 200%Z)) as Hbad.
    { unfold returned_bad.
      replace (pre ++ line :: ex0) with ((pre ++ [line]) ++ ex0) by (by rewrite <- app_assoc).
      by rewrite Hret. }
    assert (clean' P pre (line :: ex0)) as Hclean.
    { cbn [clean']. split; [done |]. by apply passing_clean. }
    destruct (decide (StatusCode resp ≠ 200%Z)) as [Hs | Hs]; cbn [fst snd].
    + split.
      { apply Forall_app. split; [| by repeat constructor]. by constructor. }
      change (line :: EvRoundTrip t w got :: evs) with ([line] ++ (EvRoundTrip t w got :: evs)).
      rewrite Heq, <- !app_assoc. cbn [app].
      change (line :: ex0 ++ ?x) with ((line :: ex0) ++ x).
      apply ends'_clean; [done |]. cbn [bad_status_ends'].
      rewrite Hbad, bool_decide_eq_true_2 by done. done.
    + rewrite app_nil_r. split; [by constructor |].
      assert (clean' P pre (line :: EvRoundTrip t w got :: evs)) as Hall.
      { change (line :: EvRoundTrip t w got :: evs)
          with ([line] ++ (EvRoundTrip t w got :: evs)).
        rewrite Heq. change ([line] ++ ex0 ++ ?x) with ((line :: ex0) ++ x).
        apply clean'_app. split; [done |]. cbn [clean'].
        rewrite Hbad, bool_decide_eq_false_2 by done. done. }
      destruct (sendReq_out out resp) as [v | e]; [done |].
      apply clean'_ends, clean'_app. split; [done | by cbn].
  - cbn [fst snd]. rewrite app_nil_r. split; [by constructor |].
    apply clean'_ends.
    change ((line :: EvRoundTrip t w got :: evs) ++ ?x)
      with ([line] ++ (EvRoundTrip t w got :: evs) ++ x).
    apply clean'_app. split; [by cbn |].
    apply clean'_app. split; [by apply passing_clean | by cbn].
Qed.

(** ** What the loops leave in the trace *)

Ltac exits' :=
  lazymatch goal with
  | |- context [@mbind _ _ _ ?A (fun _ => os_Exit ?c) (Fprintln_Stderr ?m) ?s] =>
      rewrite (@Fprintln_exit A m c s); cbn [trace heap]
  end.

Lemma aborts'_app {B} P pre a b (o : outcome B) :
  clean' P pre a -> aborts' P (pre ++ a) b o -> aborts' P pre (a ++ b) o.
Proof.
  intros Ha [Hb1 Hb2]. split; [by apply ends'_clean |].
  destruct o; [by apply clean'_app | done | done].
Qed.

Lemma main_files'_aborts O P client req p files : ∀ m s b u h,
  template_at s req b u h ->
  ∃ evs hp o,
    main_files' O P client req p files m s = (o, mkState (trace s ++ evs) (heap s ++ hp)) ∧
    aborts' P (trace s) evs o ∧ quiet evs.
Proof.
  induction files as [| f rest IH]; intros m s b u h Ht; cbn [main_files'].
  - exists [], [], (Ret m). rewrite !app_nil_r. destruct s.
    split; [done |]. split; [by split | constructor].
  - destruct (exported f) eqn:Hex.
    + erewrite bind_Ret by (by eapply (sendReq'_sends O P client req "GET" _ None)).
      cbn [sendReq_body].
      pose proof (exchange_call O P (next (Transport client)) _ OutBytes (trace s)
                    (sent (Body b) u h "GET" (files_uri p f))) as Hcall.
      cbn zeta in Hcall.
      set (ex := exchange O P _ _ _) in *. destruct Hcall as [Hq Hcall].
      destruct (answer OutBytes ex.2).2 as [content | errSR] eqn:Hans.
      * edestruct (IH (<[file_Name f := content]> m)) as (evs & hp & o & Heq & Hrun & Hq').
        { eapply template_at_grow, Ht. }
        rewrite Heq. cbn [trace heap]. eexists _, _, o. rewrite <- !app_assoc.
        split; [done |]. split.
        -- rewrite app_assoc. by apply aborts'_app.
        -- rewrite app_assoc. by apply Forall_app.
      * exits'. eexists _, _, _. rewrite <- !app_assoc. split; [done |]. split.
        -- rewrite (app_assoc ex.1). by split.
        -- rewrite (app_assoc ex.1). apply Forall_app. split; [done | by repeat constructor].
    + edestruct (IH m) as (evs & hp & o & Heq & Hrun); [done |].
      rewrite Heq. by eexists _, _, _.
Qed.

Lemma bundle_run_aborts' P p m evs o pre :
  bundle_run p m evs o -> aborts' P pre evs o.
Proof.
  intros Hrun.
  assert (clean' P pre evs) as Hclean.
  { apply passing_clean, no_round_trip_passing. destruct Hrun; by repeat constructor. }
  split; [by apply clean'_ends |].
  destruct o as [[] | code |]; [done | by eapply bundle_run_exit | by inversion Hrun].
Qed.

Lemma main_package'_aborts O P client req p s b u h :
  template_at s req b u h ->
  ∃ evs hp o,
    main_package' O P client req p s = (o, mkState (trace s ++ evs) (heap s ++ hp)) ∧
    aborts' P (trace s) evs o ∧ (clean' P (trace s) evs ∨ quiet evs).
Proof.
  intros Ht. unfold main_package'. destruct (wanted p) eqn:Hw.
  - erewrite bind_Ret by (by eapply (sendReq'_sends O P client req "GET" _ None)).
    cbn [sendReq_body].
    pose proof (exchange_call O P (next (Transport client)) _ (OutJSON (DecodeFiles O))
                  (trace s) (sent (Body b) u h "GET" (stages_uri p))) as Hcall.
    cbn zeta in Hcall.
    set (ex := exchange O P _ _ _) in *. destruct Hcall as [Hq Hcall].
    destruct (answer (OutJSON (DecodeFiles O)) ex.2).2 as [files | errSR] eqn:Hans.
    + edestruct (main_files'_aborts O P client req p files ∅)
        as (evs & hp & o & Heq & Hrun & Hq').
      { eapply template_at_grow, Ht. }
      cbn [trace heap] in Heq, Hrun.
      destruct o as [m | code |].
      * erewrite bind_Ret by exact Heq.
        edestruct (main_bundle_run O p m) as (evs' & o & Heq' & Hrun').
        rewrite Heq'. cbn [trace heap]. eexists _, _, _. rewrite <- !app_assoc.
        split; [done |].
        pose proof (bundle_run_aborts' P p m evs' o
                      ((trace s ++ ex.1 ++ (answer (OutJSON (DecodeFiles O)) ex.2).1) ++ evs)
                      Hrun') as Hb.
        destruct Hrun as [_ Hclean].
        assert (aborts' P (trace s)
                  (ex.1 ++ (answer (OutJSON (DecodeFiles O)) ex.2).1 ++ evs ++ evs') o) as Hab.
        { rewrite (app_assoc ex.1). apply aborts'_app; [done |].
          apply aborts'_app; [done |]. done. }
        split; [done |]. left.
        rewrite (app_assoc ex.1). apply clean'_app. split; [done |].
        apply clean'_app. split; [done |].
        apply passing_clean, no_round_trip_passing. destruct Hrun'; by repeat constructor.
      * erewrite bind_Exit by exact Heq.
        cbn [trace heap]. eexists _, _, _. rewrite <- !app_assoc. split; [done |]. split.
        -- rewrite (app_assoc ex.1). apply aborts'_app; [done |]. by destruct Hrun.
        -- right. rewrite (app_assoc ex.1). by apply Forall_app.
      * by destruct Hrun as [_ []].
    + exits'. eexists _, _, _. rewrite <- !app_assoc. split; [done |]. split.
      * rewrite (app_assoc ex.1). by split.
      * right. rewrite (app_assoc ex.1). apply Forall_app. split; [done | by repeat constructor].
  - exists [], [], (Ret tt). rewrite !app_nil_r. destruct s. split; [done |].
    split; [by split | by left].
Qed.

Lemma main_packages'_aborts O P client req packages : ∀ s b u h,
  template_at s req b u h ->
  ∃ evs hp o,
    main_packages' O P client req packages s
      = (o, mkState (trace s ++ evs) (heap s ++ hp)) ∧
    aborts' P (trace s) evs o.
Proof.
  induction packages as [| p rest IH]; intros s b u h Ht; cbn [main_packages'].
  - exists [], [], (Ret tt). rewrite !app_nil_r. destruct s. by repeat split.
  - edestruct (main_package'_aborts O P client req p) as (evs & hp & o & Heq & Hrun & _);
      [exact Ht |].
    destruct o as [[] | code |].
    + erewrite bind_Ret by exact Heq.
      edestruct IH as (evs' & hp' & o & Heq' & Hrun').
      { eapply template_at_grow, Ht. }
      cbn [trace heap] in Heq', Hrun'.
      rewrite Heq'. eexists _, _, _. rewrite <- !app_assoc. split; [done |].
      apply aborts'_app; [by destruct Hrun | done].
    + erewrite bind_Exit by exact Heq. by eexists _, _, _.
    + by destruct Hrun as [_ []].
Qed.

Lemma main'_aborts O P fl :
  ∃ evs hp o,
    main' O P fl (mkState [] []) = (o, mkState evs hp) ∧
    bad_status_ends' P [] evs ∧
    match o with
    | Ret _ => clean' P [] evs
    | Exit code => code = 1%Z ∨ passing P [] evs
    | Panic => False
    end.
Proof.
  unfold main'.
  destruct (decide (host fl = "")) as [H1 | H1].
  { rewrite required_missing by done. eexists _, _, _. split; [done |]. cbn. tauto. }
  erewrite bind_Ret by (by apply required_ok).
  destruct (decide (port fl = "")) as [H2 | H2].
  { rewrite required_missing by done. eexists _, _, _. split; [done |]. cbn. tauto. }
  erewrite bind_Ret by (by apply required_ok).
  destruct (decide (ca fl = "")) as [H3 | H3].
  { rewrite required_missing by done. eexists _, _, _. split; [done |]. cbn. tauto. }
  erewrite bind_Ret by (by apply required_ok).
  destruct (decide (cn fl = "")) as [H4 | H4].
  { rewrite required_missing by done. eexists _, _, _. split; [done |]. cbn. tauto. }
  erewrite bind_Ret by (by apply required_ok).
  destruct (decide (user fl = "")) as [H5 | H5].
  { rewrite required_missing by done. eexists _, _, _. split; [done |]. cbn. tauto. }
  erewrite bind_Ret by (by apply required_ok).
  cbv zeta.
  destruct (decide (os_Getenv O "I2_PASS" = "")) as [H6 | H6].
  { rewrite required_missing by done. eexists _, _, _. split; [done |]. cbn. tauto. }
  erewrite bind_Ret by (by apply required_ok).
  erewrite bind_Ret by reflexivity.
  destruct (ReadFile O (ca fl)) as [pem | errRF].
  2:{ exits. eexists _, _, _. split; [done |]. cbn. tauto. }
  destruct (AppendCertsFromPEM O pem); unfold negb; cbv beta iota.
  2:{ exits. eexists _, _, _. split; [done |]. cbn. tauto. }
  erewrite bind_Ret by reflexivity.
  erewrite bind_Ret by reflexivity.
  erewrite bind_Ret by reflexivity.
  cbn [trace heap app Datatypes.length].
  erewrite bind_Ret by (by eapply SetBasicAuth_ok).
  lazymatch goal with |- ∃ _ _ _, _ ?s0 = _ ∧ _ => set (s := s0) end.
  assert (template_at s 2 (mkRequest "" 0 1 None)
            (mkURL "https" (host fl +:+ ":" +:+ port fl) "")
            (<["Authorization" := ["Basic " +:+ basicAuth O (user fl) (os_Getenv O "I2_PASS")]]> ∅))
    as Ht by (by repeat split).
  erewrite bind_Ret by (by eapply (sendReq'_sends O P _ 2 "GET" _ None)).
  cbn [sendReq_body].
  pose proof (exchange_call O P
                (next (Transport (mkClient (mkLogger (mkTransport (mkConfig [pem] (cn fl)))))))
                _ (OutJSON (DecodePackages O)) (trace s)
                (sent None (mkURL "https" (host fl +:+ ":" +:+ port fl) "")
                   (<["Authorization" :=
                        ["Basic " +:+ basicAuth O (user fl) (os_Getenv O "I2_PASS")]]> ∅)
                   "GET" "/v1/config/packages")) as Hcall.
  cbn zeta in Hcall. cbn [Body] in *.
  set (ex := exchange O P _ _ _) in *. destruct Hcall as [Hq Hcall].
  assert (clean' P [] (trace s)) as Hs by (by cbn).
  destruct (answer (OutJSON (DecodePackages O)) ex.2).2 as [packages | errSR] eqn:Hans.
  - lazymatch goal with
    | |- ∃ _ _ _, main_packages' _ _ ?c _ _ (mkState ?tr1 (_ ++ ?hp1)) = _ ∧ _ =>
        destruct (main_packages'_aborts O P c 2 packages (mkState tr1 (heap s ++ hp1)) _ _ _
                    (template_at_grow _ _ _ _ _ tr1 hp1 Ht))
          as (evs & hp & o & Heq & Hrun)
    end.
    rewrite Heq. cbn [trace heap] in Hrun |- *. eexists _, _, _. split; [reflexivity |].
    assert (aborts' P [] (trace s ++ (ex.1 ++ (answer (OutJSON (DecodePackages O)) ex.2).1)
                            ++ evs) o) as [Ha Hb].
    { apply aborts'_app; [done |]. apply aborts'_app; [done |]. exact Hrun. }
    rewrite <- !app_assoc in Ha, Hb. rewrite <- !app_assoc.
    split; [done |]. destruct o; [done | by left | done].
  - exits'. eexists _, _, _. split; [done |]. split; [| by left].
    rewrite <- !app_assoc.
    apply ends'_clean; [done |]. by rewrite <- app_assoc in Hcall.
Qed.

Lemma ends'_at P tr : ∀ pre i t w resp,
  bad_status_ends' P pre tr ->
  tr !! i = Some (EvRoundTrip t w (Ok resp)) ->
  redirectBehavior P (pre ++ take (S i) tr) w resp = NoRedirect ->
  StatusCode resp ≠ 200%Z ->
  drop (S i) tr = [EvStderr (bytes (RespBody resp));
                   EvStderr ("HTTP " +:+ decimal (StatusCode resp) +:+ nl)] ∧
  ¬ clean' P pre tr.
Proof.
  induction tr as [| e tr IH]; intros pre i t w resp Hends Hi Hd Hs; [done |].
  destruct i as [| i]; cbn [lookup list_lookup] in Hi.
  - simplify_eq.
    change (take 1 (EvRoundTrip t w (Ok resp) :: tr)) with [EvRoundTrip t w (Ok resp)] in Hd.
    assert (returned_bad P pre (EvRoundTrip t w (Ok resp)) = true) as Hbad.
    { unfold returned_bad. cbn [returned]. rewrite Hd. by apply bool_decide_eq_true_2. }
    cbn [bad_status_ends'] in Hends. rewrite Hbad in Hends. split; [done |].
    cbn [clean']. intros [Hc _]. congruence.
  - cbn [bad_status_ends'] in Hends. destruct (returned_bad P pre e) eqn:Hbad.
    + destruct e as [| | | t' w' [resp' | msg] | | |]; try done.
      subst tr. by destruct i as [| [| i]].
    + change (take (S (S i)) (e :: tr)) with (e :: take (S i) tr) in Hd.
      replace (pre ++ e :: take (S i) tr)
        with ((pre ++ [e]) ++ take (S i) tr) in Hd by (by rewrite <- app_assoc).
      destruct (IH _ _ _ _ _ Hends Hi Hd Hs) as [H1 H2]. split; [done |].
      cbn [clean']. intros [_ Hc]. by apply H2.
Qed.

Lemma clean'_at P tr pre i t w resp :
  clean' P pre tr ->
  tr !! i = Some (EvRoundTrip t w (Ok resp)) ->
  redirectBehavior P (pre ++ take (S i) tr) w resp = NoRedirect ->
  StatusCode resp = 200%Z.
Proof.
  intros Hclean Hi Hd. destruct (decide (StatusCode resp = 200%Z)) as [| Hs]; [done |].
  by destruct (ends'_at P tr pre i t w resp (clean'_ends _ _ _ Hclean) Hi Hd Hs).
Qed.

Lemma step_inv {A} (a b : A) (s s' : state) : (Ret a, s) = (Ret b, s') -> a = b ∧ s = s'.
Proof. by intros [= -> ->]. Qed.

Lemma run'_main' O P fl :
  ∃ evs hp o,
    main' O P fl (mkState [] []) = (o, mkState evs hp) ∧
    run' O P fl = (exit_status o, evs).
Proof.
  destruct (main'_aborts O P fl) as (evs & hp & o & Heq & _).
  exists evs, hp, o. split; [done |]. unfold run'. by rewrite Heq.
Qed.

(** ** Filters *)



(** ** A client that never follows *)

Lemma bind_ext {A B} (m : M A) (k k' : A -> M B) s :
  (∀ a s', k a s' = k' a s') -> (m ≫= k) s = (m ≫= k') s.
Proof. intros H. unfold mbind, M_bind. destruct (m s) as [[a | code |] s']; auto. Qed.

Lemma bind_cong {A B} (m m' : M A) (k k' : A -> M B) s :
  m s = m' s -> (∀ a s', k a s' = k' a s') -> (m ≫= k) s = (m' ≫= k') s.
Proof.
  intros Hm H. unfold mbind, M_bind. rewrite Hm. destruct (m' s) as [[a | code |] s']; auto.
Qed.

Lemma follow_never O hl left first w got s :
  follow O never hl left first w got s = (Ret got, s).
Proof. by destruct left, got. Qed.

Lemma load_Request_cases p s :
  (∃ rq, load_Request p s = (Ret rq, s)) ∨ load_Request p s = (Panic, s).
Proof.
  unfold load_Request, load, mbind, M_bind.
  destruct (heap s !! p) as [[u | h | rq] |]; eauto.
Qed.

Lemma load_URL_cases p s :
  (∃ u, load_URL p s = (Ret u, s)) ∨ load_URL p s = (Panic, s).
Proof.
  unfold load_URL, load, mbind, M_bind.
  destruct (heap s !! p) as [[u | h | rq] |]; eauto.
Qed.

Lemma load_Header_cases p s :
  (∃ h, load_Header p s = (Ret h, s)) ∨ load_Header p s = (Panic, s).
Proof.
  unfold load_Header, load, mbind, M_bind.
  destruct (heap s !! p) as [[u | h | rq] |]; eauto.
Qed.

Lemma client_Do'_never O client request s :
  client_Do' O never client request s = client_Do O client request s.
Proof.
  unfold client_Do', client_Do, httpLogger_RoundTrip.
  destruct (load_Request_cases request s) as [[rq Hrq] | Hrq].
  2:{ by rewrite !(bind_Panic _ _ _ _ Hrq). }
  rewrite !(bind_Ret _ _ _ _ _ Hrq).
  destruct (load_URL_cases (URL rq) s) as [[u Hu] | Hu].
  2:{ by rewrite !(bind_Panic _ _ _ _ Hu). }
  rewrite !(bind_Ret _ _ _ _ _ Hu).
  destruct (load_Header_cases (Header rq) s) as [[h Hh] | Hh].
  2:{ by rewrite !(bind_Panic _ _ _ _ Hh). }
  rewrite !(bind_Ret _ _ _ _ _ Hh).
  erewrite bind_Ret.
  2:{ erewrite bind_Ret by exact Hrq. erewrite bind_Ret by exact Hu.
      erewrite bind_Ret by exact Hh. reflexivity. }
  apply follow_never.
Qed.

Lemma sendReq'_never O client base method uri input A (out : sink A) s :
  sendReq' O never client base method uri input out s
  = sendReq O client base method uri input out s.
Proof.
  unfold sendReq', sendReq.
  do 8 (apply bind_ext; intros ? ?).
  destruct a6 as [[] | e]; [| done].
  apply bind_cong; [apply client_Do'_never | done].
Qed.

Lemma main_files'_never O client req p files : ∀ m s,
  main_files' O never client req p files m s = main_files O client req p files m s.
Proof.
  induction files as [| f rest IH]; intros m s; [done |]. cbn [main_files' main_files].
  destruct (exported f); [| apply IH].
  apply bind_cong; [apply sendReq'_never |]. intros [content | e] s'; [apply IH | done].
Qed.

Lemma main_package'_never O client req p s :
  main_package' O never client req p s = main_package O client req p s.
Proof.
  unfold main_package', main_package. destruct (wanted p); [| done].
  apply bind_cong; [apply sendReq'_never |]. intros [files | e] s'; [| done].
  apply bind_cong; [apply main_files'_never | done].
Qed.

Lemma main_packages'_never O client req packages : ∀ s,
  main_packages' O never client req packages s = main_packages O client req packages s.
Proof.
  induction packages as [| p rest IH]; intros s; [done |].
  cbn [main_packages' main_packages].
  apply bind_cong; [apply main_package'_never | intros [] s'; apply IH].
Qed.

(** With a client that follows no response and hands every error on as it
    is, the program is the one of the first part. *)
Lemma run'_never O fl : run' O never fl = run O fl.
Proof.
  unfold run', run.
  enough (main' O never fl (mkState [] []) = main O fl (mkState [] [])) as -> by done.
  unfold main', main.
  do 6 (apply bind_ext; intros ? ?).
  apply bind_ext. intros [pem | e] s1; [| done].
  destruct (negb (AppendCertsFromPEM O pem)); [done |].
  do 4 (apply bind_ext; intros ? ?).
  apply bind_cong; [apply sendReq'_never |].
  intros [packages | e] s2; [apply main_packages'_never | done].
Qed.

(** * The claims *)

(** C8: when one of the five flags is empty, or [I2_PASS] is not set or is
    empty, the process prints one line on standard error and exits with
    status 2.  That line is the whole trace: no file is read and no request
    is sent. *)
Theorem missing_configuration_exits_2 O fl :
  host fl = "" ∨ port fl = "" ∨ ca fl = "" ∨ cn fl = "" ∨ user fl = "" ∨
  LookupEnv O "I2_PASS" = None ∨ LookupEnv O "I2_PASS" = Some "" ->
  ∃ msg, msg ∈ missing_messages ∧ run O fl = (2%Z, [EvStderr (msg +:+ nl)]).
Proof.
  intros Hmissing. unfold run, main, missing_messages.
  destruct (decide (host fl = "")) as [H1 | H1].
  { rewrite required_missing by done. eexists. split; [| done]. listed. }
  erewrite bind_Ret by (by apply required_ok).
  destruct (decide (port fl = "")) as [H2 | H2].
  { rewrite required_missing by done. eexists. split; [| done]. listed. }
  erewrite bind_Ret by (by apply required_ok).
  destruct (decide (ca fl = "")) as [H3 | H3].
  { rewrite required_missing by done. eexists. split; [| done]. listed. }
  erewrite bind_Ret by (by apply required_ok).
  destruct (decide (cn fl = "")) as [H4 | H4].
  { rewrite required_missing by done. eexists. split; [| done]. listed. }
  erewrite bind_Ret by (by apply required_ok).
  destruct (decide (user fl = "")) as [H5 | H5].
  { rewrite required_missing by done. eexists. split; [| done]. listed. }
  erewrite bind_Ret by (by apply required_ok).
  cbv zeta. rewrite required_missing.
  { eexists. split; [| done]. listed. }
  unfold os_Getenv.
  destruct Hmissing as [? | [? | [? | [? | [? | [-> | ->]]]]]]; done.
Qed.

Lemma missing_configuration_witness :
  (host flag_defaults = "" ∨ port flag_defaults = "" ∨ ca flag_defaults = "" ∨
   cn flag_defaults = "" ∨ user flag_defaults = "" ∨
   LookupEnv demo_outside "I2_PASS" = None ∨ LookupEnv demo_outside "I2_PASS" = Some "") ∧
  ∃ msg, msg ∈ missing_messages ∧ run demo_outside flag_defaults = (2%Z, [EvStderr (msg +:+ nl)]).
Proof.
  split; [left; reflexivity |].
  apply (missing_configuration_exits_2 demo_outside flag_defaults). left. reflexivity.
Defined.

(** C9: [sendReq] leaves the base request as it found it.  The method and
    the path are set on two cells that the call allocates, a copy of the
    request and a copy of its URL; every cell the heap had before the call,
    and so the method, URL, header and body of the base request, is the same
    after it. *)
Theorem sendReq_leaves_base_unchanged O client base method uri input A (out : sink A) s b u h :
  template_at s base b u h ->
  template_at (sendReq O client base method uri input out s).2 base b u h ∧
  (∀ p o, heap s !! p = Some o ->
          heap (sendReq O client base method uri input out s).2 !! p = Some o) ∧
  heap (sendReq O client base method uri input out s).2 =
    heap s ++ [ObjRequest (mkRequest method (S (List.length (heap s))) (Header b)
                             (sendReq_body input b));
               ObjURL (mkURL (Scheme u) (Host u) uri)].
Proof.
  intros Ht. pose proof (sendReq_heap O client base method uri input A out s b u h Ht) as Hh.
  split; [| split].
  - destruct Ht as (H1 & H2 & H3). unfold template_at. rewrite Hh.
    repeat split; by apply lookup_app_l_Some.
  - intros p o Hp. rewrite Hh. by apply lookup_app_l_Some.
  - exact Hh.
Qed.

Lemma sendReq_leaves_base_witness :
  template_at demo_state 2 demo_request demo_url demo_header ∧
  template_at (sendReq demo_outside demo_client 2 "GET" "/v1/config/packages" None
                 (OutJSON (DecodePackages demo_outside)) demo_state).2
    2 demo_request demo_url demo_header.
Proof.
  assert (template_at demo_state 2 demo_request demo_url demo_header) as Ht
    by (repeat split; reflexivity).
  split; [exact Ht |].
  exact (proj1 (sendReq_leaves_base_unchanged demo_outside demo_client 2 "GET"
                  "/v1/config/packages" None _ (OutJSON (DecodePackages demo_outside))
                  demo_state demo_request demo_url demo_header Ht)).
Defined.

(** C3: a response whose status is not 200 ends the run, where the response
    is the one that [client.Do] returns to [sendReq]: the client follows
    redirects, and the response to a request that it follows never reaches
    the program.  [sendReq] copies the body of the response to standard error
    and returns [badHttpStatus] with the status; [main] prints that error and
    exits with status 1, so these two pieces of standard error are all that
    follows the response in the trace of the run: no file is created or
    written after it.  And in the iteration of the package whose request got
    the bad status no file operation happens at all. *)
Theorem bad_status_aborts O P :
  (∀ client base method uri input A (out : sink A) s b u h resp s',
     template_at s base b u h ->
     (∀ errEc, input ≠ Some (Err errEc)) ->
     client_Do' O P client (List.length (heap s))
       (mkState (trace s)
          (heap s ++ copies b (sendReq_body input b) u method uri (List.length (heap s))))
       = (Ret (Ok resp), s') ->
     StatusCode resp ≠ 200%Z ->
     sendReq' O P client base method uri input out s
       = (Ret (Err (badHttpStatus (StatusCode resp))),
          mkState (trace s' ++ [EvStderr (bytes (RespBody resp))]) (heap s'))) ∧
  (∀ fl i t w resp,
     (run' O P fl).2 !! i = Some (EvRoundTrip t w (Ok resp)) ->
     redirectBehavior P (take (S i) (run' O P fl).2) w resp = NoRedirect ->
     StatusCode resp ≠ 200%Z ->
     (run' O P fl).1 = 1%Z ∧
     drop (S i) (run' O P fl).2
       = [EvStderr (bytes (RespBody resp));
          EvStderr ("HTTP " +:+ decimal (StatusCode resp) +:+ nl)]) ∧
  (∀ client req p s b u h,
     template_at s req b u h ->
     ∃ evs, trace (main_package' O P client req p s).2 = trace s ++ evs ∧
            ((∃ i t w resp,
                evs !! i = Some (EvRoundTrip t w (Ok resp)) ∧
                redirectBehavior P (trace s ++ take (S i) evs) w resp = NoRedirect ∧
                StatusCode resp ≠ 200%Z) ->
             Forall (fun e => is_file_event e = false) evs)).
Proof.
  split; [| split].
  - intros client base method uri input A out s b u h resp s' Ht Hin Hdo Hs.
    rewrite (sendReq'_sends O P client base method uri input A out s b u h Ht Hin).
    destruct Ht as (Hb & Hu & Hh).
    erewrite client_Do'_step in Hdo.
    2:{ apply lookup_new. }
    2:{ apply lookup_new1. }
    2:{ cbn [Header]. by apply lookup_app_l_Some. }
    cbn [Method URL Header Body] in Hdo.
    change (mkWire method (mkURL (Scheme u) (Host u) uri) h
              (closableReader_Read <$> sendReq_body input b))
      with (sent (sendReq_body input b) u h method uri) in Hdo.
    apply step_inv in Hdo as [Hgot <-]. rewrite Hgot. unfold answer.
    destruct (decide (StatusCode resp ≠ 200%Z)); [| done].
    cbn [fst snd trace heap]. by rewrite app_assoc.
  - intros fl i t w resp Hi Hd Hs.
    destruct (main'_aborts O P fl) as (evs & hp & o & Heq & Hends & Hout).
    unfold run' in *. rewrite Heq in *. cbn [fst snd trace] in *.
    destruct (ends'_at P evs [] i t w resp Hends Hi Hd Hs) as [Hdrop Hnot].
    split; [| done].
    destruct o as [[] | code |]; [done | | done].
    destruct Hout as [-> | Hpass]; [done |]. by apply passing_clean in Hpass.
  - intros client req p s b u h Ht.
    destruct (main_package'_aborts O P client req p s b u h Ht)
      as (evs & hp & o & Heq & Hab & [Hclean | Hquiet]).
    + exists evs. rewrite Heq. split; [done |].
      intros (i & t & w & resp & Hi & Hd & Hs).
      by destruct (Hs (clean'_at P evs (trace s) i t w resp Hclean Hi Hd)).
    + exists evs. rewrite Heq. by split.
Qed.

Lemma bad_status_witness :
  (run' (demo_moved demo_refused) demo_policy demo_flags).2 !! 17%nat
    = Some (EvRoundTrip demo_transport
              (mkWire "GET" (mkURL "https" "icinga:5665" "/v1/config/stages/conf/s3")
                 demo_header None)
              (Ok demo_refused)) ∧
  redirectBehavior demo_policy
    (take 18 (run' (demo_moved demo_refused) demo_policy demo_flags).2)
    (mkWire "GET" (mkURL "https" "icinga:5665" "/v1/config/stages/conf/s3") demo_header None)
    demo_refused = NoRedirect ∧
  StatusCode demo_refused ≠ 200%Z ∧
  (run' (demo_moved demo_refused) demo_policy demo_flags).1 = 1%Z ∧
  drop 18 (run' (demo_moved demo_refused) demo_policy demo_flags).2
    = [EvStderr "No such package"; EvStderr ("HTTP 404" +:+ nl)].
Proof.
  assert ((run' (demo_moved demo_refused) demo_policy demo_flags).2 !! 17%nat
            = Some (EvRoundTrip demo_transport
                      (mkWire "GET" (mkURL "https" "icinga:5665" "/v1/config/stages/conf/s3")
                         demo_header None)
                      (Ok demo_refused))) as Hi by (vm_compute; reflexivity).
  assert (redirectBehavior demo_policy
            (take 18 (run' (demo_moved demo_refused) demo_policy demo_flags).2)
            (mkWire "GET" (mkURL "https" "icinga:5665" "/v1/config/stages/conf/s3")
               demo_header None)
            demo_refused = NoRedirect) as Hd by reflexivity.
  assert (StatusCode demo_refused ≠ 200%Z) as Hs by (vm_compute; discriminate).
  split; [exact Hi | split; [exact Hd | split; [exact Hs |]]].
  exact (proj1 (proj2 (bad_status_aborts (demo_moved demo_refused) demo_policy))
           demo_flags 17%nat _ _ _ Hi Hd Hs).
Defined.

(** The response with status 302 in this run does not end it: the client
    follows it, the listing is fetched from where it has moved, and the run
    ends with status 0. *)
Example followed_redirect_goes_on :
  (run' (demo_moved (mkResponse 200 (mkReader "stage 2" None))) demo_policy demo_flags).1
    = 0%Z ∧
  (run' (demo_moved (mkResponse 200 (mkReader "stage 2" None))) demo_policy demo_flags).2
    !! 15%nat
    = Some (EvRoundTrip demo_transport
              (sent None demo_url demo_header "GET" "/v1/config/stages/conf/s2")
              (Ok (mkResponse 302 (mkReader "/v1/config/stages/conf/s3" None)))) ∧
  List.length
    (run' (demo_moved (mkResponse 200 (mkReader "stage 2" None))) demo_policy demo_flags).2
    = 18%nat.
Proof. vm_compute. by repeat split. Qed.






(** C1: when the loop over a stage's listing ends without an error, the
    names of the map it built are exactly the names of the entries whose
    type is "file" and whose name holds a "/": every such entry has its name
    in the map, every name of the map is the name of such an entry, and the
    files requested are those of these entries and no others. *)
Theorem exported_entries O client req p files s b u h m :
  template_at s req b u h ->
  (main_files O client req p files ∅ s).1 = Ret m ->
  (∀ f, f ∈ files -> file_Type f = "file" -> (∃ x y, file_Name f = x +:+ "/" +:+ y) ->
        file_Name f ∈ dom m) ∧
  (∀ name, name ∈ dom m ->
        ∃ f, f ∈ files ∧ file_Name f = name ∧ file_Type f = "file" ∧
             ∃ x y, file_Name f = x +:+ "/" +:+ y) ∧
  (∃ evs, trace (main_files O client req p files ∅ s).2 = trace s ++ evs ∧
          requested evs = files_uri p <$> List.filter exported files) ∧
  (∀ f, f ∈ List.filter exported files ↔
        f ∈ files ∧ file_Type f = "file" ∧ ∃ x y, file_Name f = x +:+ "/" +:+ y).
Proof.
  intros Ht Hm.
  destruct (main_files_run O client req p files ∅ s b u h Ht) as (evs & hp & o & Heq & Hrun).
  rewrite Heq in Hm |- *. simpl in Hm. subst o.
  destruct (files_run_Ret _ _ _ _ _ Hrun) as (Hreq & Hlen & ->).
  assert (∀ f, f ∈ List.filter exported files ↔
               f ∈ files ∧ file_Type f = "file" ∧ ∃ x y, file_Name f = x +:+ "/" +:+ y) as Hex.
  { intros f. by rewrite filter_exported, exported_spec, strings_Contains_spec. }
  assert (∀ name, name ∈ dom (collect ∅ (zip (List.filter exported files) (received evs))) ↔
                  ∃ f, f ∈ List.filter exported files ∧ file_Name f = name) as Hdom.
  { intros name. rewrite collect_dom, fst_zip by lia.
    rewrite dom_empty_L, (left_id_L ∅ (∪)), elem_of_list_to_set, list_elem_of_fmap.
    split; intros (f & ? & ?); by exists f. }
  split; [| split; [| split]].
  - intros f Hf Hty Hsep. apply Hdom. exists f. split; [| done]. by apply Hex.
  - intros name (f & Hf & Hname)%Hdom. apply Hex in Hf as (Hf & Hty & Hsep). by exists f.
  - by exists evs.
  - exact Hex.
Qed.

Lemma exported_entries_witness :
  template_at demo_state 2 demo_request demo_url demo_header ∧
  (main_files demo_outside demo_client 2 demo_pkg demo_files ∅ demo_state).1
    = Ret (demo_map "content 1" "content 2") ∧
  (∀ name, name ∈ dom (demo_map "content 1" "content 2") ->
     ∃ f, f ∈ demo_files ∧ file_Name f = name ∧ file_Type f = "file" ∧
          ∃ x y, file_Name f = x +:+ "/" +:+ y).
Proof.
  assert (template_at demo_state 2 demo_request demo_url demo_header) as Ht
    by (repeat split; reflexivity).
  assert ((main_files demo_outside demo_client 2 demo_pkg demo_files ∅ demo_state).1
            = Ret (demo_map "content 1" "content 2")) as Hm by (vm_compute; reflexivity).
  split; [exact Ht | split; [exact Hm |]].
  exact (proj1 (proj2 (exported_entries demo_outside demo_client 2 demo_pkg demo_files
                         demo_state demo_request demo_url demo_header _ Ht Hm))).
Defined.





(** C7: with an empty map [main] does nothing at all for the bundle: no
    file is created, not even an empty one.  With a map that is not empty it
    creates the file.  So an iteration whose stage listing has no entry that
    passes the test has no file operation in its trace, and a map that is
    written is never empty. *)
Theorem no_bundle_without_files O :
  (∀ p s, main_bundle O p ∅ s = (Ret tt, s)) ∧
  (∀ p m s, m ≠ ∅ ->
     ∃ got rest, trace (main_bundle O p m s).2 = trace s ++ EvCreate (bundle_name p) got :: rest) ∧
  (∀ client req p s b u h,
     template_at s req b u h ->
     ∃ evs, trace (main_package O client req p s).2 = trace s ++ evs ∧
       (∀ t w resp files,
          evs !! 1 = Some (EvRoundTrip t w (Ok resp)) ->
          DecodeFiles O (RespBody resp) = Ok files ->
          List.filter exported files = [] ->
          Forall (fun e => is_file_event e = false) evs) ∧
       (∀ name m got, EvWrite name m got ∈ evs -> m ≠ ∅)).
Proof.
  split; [| split].
  - intros p s. unfold main_bundle. rewrite map_size_empty.
    destruct (decide (0 < 0)); [lia | done].
  - intros p m s Hm.
    destruct (main_bundle_run O p m s) as (evs & o & Heq & Hrun). rewrite Heq. simpl.
    destruct Hrun as [Hs | | | | |]; [by apply map_size_empty_iff in Hs | ..]; eauto.
  - intros client req p s b u h Ht.
    destruct (main_package_run O client req p s b u h Ht) as (evs & hp & o & Heq & Hrun).
    exists evs. rewrite Heq. split; [done |]. split.
    + intros t w resp files H1 Hd Hnone.
      destruct Hrun as [Hw | call errSR Hw Hcall | call files' evs code Hw Hcall Hrun
                       | call files' evs m evs' o Hw Hcall Hrun Hb].
      * done.
      * apply Forall_app. split; [by eapply call_run_quiet | by repeat constructor].
      * apply Forall_app. split; [by eapply call_run_quiet | by eapply files_run_quiet].
      * pose proof (call_run_second _ _ _ _ _ _ _ _ Hcall H1) as Hout.
        pose proof (decoded_listing _ _ _ _ Hout Hd) as ->.
        pose proof (collect_nil_listing _ _ _ _ Hrun Hnone) as ->.
        apply bundle_run_empty in Hb as ->. rewrite app_nil_r.
        apply Forall_app. split; [by eapply call_run_quiet | by eapply files_run_quiet].
    + intros name m got Hin.
      destruct (package_run_bundle _ _ _ _ _ Hrun Hin eq_refl)
        as (call & files & evs1 & m' & evs2 & -> & Hcall & Hfiles & Hb & He).
      destruct (bundle_run_events _ _ _ _ _ Hb He) as (Hs & [[g H] | [[g H] | [[g H] | [g H]]]]);
        simplify_eq.
      intros ->. rewrite map_size_empty in Hs. lia.
Qed.

Lemma no_bundle_witness :
  template_at demo_state 2 demo_request demo_url demo_header ∧
  trace (main_package demo_outside demo_client 2 demo_conf demo_state).2
    = demo_call demo_outside "/v1/config/stages/conf/s2" "stage 2" ∧
  DecodeFiles demo_outside (mkReader "stage 2" None) = Ok demo_files2 ∧
  List.filter exported demo_files2 = [] ∧
  Forall (fun e => is_file_event e = false)
    (trace (main_package demo_outside demo_client 2 demo_conf demo_state).2).
Proof.
  assert (template_at demo_state 2 demo_request demo_url demo_header) as Ht
    by (repeat split; reflexivity).
  assert (trace (main_package demo_outside demo_client 2 demo_conf demo_state).2
            = demo_call demo_outside "/v1/config/stages/conf/s2" "stage 2") as Htr
    by (vm_compute; reflexivity).
  split; [exact Ht | split; [exact Htr | split; [reflexivity | split; [reflexivity |]]]].
  destruct (proj2 (proj2 (no_bundle_without_files demo_outside)) demo_client 2 demo_conf
              demo_state demo_request demo_url demo_header Ht) as (evs & Hevs & Hquiet & _).
  change (trace demo_state ++ evs) with evs in Hevs. rewrite Hevs. rewrite Hevs in Htr.
  apply (Hquiet demo_transport
           (sent None demo_url demo_header "GET" "/v1/config/stages/conf/s2")
           (mkResponse 200 (mkReader "stage 2" None)) demo_files2).
  - rewrite Htr. reflexivity.
  - reflexivity.
  - reflexivity.
Defined.



(** * More of [main] *)

(** ** The four ways a run begins *)

Lemma main_missing O fl msg :
  first_missing O fl = Some msg ->
  main O fl (mkState [] []) = (Exit 2, mkState [EvStderr (msg +:+ nl)] []).
Proof.
  unfold first_missing, main. intros Hmsg.
  destruct (decide (host fl = "")) as [H1 | H1].
  { rewrite required_missing by done. by simplify_eq. }
  erewrite bind_Ret by (by apply required_ok).
  destruct (decide (port fl = "")) as [H2 | H2].
  { rewrite required_missing by done. by simplify_eq. }
  erewrite bind_Ret by (by apply required_ok).
  destruct (decide (ca fl = "")) as [H3 | H3].
  { rewrite required_missing by done. by simplify_eq. }
  erewrite bind_Ret by (by apply required_ok).
  destruct (decide (cn fl = "")) as [H4 | H4].
  { rewrite required_missing by done. by simplify_eq. }
  erewrite bind_Ret by (by apply required_ok).
  destruct (decide (user fl = "")) as [H5 | H5].
  { rewrite required_missing by done. by simplify_eq. }
  erewrite bind_Ret by (by apply required_ok).
  cbv zeta.
  destruct (decide (os_Getenv O "I2_PASS" = "")) as [H6 | H6]; [| done].
  rewrite required_missing by done. by simplify_eq.
Qed.

Lemma main_configured O fl :
  first_missing O fl = None ->
  main O fl (mkState [] []) =
    match ReadFile O (ca fl) with
    | Err errRF =>
        (Exit 1, mkState [EvReadFile (ca fl) (Err errRF); EvStderr (errRF +:+ nl)] [])
    | Ok pem =>
        if AppendCertsFromPEM O pem then main_export O fl pem (ready_state O fl pem)
        else (Exit 1, mkState [EvReadFile (ca fl) (Ok pem); EvStderr ("bad CA cert" +:+ nl)] [])
    end.
Proof.
  unfold first_missing, main. intros Hnone.
  destruct (decide (host fl = "")) as [H1 | H1]; [done |].
  erewrite bind_Ret by (by apply required_ok).
  destruct (decide (port fl = "")) as [H2 | H2]; [done |].
  erewrite bind_Ret by (by apply required_ok).
  destruct (decide (ca fl = "")) as [H3 | H3]; [done |].
  erewrite bind_Ret by (by apply required_ok).
  destruct (decide (cn fl = "")) as [H4 | H4]; [done |].
  erewrite bind_Ret by (by apply required_ok).
  destruct (decide (user fl = "")) as [H5 | H5]; [done |].
  erewrite bind_Ret by (by apply required_ok).
  cbv zeta.
  destruct (decide (os_Getenv O "I2_PASS" = "")) as [H6 | H6]; [done |].
  erewrite bind_Ret by (by apply required_ok).
  erewrite bind_Ret by reflexivity.
  destruct (ReadFile O (ca fl)) as [pem | errRF]; [| reflexivity].
  destruct (AppendCertsFromPEM O pem); unfold negb; cbv beta iota; [| reflexivity].
  erewrite bind_Ret by reflexivity.
  erewrite bind_Ret by reflexivity.
  erewrite bind_Ret by reflexivity.
  erewrite bind_Ret by (by eapply SetBasicAuth_ok).
  reflexivity.
Qed.

Lemma ready_template O fl pem :
  template_at (ready_state O fl pem) 2 main_request (main_url fl) (main_header O fl).
Proof. by repeat split. Qed.

Lemma first_missing_listed O fl msg : first_missing O fl = Some msg -> msg ∈ missing_messages.
Proof.
  unfold first_missing, missing_messages. intros H.
  repeat (destruct (decide _) in H; [simplify_eq; listed |]). done.
Qed.

(** ** Properties that every step of the export keeps *)

(** A property of traces that holds of the trace so far keeps holding when
    [main] goes on, if each thing [main] can do to the outside world keeps
    it: a request, logged and sent as [sendReq] sends it from the base
    request and answered as the outside answers the trace so far; a line on
    standard error; and the creation, the writing and the closing of a
    bundle file, in this order. *)
Section invariant.
Variables (O : Outside) (client : http_Client) (req : ptr).
Variables (b : http_Request) (u : url_URL) (h : gmap string (list string)).
Variable Inv : list event -> Prop.

Hypothesis Inv_call : ∀ tr uri,
  Inv tr ->
  Inv (tr ++ [logged O u "GET" uri;
              EvRoundTrip (next (Transport client)) (sent (Body b) u h "GET" uri)
                (RoundTrip O (tr ++ [logged O u "GET" uri]) (next (Transport client))
                   (sent (Body b) u h "GET" uri))]).
Hypothesis Inv_stderr : ∀ tr msg, Inv tr -> Inv (tr ++ [EvStderr msg]).
Hypothesis Inv_create : ∀ tr name,
  Inv tr -> Inv (tr ++ [EvCreate name (Create O tr name)]).
Hypothesis Inv_write : ∀ tr name m,
  Inv (tr ++ [EvCreate name None]) ->
  Inv ((tr ++ [EvCreate name None])
         ++ [EvWrite name m (WriteJSON O (tr ++ [EvCreate name None]) name m)]).
Hypothesis Inv_close : ∀ tr name m,
  Inv ((tr ++ [EvCreate name None]) ++ [EvWrite name m Written]) ->
  Inv (((tr ++ [EvCreate name None]) ++ [EvWrite name m Written])
         ++ [EvClose name (Close O ((tr ++ [EvCreate name None]) ++ [EvWrite name m Written])
                            name)]).

Lemma sendReq_inv A (out : sink A) uri s :
  template_at s req b u h -> Inv (trace s) ->
  ∃ r tr,
    sendReq O client req "GET" uri None out s
      = (Ret r, mkState tr (heap s ++ copies b (Body b) u "GET" uri (List.length (heap s)))) ∧
    Inv tr.
Proof.
  intros Ht HI. rewrite (sendReq_step O client req "GET" uri A out s b u h Ht).
  eexists _, _. split; [reflexivity |].
  specialize (Inv_call (trace s) uri HI). revert Inv_call.
  generalize (RoundTrip O (trace s ++ [logged O u "GET" uri]) (next (Transport client))
                (sent (Body b) u h "GET" uri)).
  intros got Hcall. unfold answer. destruct got as [resp | errDo]; simpl; [| done].
  destruct (decide (StatusCode resp ≠ 200%Z)); simpl; [| done].
  apply (Inv_stderr _ (bytes (RespBody resp))) in Hcall. by rewrite <- app_assoc in Hcall.
Qed.

Lemma main_files_inv p files : ∀ m s,
  template_at s req b u h -> Inv (trace s) ->
  Inv (trace (main_files O client req p files m s).2) ∧
  ∃ hp, heap (main_files O client req p files m s).2 = heap s ++ hp.
Proof.
  induction files as [| f rest IH]; intros m s Ht HI; simpl.
  - split; [done | exists []; by rewrite app_nil_r].
  - destruct (exported f); [| by apply IH].
    destruct (sendReq_inv _ OutBytes (files_uri p f) s Ht HI) as (r & tr & Heq & HI').
    erewrite bind_Ret by exact Heq. destruct r as [content | errSR].
    + edestruct (IH (<[file_Name f := content]> m)) as [IH1 (hp & IH2)].
      { eapply template_at_grow, Ht. }
      { exact HI'. }
      split; [exact IH1 |]. rewrite IH2. simpl. rewrite <- app_assoc. eauto.
    + rewrite (Fprintln_exit (A:=gmap string string)). simpl.
      split; [by apply Inv_stderr | eauto].
Qed.

Lemma main_bundle_inv p m s :
  Inv (trace s) ->
  Inv (trace (main_bundle O p m s).2) ∧ heap (main_bundle O p m s).2 = heap s.
Proof.
  intros HI. unfold main_bundle. destruct (decide (0 < size m)); [| done].
  erewrite bind_Ret by reflexivity.
  erewrite bind_Ret by reflexivity. simpl.
  pose proof (Inv_create (trace s) (bundle_name p) HI) as Hc.
  destruct (Create O (trace s) (bundle_name p)) as [e |].
  { rewrite (Fprintln_exit (A:=unit)). simpl. split; [by apply Inv_stderr | done]. }
  erewrite bind_Ret by reflexivity.
  erewrite bind_Ret by reflexivity. simpl.
  pose proof (Inv_write (trace s) (bundle_name p) m Hc) as Hw.
  destruct (WriteJSON O _ _ m) as [| e | e].
  - erewrite bind_Ret by reflexivity.
    erewrite bind_Ret by reflexivity. simpl.
    pose proof (Inv_close (trace s) (bundle_name p) m Hw) as Hcl.
    destruct (Close O _ _) as [e |].
    + rewrite (Fprintln_exit (A:=unit)). simpl. split; [by apply Inv_stderr | done].
    + done.
  - rewrite (Fprintln_exit (A:=unit)). simpl. split; [by apply Inv_stderr | done].
  - rewrite (Fprintln_exit (A:=unit)). simpl. split; [by apply Inv_stderr | done].
Qed.

Lemma main_package_inv p s :
  template_at s req b u h -> Inv (trace s) ->
  Inv (trace (main_package O client req p s).2) ∧
  ∃ hp, heap (main_package O client req p s).2 = heap s ++ hp.
Proof.
  intros Ht HI. unfold main_package. destruct (wanted p).
  2:{ split; [done | exists []; by rewrite app_nil_r]. }
  destruct (sendReq_inv _ (OutJSON (DecodeFiles O)) (stages_uri p) s Ht HI)
    as (r & tr & Heq & HI').
  erewrite bind_Ret by exact Heq. destruct r as [files | errSR].
  - edestruct (main_files_inv p files ∅) as [H1 (hp & H2)].
    { eapply template_at_grow, Ht. }
    { exact HI'. }
    destruct (main_files O client req p files ∅ _) as [[m | code |] s1] eqn:Hfiles;
      simpl in H1, H2.
    + erewrite bind_Ret by exact Hfiles.
      destruct (main_bundle_inv p m s1 H1) as [H3 H4].
      split; [exact H3 |]. rewrite H4, H2. simpl. rewrite <- app_assoc. eauto.
    + erewrite bind_Exit by exact Hfiles. simpl.
      split; [exact H1 |]. rewrite H2. simpl. rewrite <- app_assoc. eauto.
    + erewrite bind_Panic by exact Hfiles. simpl.
      split; [exact H1 |]. rewrite H2. simpl. rewrite <- app_assoc. eauto.
  - rewrite (Fprintln_exit (A:=unit)). simpl. split; [by apply Inv_stderr | eauto].
Qed.

Lemma main_packages_inv packages : ∀ s,
  template_at s req b u h -> Inv (trace s) ->
  Inv (trace (main_packages O client req packages s).2) ∧
  ∃ hp, heap (main_packages O client req packages s).2 = heap s ++ hp.
Proof.
  induction packages as [| p rest IH]; intros s Ht HI; simpl.
  - split; [done | exists []; by rewrite app_nil_r].
  - destruct (main_package_inv p s Ht HI) as [H1 (hp & H2)].
    destruct (main_package O client req p s) as [[[] | code |] s1] eqn:Hp; simpl in H1, H2.
    + erewrite bind_Ret by exact Hp.
      destruct (IH s1) as [H3 (hp' & H4)].
      { destruct s1 as [tr1 hp1]. simpl in H2. subst hp1. eapply template_at_grow, Ht. }
      { exact H1. }
      split; [exact H3 |]. rewrite H4, H2. rewrite <- app_assoc. eauto.
    + erewrite bind_Exit by exact Hp. simpl. split; [exact H1 | eauto].
    + erewrite bind_Panic by exact Hp. simpl. split; [exact H1 | eauto].
Qed.
End invariant.

Lemma kept_export O fl pem Inv :
  kept O (main_client fl pem) main_request (main_url fl) (main_header O fl) Inv ->
  Inv [EvReadFile (ca fl) (Ok pem)] ->
  Inv (trace (main_export O fl pem (ready_state O fl pem)).2) ∧
  ∃ hp, heap (main_export O fl pem (ready_state O fl pem)).2
        = heap (ready_state O fl pem) ++ hp.
Proof.
  intros (Kcall & Kerr & Kcreate & Kwrite & Kclose) Hstart. unfold main_export.
  destruct (sendReq_inv O (main_client fl pem) 2 main_request (main_url fl) (main_header O fl)
              Inv Kcall Kerr _ (OutJSON (DecodePackages O)) "/v1/config/packages"
              (ready_state O fl pem) (ready_template O fl pem) Hstart) as (r & tr & Heq & HI).
  erewrite bind_Ret by exact Heq. destruct r as [packages | errSR].
  - edestruct (main_packages_inv O (main_client fl pem) 2 main_request (main_url fl)
                 (main_header O fl) Inv Kcall Kerr Kcreate Kwrite Kclose packages)
      as [H1 (hp & H2)].
    { eapply template_at_grow, ready_template. }
    { exact HI. }
    split; [exact H1 |]. rewrite H2. simpl. eauto.
  - rewrite (Fprintln_exit (A:=unit)). simpl. split; [by apply Kerr | eauto].
Qed.

(** A property that the empty trace has, that reading the CA file and a line
    on standard error keep, and that the export keeps, holds of the trace of
    every run. *)
Lemma kept_run O fl Inv :
  Inv [] ->
  (∀ got, Inv [EvReadFile (ca fl) got]) ->
  (∀ tr msg, Inv tr -> Inv (tr ++ [EvStderr msg])) ->
  (∀ pem, ReadFile O (ca fl) = Ok pem -> AppendCertsFromPEM O pem = true ->
          kept O (main_client fl pem) main_request (main_url fl) (main_header O fl) Inv) ->
  Inv (run O fl).2.
Proof.
  intros Hnil Hread Herr Hkept. unfold run.
  destruct (first_missing O fl) as [msg |] eqn:Hmiss.
  - rewrite (main_missing O fl msg Hmiss). simpl. by apply (Herr []).
  - rewrite (main_configured O fl Hmiss).
    destruct (ReadFile O (ca fl)) as [pem | errRF] eqn:Hpem.
    + destruct (AppendCertsFromPEM O pem) eqn:Hca.
      * destruct (kept_export O fl pem Inv (Hkept pem eq_refl Hca) (Hread _)) as [H _].
        by destruct (main_export O fl pem (ready_state O fl pem)).
      * simpl. by apply (Herr [_]).
    + simpl. by apply (Herr [_]).
Qed.

Lemma lookup_snoc {A} (l : list A) x i y :
  (l ++ [x]) !! i = Some y -> l !! i = Some y ∨ (i = List.length l ∧ y = x).
Proof.
  intros H. destruct (decide (i < List.length l)) as [Hlt | Hge].
  - left. by rewrite lookup_app_l in H.
  - right. rewrite lookup_app_r in H by lia.
    destruct (i - List.length l) as [| k] eqn:Hk; simpl in H; [| done].
    split; [lia | by simplify_eq].
Qed.

(** ** Standard output is the log of the requests *)

Lemma requests_logged_neutral O tr x :
  requests_logged O tr -> is_round_trip x = false -> (∀ l, x ≠ EvStdout l) ->
  requests_logged O (tr ++ [x]).
Proof.
  intros [H1 H2] Hrt Hout. split.
  - intros i t w got [Hi | [_ Heq]]%lookup_snoc; [| by rewrite <- Heq in Hrt].
    destruct (H1 i t w got Hi) as (j & -> & Hj). exists j. split; [done |].
    by apply lookup_app_l_Some.
  - intros j l [Hj | [_ Heq]]%lookup_snoc; [| by destruct (Hout l)].
    destruct (H2 j l Hj) as (t & w & got & Hn & Hl). exists t, w, got. split; [| done].
    by apply lookup_app_l_Some.
Qed.

Lemma requests_logged_call O tr t w got :
  requests_logged O tr ->
  requests_logged O (tr ++ [log_line O w; EvRoundTrip t w got]).
Proof.
  intros [H1 H2]. change (tr ++ [log_line O w; EvRoundTrip t w got])
    with (tr ++ [log_line O w] ++ [EvRoundTrip t w got]). rewrite app_assoc. split.
  - intros i t' w' got' [[Hi | [_ Heq]]%lookup_snoc | [-> Heq]]%lookup_snoc; [| done |].
    + destruct (H1 i t' w' got' Hi) as (j & -> & Hj). exists j. split; [done |].
      by apply lookup_app_l_Some, lookup_app_l_Some.
    + simplify_eq. exists (List.length tr). split.
      * rewrite length_app. simpl. lia.
      * apply lookup_app_l_Some. by rewrite list_lookup_middle.
  - intros j l [[Hj | [-> Heq]]%lookup_snoc | [_ Heq]]%lookup_snoc; [| | done].
    + destruct (H2 j l Hj) as (t' & w' & got' & Hn & Hl). exists t', w', got'.
      split; [| done]. by apply lookup_app_l_Some, lookup_app_l_Some.
    + exists t, w, got. split; [| done].
      replace (S (List.length tr)) with (List.length (tr ++ [log_line O w]))
        by (rewrite length_app; simpl; lia).
      by rewrite list_lookup_middle.
Qed.

Lemma requests_logged_kept O client b u h : kept O client b u h (requests_logged O).
Proof.
  split; [| split; [| split; [| split]]].
  - intros tr uri Hq. by apply (requests_logged_call O tr _ (sent (Body b) u h "GET" uri)).
  - intros tr msg Hq. by apply requests_logged_neutral.
  - intros tr name Hq. by apply requests_logged_neutral.
  - intros tr name m Hq. by apply requests_logged_neutral.
  - intros tr name m Hq. by apply requests_logged_neutral.
Qed.

Lemma lookup_nil_Some {A} i (x : A) : ([] : list A) !! i = Some x -> False.
Proof. by rewrite lookup_nil. Qed.

(** X1: every request of a run goes through [httpLogger.RoundTrip], which
    prints the line [<method> <URL>] on standard output right before it hands
    the request to the transport; and nothing else is ever printed on
    standard output: every line there is followed by the round trip that it
    announces. *)
Theorem stdout_is_the_request_log O fl :
  (∀ i t w got,
     (run O fl).2 !! i = Some (EvRoundTrip t w got) ->
     ∃ j, i = S j ∧
          (run O fl).2 !! j
            = Some (EvStdout (wMethod w +:+ " " +:+ URL_String O (wURL w) +:+ nl))) ∧
  (∀ j l,
     (run O fl).2 !! j = Some (EvStdout l) ->
     ∃ t w got, (run O fl).2 !! S j = Some (EvRoundTrip t w got) ∧
                l = wMethod w +:+ " " +:+ URL_String O (wURL w) +:+ nl).
Proof.
  assert (requests_logged O (run O fl).2) as [H1 H2].
  { apply kept_run.
    - split; intros ? ?; [intros ? ? |]; by intros ?%lookup_nil_Some.
    - intros got. apply (requests_logged_neutral O []); [| done | done].
      split; intros ? ?; [intros ? ? |]; by intros ?%lookup_nil_Some.
    - intros tr msg Hq. by apply requests_logged_neutral.
    - intros pem _ _. apply requests_logged_kept. }
  split; [exact H1 |].
  intros j l Hj. destruct (H2 j l Hj) as (t & w & got & Hn & Hl). exists t, w, got.
  split; [exact Hn | by injection Hl].
Qed.

Lemma stdout_is_the_request_log_witness :
  (run demo_outside demo_flags).2 !! 4%nat
    = Some (EvRoundTrip demo_transport
              (sent None demo_url demo_header "GET" "/v1/config/stages/my%20pkg/st%201")
              (Ok (mkResponse 200 (mkReader "stage 1" None)))) ∧
  ∃ j, 4%nat = S j ∧
       (run demo_outside demo_flags).2 !! j
         = Some (EvStdout ("GET https://icinga:5665/v1/config/stages/my%2520pkg/st%25201" +:+ nl)).
Proof.
  assert ((run demo_outside demo_flags).2 !! 4%nat
            = Some (EvRoundTrip demo_transport
                      (sent None demo_url demo_header "GET" "/v1/config/stages/my%20pkg/st%201")
                      (Ok (mkResponse 200 (mkReader "stage 1" None))))) as Hi
    by (vm_compute; reflexivity).
  split; [exact Hi |].
  exact (proj1 (stdout_is_the_request_log demo_outside demo_flags) _ _ _ _ Hi).
Defined.

(** ** Every request is sent as configured *)

Lemma request_ok_neutral P tr x :
  request_ok P tr -> is_round_trip x = false -> request_ok P (tr ++ [x]).
Proof.
  intros H Hrt i t w got [Hi | [_ Heq]]%lookup_snoc; [by eapply H |].
  by rewrite <- Heq in Hrt.
Qed.

Lemma request_ok_kept O client b u h P :
  (∀ uri, P (next (Transport client)) (sent (Body b) u h "GET" uri)) ->
  kept O client b u h (request_ok P).
Proof.
  intros HP. split; [| split; [| split; [| split]]].
  - intros tr uri H.
    change (tr ++ [logged O u "GET" uri; ?e]) with (tr ++ [logged O u "GET" uri] ++ [e]).
    rewrite app_assoc.
    intros i t w got [Hi | [_ Heq]]%lookup_snoc.
    + revert i t w got Hi. by apply request_ok_neutral.
    + injection Heq as -> -> _. apply HP.
  - intros tr msg H. by apply request_ok_neutral.
  - intros tr name H. by apply request_ok_neutral.
  - intros tr name m H. by apply request_ok_neutral.
  - intros tr name m H. by apply request_ok_neutral.
Qed.

(** X2: in a run without an answer that the client may follow (so that
    every request is one that [sendReq] makes, and none is made by the client
    for a redirect), every request is sent as [main] configures it (lines
    109-119): through a transport whose root certificates are the CA file's
    and whose server name is [-cn], with method GET and no body, to the
    scheme https and the host [<host>:<port>], with one header, the basic
    authorization of [-user] and [$I2_PASS]. *)
Theorem requests_are_as_configured O fl i t w got :
  direct (run O fl).2 ->
  (run O fl).2 !! i = Some (EvRoundTrip t w got) ->
  (∃ pem, ReadFile O (ca fl) = Ok pem ∧ AppendCertsFromPEM O pem = true ∧
          RootCAs (TLSClientConfig t) = [pem]) ∧
  ServerName (TLSClientConfig t) = cn fl ∧
  wMethod w = "GET" ∧ wBody w = None ∧
  Scheme (wURL w) = "https" ∧ Host (wURL w) = host fl +:+ ":" +:+ port fl ∧
  wHeader w
    = {["Authorization" := ["Basic " +:+ basicAuth O (user fl) (os_Getenv O "I2_PASS")]]}.
Proof.
  intros _. revert i t w got. change (request_ok (as_configured O fl) (run O fl).2).
  apply kept_run.
  - intros ? ? ? ?. by intros ?%lookup_nil_Some.
  - intros got' [| i] t w got; [done | by intros ?%lookup_nil_Some].
  - intros tr msg H. by apply request_ok_neutral.
  - intros pem Hpem Hca. apply request_ok_kept. intros uri.
    unfold as_configured. simpl. repeat split; eauto.
Qed.

Lemma requests_are_as_configured_witness :
  direct (run demo_outside demo_flags).2 ∧
  (run demo_outside demo_flags).2 !! 2%nat
    = Some (EvRoundTrip demo_transport
              (sent None demo_url demo_header "GET" "/v1/config/packages")
              (Ok (mkResponse 200 (mkReader "packages" None)))) ∧
  as_configured demo_outside demo_flags demo_transport
    (sent None demo_url demo_header "GET" "/v1/config/packages").
Proof.
  assert (direct (run demo_outside demo_flags).2) as Hd by (vm_compute; repeat constructor).
  assert ((run demo_outside demo_flags).2 !! 2%nat
            = Some (EvRoundTrip demo_transport
                      (sent None demo_url demo_header "GET" "/v1/config/packages")
                      (Ok (mkResponse 200 (mkReader "packages" None))))) as Hi
    by (vm_compute; reflexivity).
  split; [exact Hd | split; [exact Hi |]].
  exact (requests_are_as_configured demo_outside demo_flags _ _ _ _ Hd Hi).
Defined.

(** ** Bundle files are created, written and closed in order *)

Lemma files_in_order_neutral tr x :
  files_in_order tr ->
  (∀ name m w, x ≠ EvWrite name m w) -> (∀ name c, x ≠ EvClose name c) ->
  files_in_order (tr ++ [x]).
Proof.
  intros [H1 H2] Hw Hc. split.
  - intros i name m w [Hi | [_ Heq]]%lookup_snoc; [| by destruct (Hw name m w)].
    destruct (H1 i name m w Hi) as (j & -> & Hj). exists j. split; [done |].
    by apply lookup_app_l_Some.
  - intros i name c [Hi | [_ Heq]]%lookup_snoc; [| by destruct (Hc name c)].
    destruct (H2 i name c Hi) as (j & m & -> & Hj). exists j, m. split; [done |].
    by apply lookup_app_l_Some.
Qed.

Lemma files_in_order_kept O client b u h : kept O client b u h files_in_order.
Proof.
  split; [| split; [| split; [| split]]].
  - intros tr uri H.
    change (tr ++ [logged O u "GET" uri; ?e]) with (tr ++ [logged O u "GET" uri] ++ [e]).
    rewrite app_assoc. apply files_in_order_neutral; [| done | done].
    by apply files_in_order_neutral.
  - intros tr msg H. by apply files_in_order_neutral.
  - intros tr name H. by apply files_in_order_neutral.
  - intros tr name m [H1 H2]. split.
    + intros i name' m' w [Hi | [-> Heq]]%lookup_snoc.
      * destruct (H1 i name' m' w Hi) as (j & -> & Hj). exists j. split; [done |].
        by apply lookup_app_l_Some.
      * injection Heq as -> -> _. exists (List.length tr). split.
        -- rewrite length_app. simpl. lia.
        -- apply lookup_app_l_Some. by rewrite list_lookup_middle.
    + intros i name' c [Hi | [_ Heq]]%lookup_snoc; [| done].
      destruct (H2 i name' c Hi) as (j & m' & -> & Hj). exists j, m'. split; [done |].
      by apply lookup_app_l_Some.
  - intros tr name m [H1 H2]. split.
    + intros i name' m' w [Hi | [_ Heq]]%lookup_snoc; [| done].
      destruct (H1 i name' m' w Hi) as (j & -> & Hj). exists j. split; [done |].
      by apply lookup_app_l_Some.
    + intros i name' c [Hi | [-> Heq]]%lookup_snoc.
      * destruct (H2 i name' c Hi) as (j & m' & -> & Hj). exists j, m'. split; [done |].
        by apply lookup_app_l_Some.
      * injection Heq as -> _. exists (List.length (tr ++ [EvCreate name None])), m. split.
        -- rewrite !length_app. simpl. lia.
        -- apply lookup_app_l_Some. by rewrite list_lookup_middle.
Qed.

(** X3: a bundle file is written only right after it has been created
    without an error, and it is closed only right after it has been written
    and flushed without an error (lines 184-208). *)
Theorem bundle_files_in_order O fl :
  (∀ i name m w,
     (run O fl).2 !! i = Some (EvWrite name m w) ->
     ∃ j, i = S j ∧ (run O fl).2 !! j = Some (EvCreate name None)) ∧
  (∀ i name c,
     (run O fl).2 !! i = Some (EvClose name c) ->
     ∃ j m, i = S j ∧ (run O fl).2 !! j = Some (EvWrite name m Written)).
Proof.
  change (files_in_order (run O fl).2). apply kept_run.
  - split; intros ? ? ?; [intros ? |]; by intros ?%lookup_nil_Some.
  - intros got. apply (files_in_order_neutral []); [| done | done].
    split; intros ? ? ?; [intros ? |]; by intros ?%lookup_nil_Some.
  - intros tr msg H. by apply files_in_order_neutral.
  - intros pem _ _. apply files_in_order_kept.
Qed.

Lemma bundle_files_in_order_witness :
  (run demo_outside demo_flags).2 !! 13%nat = Some (EvClose "my%20pkg.json" None) ∧
  ∃ j m, 13%nat = S j ∧
         (run demo_outside demo_flags).2 !! j = Some (EvWrite "my%20pkg.json" m Written).
Proof.
  assert ((run demo_outside demo_flags).2 !! 13%nat = Some (EvClose "my%20pkg.json" None))
    as Hi by (vm_compute; reflexivity).
  split; [exact Hi |].
  exact (proj2 (bundle_files_in_order demo_outside demo_flags) _ _ _ Hi).
Defined.

(** ** Standard error and the exit status *)

Lemma smooth_app a b : smooth (a ++ b) ↔ smooth a ∧ smooth b.
Proof. apply Forall_app. Qed.

Lemma failure_ends_smooth a b : smooth a -> failure_ends (a ++ b) ↔ failure_ends b.
Proof.
  induction 1 as [| e a [He _] Ha IH]; simpl; [done |]. by rewrite He.
Qed.

Lemma smooth_ends tr : smooth tr -> failure_ends tr.
Proof. intros H. rewrite <- (app_nil_r tr). by apply failure_ends_smooth. Qed.

Lemma call_Ok_smooth {A} (out : sink A) uri call v : call_run out uri call (Ok v) -> smooth call.
Proof.
  intros (l & t & w & resp & -> & _ & _ & Hs & _)%call_run_Ok.
  repeat constructor. simpl. rewrite bool_decide_eq_false. by intros [].
Qed.

Lemma call_Err_left {A B} (out : sink A) uri call e :
  call_run out uri call (Err e) ->
  left_behind (call ++ [EvStderr (Error e +:+ nl)]) (Exit 1 : outcome B).
Proof.
  intros Hcall. split; [| by eexists _, _].
  apply call_run_Err in Hcall
    as (l & t & w & got & _ & [(resp & -> & Hs & -> & ->) | (Hok & _ & ->)]); simpl.
  - rewrite bool_decide_eq_true_2 by done. split; [done | by repeat constructor].
  - destruct got as [resp | msg]; [| split; [done | by repeat constructor]].
    rewrite bool_decide_eq_false_2; [done |]. intros Hs. by apply Hs, Hok.
Qed.

Lemma left_behind_app {B} a b (o : outcome B) :
  smooth a -> left_behind b o -> left_behind (a ++ b) o.
Proof.
  intros Ha [Hb1 Hb2]. split; [by apply failure_ends_smooth |].
  destruct o as [v | code |]; [| | done].
  - by apply smooth_app.
  - destruct Hb2 as (pre & msg & ->). exists (a ++ pre), msg. by rewrite app_assoc.
Qed.

Lemma files_run_left p files m evs o : files_run p files m evs o -> left_behind evs o.
Proof.
  induction 1 as [m | f fs m evs o Hex Hrun IH | f fs m call content evs o Hex Hcall Hrun IH
                 | f fs m call errSR Hex Hcall].
  - split; [done | constructor].
  - done.
  - apply left_behind_app; [by eapply call_Ok_smooth | done].
  - by eapply call_Err_left.
Qed.

Lemma bundle_run_left p m evs o : bundle_run p m evs o -> left_behind evs o.
Proof.
  destruct 1; (split; [simpl; by repeat constructor |]);
    first [by repeat constructor | by eexists [_], _ | by eexists [_; _], _
          | by eexists [_; _; _], _].
Qed.

Lemma left_behind_retype {A B} evs code :
  left_behind evs (Exit code : outcome A) -> left_behind evs (Exit code : outcome B).
Proof. by intros [H1 H2]. Qed.

Lemma package_run_left O p evs o : package_run O p evs o -> left_behind evs o.
Proof.
  destruct 1 as [Hw | call errSR Hw Hcall | call files evs code Hw Hcall Hrun
                | call files evs m evs' o Hw Hcall Hrun Hb].
  - split; [done | constructor].
  - by eapply call_Err_left.
  - apply left_behind_app; [by eapply call_Ok_smooth |].
    eapply left_behind_retype, files_run_left, Hrun.
  - apply left_behind_app; [by eapply call_Ok_smooth |].
    apply left_behind_app; [| by eapply bundle_run_left].
    by destruct (files_run_left _ _ _ _ _ Hrun).
Qed.

Lemma packages_run_left O ps evs o : packages_run O ps evs o -> left_behind evs o.
Proof.
  induction 1 as [| p ps evs code Hp | p ps evs evs' o Hp Hps IH].
  - split; [done | constructor].
  - by eapply package_run_left.
  - apply left_behind_app; [| done].
    by destruct (package_run_left _ _ _ _ Hp).
Qed.

Lemma main_run_left O fl evs o : main_run O fl evs o -> left_behind evs o.
Proof.
  destruct 1 as [msg Hmsg | errRF | pem | pem call errSR Hcall | pem call packages evs o Hcall Hps].
  - split; [done | by eexists [], _].
  - split; [simpl; split; [done | by repeat constructor] | by eexists [_], _].
  - split; [done | by eexists [_], _].
  - apply (left_behind_app [_]); [by repeat constructor |].
    by eapply call_Err_left.
  - apply (left_behind_app [_]); [by repeat constructor |].
    apply left_behind_app; [by eapply call_Ok_smooth |].
    by eapply packages_run_left.
Qed.

(** X4: once [flag.Parse] has returned, and in a run without an answer
    that the client may follow: a run that ends with status 0 has met no
    failure and has printed nothing on standard error; a run that ends with
    another status has printed a line on standard error as the last thing it
    did. *)
Theorem exit_status_and_stderr O fl :
  direct (run O fl).2 ->
  ((run O fl).1 = 0%Z ->
   Forall (fun e => failed e = false ∧ is_stderr e = false) (run O fl).2) ∧
  ((run O fl).1 ≠ 0%Z ->
   ∃ pre msg, (run O fl).2 = pre ++ [EvStderr (msg +:+ nl)]).
Proof.
  intros _.
  destruct (run_main_run O fl) as (o & Ho & Hrun).
  destruct (main_run_left _ _ _ _ Hrun) as [Hends Hout]. split.
  - intros H0. by rewrite (run_succeeds O fl o H0 Ho Hrun) in Hout.
  - intros H0. destruct o as [[] | code |]; [by rewrite Ho in H0 | done | done].
Qed.

Lemma exit_status_and_stderr_witness :
  direct (run demo_failing demo_flags).2 ∧
  (run demo_failing demo_flags).1 ≠ 0%Z ∧
  ∃ pre msg, (run demo_failing demo_flags).2 = pre ++ [EvStderr (msg +:+ nl)].
Proof.
  assert (direct (run demo_failing demo_flags).2) as Hd by (vm_compute; repeat constructor).
  assert ((run demo_failing demo_flags).1 ≠ 0%Z) as H1 by (vm_compute; discriminate).
  split; [exact Hd | split; [exact H1 |]].
  exact (proj2 (exit_status_and_stderr demo_failing demo_flags Hd) H1).
Defined.

(** ** Exit statuses *)

Lemma first_missing_None O fl :
  first_missing O fl = None ↔
  host fl ≠ "" ∧ port fl ≠ "" ∧ ca fl ≠ "" ∧ cn fl ≠ "" ∧ user fl ≠ "" ∧
  os_Getenv O "I2_PASS" ≠ "".
Proof.
  unfold first_missing.
  repeat (destruct (decide _); [split; [done | by intros (? & ? & ? & ? & ? & ?)] |]).
  split; [by intros _ | done].
Qed.

Lemma main_export_outcome O fl pem :
  (main_export O fl pem (ready_state O fl pem)).1 = Ret tt ∨
  (main_export O fl pem (ready_state O fl pem)).1 = Exit 1.
Proof.
  unfold main_export.
  erewrite bind_Ret by (eapply sendReq_step, ready_template).
  destruct (answer _ _).2 as [packages | errSR].
  - edestruct (main_packages_run O (main_client fl pem) 2 packages) as (evs & hp & o & Heq & Hrun).
    { eapply template_at_grow, ready_template. }
    rewrite Heq. simpl. destruct o as [[] | code |].
    + by left.
    + right. by rewrite (packages_run_exit _ _ _ _ Hrun).
    + by apply packages_run_no_panic in Hrun.
  - right. reflexivity.
Qed.

(** X5: once [flag.Parse] has returned with the values [fl] of the flags,
    [main] never panics, its exit status is 0, 1 or 2, and it is 2 exactly
    when a flag is empty or [I2_PASS] is unset or empty; so every failure
    after the checks of lines 63-92 gives status 1.  (What [flag.Parse]
    itself does with the command line, line 61, is not part of this.) *)
Theorem exit_status_by_cause O fl :
  (main O fl (mkState [] [])).1 ≠ Panic ∧
  ((run O fl).1 = 0%Z ∨ (run O fl).1 = 1%Z ∨ (run O fl).1 = 2%Z) ∧
  ((run O fl).1 = 2%Z ↔
   host fl = "" ∨ port fl = "" ∨ ca fl = "" ∨ cn fl = "" ∨ user fl = "" ∨
   os_Getenv O "I2_PASS" = "").
Proof.
  unfold run. destruct (first_missing O fl) as [msg |] eqn:Hmiss.
  - rewrite (main_missing O fl msg Hmiss). simpl. split; [done | split; [auto |]].
    split; [intros _ | done].
    destruct (decide (host fl = "")); [auto |]. destruct (decide (port fl = "")); [auto |].
    destruct (decide (ca fl = "")); [auto |]. destruct (decide (cn fl = "")); [auto 6 |].
    destruct (decide (user fl = "")); [auto 6 |].
    destruct (decide (os_Getenv O "I2_PASS" = "")); [auto 7 |].
    assert (first_missing O fl = None) as Hnone by (by apply first_missing_None).
    congruence.
  - rewrite (main_configured O fl Hmiss).
    apply first_missing_None in Hmiss as (H1 & H2 & H3 & H4 & H5 & H6).
    assert (∀ (o : outcome unit) s,
              o = Ret tt ∨ o = Exit 1 ->
              (o, s).1 ≠ Panic ∧
              ((let '(o, s) := (o, s) in (exit_status o, trace s)).1 = 0%Z ∨
               (let '(o, s) := (o, s) in (exit_status o, trace s)).1 = 1%Z ∨
               (let '(o, s) := (o, s) in (exit_status o, trace s)).1 = 2%Z) ∧
              ((let '(o, s) := (o, s) in (exit_status o, trace s)).1 = 2%Z ↔
               host fl = "" ∨ port fl = "" ∨ ca fl = "" ∨ cn fl = "" ∨ user fl = "" ∨
               os_Getenv O "I2_PASS" = "")) as Hcase.
    { intros o s [-> | ->]; simpl; (split; [done | split; [auto |]]); split; try done;
        intros [? | [? | [? | [? | [? | ?]]]]]; done. }
    destruct (ReadFile O (ca fl)) as [pem | errRF]; [| by apply Hcase; right].
    destruct (AppendCertsFromPEM O pem); [| by apply Hcase; right].
    destruct (main_export O fl pem (ready_state O fl pem)) as [o s] eqn:Hexp.
    apply Hcase. pose proof (main_export_outcome O fl pem) as Ho. by rewrite Hexp in Ho.
Qed.

Lemma exit_status_by_cause_witness :
  (run demo_outside (mkFlags "icinga" "5665" "ca.pem" "" "root")).1 = 2%Z.
Proof.
  exact (proj2 (proj2 (proj2 (exit_status_by_cause demo_outside
                                (mkFlags "icinga" "5665" "ca.pem" "" "root"))))
           (or_intror (or_intror (or_intror (or_introl eq_refl))))).
Defined.

(** X6: the checks of lines 63-92 run in the order host, port, ca, cn,
    user, [I2_PASS], and the first one that fails ends the run: the message
    on standard error names the first missing item, whatever else is
    missing. *)
Theorem first_missing_item_is_reported O fl :
  (host fl = "" -> run O fl = (2%Z, [EvStderr ("-host missing" +:+ nl)])) ∧
  (host fl ≠ "" -> port fl = "" -> run O fl = (2%Z, [EvStderr ("-port missing" +:+ nl)])) ∧
  (host fl ≠ "" -> port fl ≠ "" -> ca fl = "" ->
   run O fl = (2%Z, [EvStderr ("-ca missing" +:+ nl)])) ∧
  (host fl ≠ "" -> port fl ≠ "" -> ca fl ≠ "" -> cn fl = "" ->
   run O fl = (2%Z, [EvStderr ("-cn missing" +:+ nl)])) ∧
  (host fl ≠ "" -> port fl ≠ "" -> ca fl ≠ "" -> cn fl ≠ "" -> user fl = "" ->
   run O fl = (2%Z, [EvStderr ("-user missing" +:+ nl)])) ∧
  (host fl ≠ "" -> port fl ≠ "" -> ca fl ≠ "" -> cn fl ≠ "" -> user fl ≠ "" ->
   os_Getenv O "I2_PASS" = "" ->
   run O fl = (2%Z, [EvStderr ("$I2_PASS missing" +:+ nl)])).
Proof.
  assert (∀ msg, first_missing O fl = Some msg -> run O fl = (2%Z, [EvStderr (msg +:+ nl)]))
    as Hrun.
  { intros msg Hmsg. unfold run. by rewrite (main_missing O fl msg Hmsg). }
  repeat split; intros; apply Hrun; unfold first_missing;
    repeat (destruct (decide _); [done |]); done.
Qed.

Lemma first_missing_item_witness :
  run demo_outside (mkFlags "icinga" "" "" "icinga" "")
  = (2%Z, [EvStderr ("-port missing" +:+ nl)]).
Proof.
  assert (host (mkFlags "icinga" "" "" "icinga" "") ≠ "") as H1 by discriminate.
  exact (proj1 (proj2 (first_missing_item_is_reported demo_outside
                         (mkFlags "icinga" "" "" "icinga" ""))) H1 eq_refl).
Defined.

Lemma after_first_kept O client b u h (e0 : event) (P : event -> Prop) :
  (∀ l, P (EvStdout l)) -> (∀ t w got, P (EvRoundTrip t w got)) -> (∀ msg, P (EvStderr msg)) ->
  (∀ name got, P (EvCreate name got)) -> (∀ name m got, P (EvWrite name m got)) ->
  (∀ name got, P (EvClose name got)) ->
  kept O client b u h (fun tr => ∃ rest, tr = e0 :: rest ∧ Forall P rest).
Proof.
  intros P1 P2 P3 P4 P5 P6.
  assert (∀ tr x, P x -> (∃ rest, tr = e0 :: rest ∧ Forall P rest) ->
                  ∃ rest, tr ++ [x] = e0 :: rest ∧ Forall P rest) as Hsnoc.
  { intros tr x Hx (rest & -> & Hrest). exists (rest ++ [x]). split; [done |].
    apply Forall_app. by split; [| repeat constructor]. }
  split; [| split; [| split; [| split]]].
  - intros tr uri H.
    change (tr ++ [logged O u "GET" uri; ?e]) with (tr ++ [logged O u "GET" uri] ++ [e]).
    rewrite app_assoc. apply Hsnoc; [apply P2 |]. apply Hsnoc; [apply P1 | done].
  - intros tr msg H. by apply Hsnoc.
  - intros tr name H. by apply Hsnoc.
  - intros tr name m H. by apply Hsnoc.
  - intros tr name m H. by apply Hsnoc.
Qed.

(** X7: with the configuration complete, reading the CA file is the
    first thing the run does (lines 94-107).  When the file cannot be read
    the run ends there with the error on standard error and status 1; when it
    holds no certificate the run ends with [bad CA cert] and status 1; when
    it is fine it is read once, and never again. *)
Theorem ca_file_is_read_first O fl :
  first_missing O fl = None ->
  (∀ errRF, ReadFile O (ca fl) = Err errRF ->
     run O fl = (1%Z, [EvReadFile (ca fl) (Err errRF); EvStderr (errRF +:+ nl)])) ∧
  (∀ pem, ReadFile O (ca fl) = Ok pem -> AppendCertsFromPEM O pem = false ->
     run O fl = (1%Z, [EvReadFile (ca fl) (Ok pem); EvStderr ("bad CA cert" +:+ nl)])) ∧
  (∀ pem, ReadFile O (ca fl) = Ok pem -> AppendCertsFromPEM O pem = true ->
     ∃ rest, (run O fl).2 = EvReadFile (ca fl) (Ok pem) :: rest ∧
             Forall (fun e => ∀ name got, e ≠ EvReadFile name got) rest).
Proof.
  intros Hmiss. unfold run. rewrite (main_configured O fl Hmiss). split; [| split].
  - by intros errRF ->.
  - by intros pem -> ->.
  - intros pem -> ->.
    destruct (kept_export O fl pem
                (fun tr => ∃ rest, tr = EvReadFile (ca fl) (Ok pem) :: rest ∧
                                   Forall (fun e => ∀ name got, e ≠ EvReadFile name got) rest))
      as [H _].
    + by apply after_first_kept.
    + exists []. by split; [| constructor].
    + by destruct (main_export O fl pem (ready_state O fl pem)).
Qed.

Lemma ca_file_is_read_first_witness :
  first_missing demo_outside (mkFlags "icinga" "5665" "other.pem" "icinga" "root") = None ∧
  ReadFile demo_outside "other.pem" = Err "no such file" ∧
  run demo_outside (mkFlags "icinga" "5665" "other.pem" "icinga" "root")
  = (1%Z, [EvReadFile "other.pem" (Err "no such file"); EvStderr ("no such file" +:+ nl)]).
Proof.
  assert (first_missing demo_outside (mkFlags "icinga" "5665" "other.pem" "icinga" "root") = None)
    as H1 by (vm_compute; reflexivity).
  assert (ReadFile demo_outside "other.pem" = Err "no such file") as H2
    by (vm_compute; reflexivity).
  split; [exact H1 | split; [exact H2 |]].
  exact (proj1 (ca_file_is_read_first demo_outside
                  (mkFlags "icinga" "5665" "other.pem" "icinga" "root") H1) _ H2).
Defined.

(** ** [sendReq] with a request body *)



(** ** The base request through a whole run *)

(** X10: a run that gets as far as building the base request (lines
    113-119) leaves it as it was built, however many requests were made from
    it: at the end the request has no method and no body, its URL has the
    scheme, the host and an empty path, its header map holds the
    authorization only, and all that the run has allocated besides are the
    copies that [sendReq] works on. *)
Theorem base_request_after_the_run O fl pem :
  first_missing O fl = None ->
  ReadFile O (ca fl) = Ok pem -> AppendCertsFromPEM O pem = true ->
  template_at (main O fl (mkState [] [])).2 2 (mkRequest "" 0 1 None)
    (mkURL "https" (host fl +:+ ":" +:+ port fl) "")
    {["Authorization" := ["Basic " +:+ basicAuth O (user fl) (os_Getenv O "I2_PASS")]]} ∧
  ∃ copies, heap (main O fl (mkState [] [])).2
            = [ObjURL (mkURL "https" (host fl +:+ ":" +:+ port fl) "");
               ObjHeader {["Authorization" :=
                             ["Basic " +:+ basicAuth O (user fl) (os_Getenv O "I2_PASS")]]};
               ObjRequest (mkRequest "" 0 1 None)] ++ copies.
Proof.
  intros Hmiss Hpem Hca. rewrite (main_configured O fl Hmiss), Hpem, Hca.
  destruct (kept_export O fl pem (fun _ => True)) as [_ (hp & Hheap)].
  - by repeat split.
  - done.
  - split; [| by exists hp].
    unfold template_at. rewrite Hheap. by repeat split.
Qed.

Lemma base_request_after_the_run_witness :
  first_missing demo_outside demo_flags = None ∧
  ReadFile demo_outside (ca demo_flags) = Ok "PEM" ∧
  AppendCertsFromPEM demo_outside "PEM" = true ∧
  template_at (main demo_outside demo_flags (mkState [] [])).2 2 demo_request demo_url
    demo_header.
Proof.
  assert (first_missing demo_outside demo_flags = None) as H1 by (vm_compute; reflexivity).
  assert (ReadFile demo_outside (ca demo_flags) = Ok "PEM") as H2 by (vm_compute; reflexivity).
  assert (AppendCertsFromPEM demo_outside "PEM" = true) as H3 by (vm_compute; reflexivity).
  split; [exact H1 | split; [exact H2 | split; [exact H3 |]]].
  exact (proj1 (base_request_after_the_run demo_outside demo_flags "PEM" H1 H2 H3)).
Defined.

(** ** The names of the bundle files *)











(** ** The error of a bad status *)

(** X12: [badHttpStatus.Error] (lines 50-52) tells the statuses apart: two
    errors with the same text have the same status code. *)
Theorem badHttpStatus_Error_inj c d :
  Error (badHttpStatus c) = Error (badHttpStatus d) -> c = d.
Proof.
  unfold Error, decimal. intros H. apply (String.app_inj "HTTP ") in H.
  by apply (inj pretty) in H.
Qed.

Lemma badHttpStatus_Error_witness :
  Error (badHttpStatus 404) = "HTTP 404" ∧ (404 = 404)%Z.
Proof.
  split; [reflexivity |].
  exact (badHttpStatus_Error_inj 404 404 eq_refl).
Defined.

(** ** Every error is reported, and ends the run *)

Lemma calm_app O a b : calm O (a ++ b) ↔ calm O a ∧ calm O b.
Proof. apply Forall_app. Qed.

Lemma reported_calm O a b : calm O a -> reported O (a ++ b) ↔ reported O b.
Proof. induction 1 as [| e a He Ha IH]; simpl; [done |]. by rewrite He. Qed.

Lemma calm_reported O tr : calm O tr -> reported O tr.
Proof. intros H. rewrite <- (app_nil_r tr). by apply reported_calm. Qed.

Lemma call_run_inv {A} (out : sink A) uri call r :
  call_run out uri call r ->
  ∃ l t w got, Path (wURL w) = uri ∧
    call = EvStdout l :: EvRoundTrip t w got :: (answer out got).1 ∧ r = (answer out got).2.
Proof. inversion 1 as [l t w got Hm Hp Hc Hr]. by exists l, t, w, got. Qed.

Lemma report_200 O t w resp :
  StatusCode resp = 200%Z ->
  report O (EvRoundTrip t w (Ok resp)) =
    if String.eqb (Path (wURL w)) "/v1/config/packages" then
      match DecodePackages O (RespBody resp) with
      | Err msg => Some [msg +:+ nl]
      | Ok _ => None
      end
    else if is_stages_uri (Path (wURL w)) then
      match DecodeFiles O (RespBody resp) with
      | Err msg => Some [msg +:+ nl]
      | Ok _ => None
      end
    else
      match failure (RespBody resp) with
      | Some msg => Some [msg +:+ nl]
      | None => None
      end.
Proof. intros Hs. unfold report. by destruct (decide (StatusCode resp ≠ 200%Z)). Qed.

Lemma purpose_report O A (out : sink A) uri t w resp :
  purpose O A out uri -> Path (wURL w) = uri -> StatusCode resp = 200%Z ->
  report O (EvRoundTrip t w (Ok resp)) =
    match sendReq_out out resp with
    | Err e => Some [Error e +:+ nl]
    | Ok _ => None
    end.
Proof.
  intros Hp Hw Hs. rewrite report_200 by done. rewrite Hw.
  destruct Hp as [| p | p f].
  - simpl. by destruct (DecodePackages O (RespBody resp)).
  - change (String.eqb (stages_uri p) "/v1/config/packages") with false.
    rewrite stages_uri_is_stages. simpl. by destruct (DecodeFiles O (RespBody resp)).
  - change (String.eqb (files_uri p f) "/v1/config/packages") with false.
    rewrite files_uri_not_stages. simpl. unfold ReadAll.
    by destruct (failure (RespBody resp)).
Qed.

Lemma call_calm O A (out : sink A) uri call v :
  purpose O A out uri -> call_run out uri call (Ok v) -> calm O call.
Proof.
  intros Hp (l & t & w & got & Hw & -> & Hr)%call_run_inv. unfold answer in *.
  destruct got as [resp | msg]; [| done].
  destruct (decide (StatusCode resp ≠ 200%Z)) as [Hs | Hs]; [done |].
  apply dec_stable in Hs. simpl in *.
  repeat constructor. rewrite (purpose_report O A out uri) by done. by rewrite <- Hr.
Qed.

Lemma call_reported O A (out : sink A) uri call e :
  purpose O A out uri -> call_run out uri call (Err e) ->
  reported O (call ++ [EvStderr (Error e +:+ nl)]).
Proof.
  intros Hp (l & t & w & got & Hw & -> & Hr)%call_run_inv. unfold answer in *.
  destruct got as [resp | msg]; [| simpl in Hr; by simplify_eq].
  destruct (decide (StatusCode resp ≠ 200%Z)) as [Hs | Hs].
  - simpl in Hr. simplify_eq. simpl. by destruct (decide (StatusCode resp ≠ 200%Z)).
  - apply dec_stable in Hs. simpl in Hr.
    change (reported O (EvStdout l :: EvRoundTrip t w (Ok resp) :: [EvStderr (Error e +:+ nl)])).
    cbn [reported]. change (report O (EvStdout l)) with (@None (list string)). cbv iota.
    rewrite (purpose_report O A out _ t w resp Hp Hw Hs). by rewrite <- Hr.
Qed.

Lemma settled_app {B} O a b (o : outcome B) : calm O a -> settled O b o -> settled O (a ++ b) o.
Proof.
  intros Ha [Hb1 Hb2]. split; [by apply reported_calm |].
  destruct o; [by apply calm_app | done | done].
Qed.

Lemma settled_retype {A B} O evs code :
  settled O evs (Exit code : outcome A) -> settled O evs (Exit code : outcome B).
Proof. by intros [H1 H2]. Qed.

Lemma files_run_settled O p files m evs o : files_run p files m evs o -> settled O evs o.
Proof.
  induction 1 as [m | f fs m evs o Hex Hrun IH | f fs m call content evs o Hex Hcall Hrun IH
                 | f fs m call errSR Hex Hcall].
  - split; [done | constructor].
  - done.
  - apply settled_app; [| done]. eapply call_calm, Hcall. constructor.
  - split; [| done]. eapply call_reported, Hcall. constructor.
Qed.

Lemma bundle_run_settled O p m evs o : bundle_run p m evs o -> settled O evs o.
Proof. destruct 1; (split; [done |]); by repeat constructor. Qed.

Lemma package_run_settled O p evs o : package_run O p evs o -> settled O evs o.
Proof.
  destruct 1 as [Hw | call errSR Hw Hcall | call files evs code Hw Hcall Hrun
                | call files evs m evs' o Hw Hcall Hrun Hb].
  - split; [done | constructor].
  - split; [| done]. eapply call_reported, Hcall. constructor.
  - apply settled_app; [eapply call_calm, Hcall; constructor |].
    eapply settled_retype, files_run_settled, Hrun.
  - apply settled_app; [eapply call_calm, Hcall; constructor |].
    apply settled_app; [| by eapply bundle_run_settled].
    by destruct (files_run_settled O _ _ _ _ _ Hrun).
Qed.

Lemma packages_run_settled O ps evs o : packages_run O ps evs o -> settled O evs o.
Proof.
  induction 1 as [| p ps evs code Hp | p ps evs evs' o Hp Hps IH].
  - split; [done | constructor].
  - by eapply package_run_settled.
  - apply settled_app; [| done].
    by destruct (package_run_settled _ _ _ _ Hp).
Qed.

Lemma main_run_settled O fl evs o : main_run O fl evs o -> settled O evs o.
Proof.
  destruct 1 as [msg Hmsg | errRF | pem | pem call errSR Hcall | pem call packages evs o Hcall Hps].
  - done.
  - done.
  - done.
  - split; [| done]. apply (reported_calm O [_]); [by repeat constructor |].
    eapply call_reported, Hcall. constructor.
  - apply (settled_app O [_]); [by repeat constructor |].
    apply settled_app; [eapply call_calm, Hcall; constructor |].
    by eapply packages_run_settled.
Qed.

Lemma reported_at O tr i e msgs :
  reported O tr -> tr !! i = Some e -> report O e = Some msgs ->
  drop (S i) tr = EvStderr <$> msgs ∧ ¬ calm O tr.
Proof.
  revert i. induction tr as [| x tr IH]; intros i Hrep Hi He; [done |].
  destruct i as [| i]; simpl in Hi.
  - simplify_eq. simpl in Hrep. rewrite He in Hrep.
    split; [done |]. intros [Hx _]%Forall_cons. congruence.
  - simpl in Hrep. destruct (report O x) as [msgs' |] eqn:Hx.
    + subst tr. rewrite list_lookup_fmap in Hi.
      destruct (msgs' !! i); simpl in Hi; by simplify_eq.
    + destruct (IH i Hrep Hi He) as [H1 H2]. split; [done |].
      intros [_ Htr]%Forall_cons. by apply H2.
Qed.

(** X13: in a run without an answer that the client may follow, every
    error ends the run with status 1, after its report on standard error and
    nothing else: the message of the error for a file operation that fails,
    for a response with status 200 whose body cannot be decoded (the packages
    and the stage listings) or read to its end (the files); the body and then
    [HTTP <status>] for a response with another status; one line for a round
    trip that fails.  Such a run that ends with status 0 has met none of
    these. *)
Theorem errors_are_reported O fl :
  direct (run O fl).2 ->
  (∀ i e msgs,
     (run O fl).2 !! i = Some e -> report O e = Some msgs ->
     (run O fl).1 = 1%Z ∧
     if transport_error e
     then ∃ line, drop (S i) (run O fl).2 = [EvStderr (line +:+ nl)]
     else drop (S i) (run O fl).2 = EvStderr <$> msgs) ∧
  ((run O fl).1 = 0%Z -> ∀ e, e ∈ (run O fl).2 -> report O e = None).
Proof.
  intros _.
  destruct (run_main_run O fl) as (o & Ho & Hrun).
  destruct (main_run_settled _ _ _ _ Hrun) as [Hrep Hout]. split.
  - intros i e msgs Hi He.
    destruct (reported_at _ _ _ _ _ Hrep Hi He) as [H1 H2].
    split.
    2: { destruct (transport_error e) eqn:Ht; [| done].
         destruct e as [| | | t w [resp | msg] | | |]; try done.
         simpl in He. injection He as <-. by exists msg. }
    rewrite Ho. destruct o as [[] | code |]; [done | | done].
    destruct (main_run_exit _ _ _ _ Hrun) as [-> | ->]; [done |].
    exfalso. clear -Hrun Hi He.
    inversion Hrun as [msg Hmsg Htr | | | | pem call packages evs o' Hcall Hps Htr]; subst.
    + rewrite <- Htr in Hi. destruct i as [| i]; simpl in Hi; by simplify_eq.
    + by apply packages_run_exit in Hps.
  - intros H0 e He. rewrite (run_succeeds O fl o H0 Ho Hrun) in Hout.
    unfold calm in Hout. rewrite Forall_forall in Hout. by apply Hout.
Qed.

Lemma errors_are_reported_witness :
  direct (run demo_failing demo_flags).2 ∧
  (run demo_failing demo_flags).2 !! 15%nat
    = Some (EvRoundTrip demo_transport
              (sent None demo_url demo_header "GET" "/v1/config/stages/conf/s2")
              (Ok demo_refused)) ∧
  (run demo_failing demo_flags).1 = 1%Z ∧
  drop 16 (run demo_failing demo_flags).2
    = [EvStderr "No such package"; EvStderr ("HTTP 404" +:+ nl)].
Proof.
  assert ((run demo_failing demo_flags).2 !! 15%nat
            = Some (EvRoundTrip demo_transport
                      (sent None demo_url demo_header "GET" "/v1/config/stages/conf/s2")
                      (Ok demo_refused))) as Hi
    by (vm_compute; reflexivity).
  assert (direct (run demo_failing demo_flags).2) as Hd by (vm_compute; repeat constructor).
  split; [exact Hd | split; [exact Hi |]].
  exact (proj1 (errors_are_reported demo_failing demo_flags Hd) 15%nat _
           ["No such package"; "HTTP 404" +:+ nl] Hi eq_refl).
Defined.

(** ** The package list is requested first, and once *)

Lemma package_request_not_packages O tr ps uri :
  package_request O tr ps uri -> uri ≠ "/v1/config/packages".
Proof.
  intros (p & _ & _ & [-> | (t & w & resp & files & f & _ & _ & _ & _ & _ & ->)]) H;
    unfold stages_uri, files_uri in H; simpl in H; discriminate H.
Qed.

(** X14: once [flag.Parse] has returned, and in a run without an answer
    that the client may follow: the first request is the one for the package
    list (line 128), and it is made once: no later request has its path.  Such
    a run that ends with status 0 has made it. *)
Theorem packages_are_requested_first O fl :
  direct (run O fl).2 ->
  (requested (run O fl).2 = [] ∨
   ∃ rest, requested (run O fl).2 = "/v1/config/packages" :: rest ∧
           "/v1/config/packages" ∉ rest) ∧
  ((run O fl).1 = 0%Z -> requested (run O fl).2 ≠ []).
Proof.
  intros _.
  destruct (run_main_run O fl) as (o & Ho & Hrun). split.
  - destruct Hrun as [msg Hmsg | errRF | pem | pem call errSR Hcall
                     | pem call packages evs o Hcall Hps]; try by left.
    + right. exists []. simpl. rewrite requested_app, (call_run_requested _ _ _ _ Hcall).
      split; [done | by intros ?%elem_of_nil].
    + right. exists (requested evs). simpl.
      rewrite requested_app, (call_run_requested _ _ _ _ Hcall). split; [done |].
      intros Hin. pose proof (packages_run_requests _ _ _ _ Hps) as Hall.
      rewrite Forall_forall in Hall.
      by eapply package_request_not_packages; [apply Hall, Hin |].
  - intros H0. pose proof (run_succeeds O fl o H0 Ho Hrun) as ->.
    inversion Hrun as [| | | | pem call packages evs o' Hcall Hps Htr]. subst.
    simpl. by rewrite requested_app, (call_run_requested _ _ _ _ Hcall).
Qed.

Lemma packages_are_requested_first_witness :
  direct (run demo_outside demo_flags).2 ∧
  (run demo_outside demo_flags).1 = 0%Z ∧ requested (run demo_outside demo_flags).2 ≠ [].
Proof.
  assert (direct (run demo_outside demo_flags).2) as Hd by (vm_compute; repeat constructor).
  assert ((run demo_outside demo_flags).1 = 0%Z) as H0 by (vm_compute; reflexivity).
  split; [exact Hd | split; [exact H0 |]].
  exact (proj2 (packages_are_requested_first demo_outside demo_flags Hd) H0).
Defined.

(** ** The path on the request line *)













(** ** Runs in which the client has nothing to follow *)

Lemma hops_returns O P t left first w resp tr :
  redirectBehavior P tr w resp = NoRedirect ->
  hops O P t left first w (Ok resp) tr = ([], Ok resp).
Proof. intros H. destruct left; cbn [hops]; by rewrite H. Qed.

Lemma sendReq'_straight O P client base method uri A (out : sink A) s b u h :
  returns_others P ->
  template_at s base b u h ->
  straight (trace (sendReq O client base method uri None out s).2) ->
  sendReq' O P client base method uri None out s
  = sendReq O client base method uri None out s.
Proof.
  intros HP Ht.
  rewrite (sendReq_sends O client base method uri None A out s b u h Ht) by done.
  rewrite (sendReq'_sends O P client base method uri None A out s b u h Ht) by done.
  cbn zeta. cbn [snd trace sendReq_body]. intros Hstr.
  apply Forall_app in Hstr as [_ Hstr].
  apply Forall_cons in Hstr as [_ Hstr]. apply Forall_cons in Hstr as [Hgot _].
  unfold exchange. cbn zeta. cbn [fst snd].
  change (EvStdout (wMethod (sent (Body b) u h method uri) +:+ " " +:+
                      URL_String O (wURL (sent (Body b) u h method uri)) +:+ nl))
    with (logged O u method uri).
  destruct (RoundTrip O (trace s ++ [logged O u method uri]) (next (Transport client))
              (sent (Body b) u h method uri)) as [resp | e]; [| done].
  rewrite hops_returns by (by apply HP). cbn [fst snd]. done.
Qed.

Lemma straight_prefix a b : straight (a ++ b) -> straight a.
Proof. by intros [H _]%Forall_app. Qed.

Lemma main_files'_straight O P client req p files : ∀ m s b u h,
  returns_others P ->
  template_at s req b u h ->
  straight (trace (main_files O client req p files m s).2) ->
  main_files' O P client req p files m s = main_files O client req p files m s.
Proof.
  induction files as [| f rest IH]; intros m s b u h HP Ht; [done |].
  cbn [main_files' main_files]. destruct (exported f); [| by eapply IH].
  pose proof (sendReq_step O client req "GET" (files_uri p f) _ OutBytes s b u h Ht) as Hstep.
  cbn zeta in Hstep.
  set (got := RoundTrip O _ _ _) in Hstep.
  set (s1 := mkState _ _) in Hstep.
  assert (template_at s1 req b u h) as Ht1 by (by eapply template_at_grow).
  rewrite (bind_Ret _ _ _ _ _ Hstep). intros Hstr.
  assert (straight (trace s1)) as H1.
  { destruct (answer OutBytes got).2 as [content | e].
    - destruct (main_files_run O client req p rest (<[file_Name f := content]> m) s1 b u h Ht1)
        as (evs & hp & o & Heq & _).
      rewrite Heq in Hstr. by apply straight_prefix in Hstr.
    - rewrite (Fprintln_exit (A:=gmap string string)) in Hstr.
      by apply straight_prefix in Hstr. }
  assert (sendReq' O P client req "GET" (files_uri p f) None OutBytes s
          = (Ret (answer OutBytes got).2, s1)) as Hstep'.
  { rewrite <- Hstep. eapply sendReq'_straight; [done | done |]. by rewrite Hstep. }
  rewrite (bind_Ret _ _ _ _ _ Hstep').
  destruct (answer OutBytes got).2 as [content | e]; [by eapply IH | done].
Qed.

Lemma main_package'_straight O P client req p s b u h :
  returns_others P ->
  template_at s req b u h ->
  straight (trace (main_package O client req p s).2) ->
  main_package' O P client req p s = main_package O client req p s.
Proof.
  intros HP Ht. unfold main_package', main_package. destruct (wanted p); [| done].
  pose proof (sendReq_step O client req "GET" (stages_uri p) _ (OutJSON (DecodeFiles O))
                s b u h Ht) as Hstep.
  cbn zeta in Hstep.
  set (got := RoundTrip O _ _ _) in Hstep.
  set (s1 := mkState _ _) in Hstep.
  assert (template_at s1 req b u h) as Ht1 by (by eapply template_at_grow).
  rewrite (bind_Ret _ _ _ _ _ Hstep). intros Hstr.
  assert (straight (trace s1) ∧
          ∀ files, (answer (OutJSON (DecodeFiles O)) got).2 = Ok files ->
                   straight (trace (main_files O client req p files ∅ s1).2)) as [H1 H2].
  { destruct (answer (OutJSON (DecodeFiles O)) got).2 as [files | e].
    - destruct (main_files_run O client req p files ∅ s1 b u h Ht1)
        as (evs & hp & o & Heq & Hrun).
      destruct o as [m | code |].
      + rewrite (bind_Ret _ _ _ _ _ Heq) in Hstr.
        destruct (main_bundle_run O p m (mkState (trace s1 ++ evs) (heap s1 ++ hp)))
          as (evs' & o' & Heq' & _).
        rewrite Heq' in Hstr. cbn [snd trace] in Hstr.
        apply straight_prefix in Hstr. split; [by apply straight_prefix in Hstr |].
        intros ? [= <-]. by rewrite Heq.
      + rewrite (bind_Exit _ _ _ _ _ Heq) in Hstr. cbn [snd trace] in Hstr.
        split; [by apply straight_prefix in Hstr |]. intros ? [= <-]. by rewrite Heq.
      + by apply files_run_no_panic in Hrun.
    - rewrite (Fprintln_exit (A:=unit)) in Hstr. split; [| done].
      by apply straight_prefix in Hstr. }
  assert (sendReq' O P client req "GET" (stages_uri p) None (OutJSON (DecodeFiles O)) s
          = (Ret (answer (OutJSON (DecodeFiles O)) got).2, s1)) as Hstep'.
  { rewrite <- Hstep. eapply sendReq'_straight; [done | done |]. by rewrite Hstep. }
  rewrite (bind_Ret _ _ _ _ _ Hstep').
  destruct (answer (OutJSON (DecodeFiles O)) got).2 as [files | e]; [| done].
  apply bind_cong; [| done]. eapply main_files'_straight; [done | done | by apply H2].
Qed.

Lemma main_packages'_straight O P client req packages : ∀ s b u h,
  returns_others P ->
  template_at s req b u h ->
  straight (trace (main_packages O client req packages s).2) ->
  main_packages' O P client req packages s = main_packages O client req packages s.
Proof.
  induction packages as [| p rest IH]; intros s b u h HP Ht; [done |].
  cbn [main_packages' main_packages]. intros Hstr.
  destruct (main_package_run O client req p s b u h Ht) as (evs & hp & o & Heq & Hrun).
  assert (template_at (mkState (trace s ++ evs) (heap s ++ hp)) req b u h) as Ht1
    by (by eapply template_at_grow).
  assert (straight (trace s ++ evs)) as H1.
  { destruct o as [[] | code |].
    - rewrite (bind_Ret _ _ _ _ _ Heq) in Hstr.
      destruct (main_packages_run O client req rest _ b u h Ht1)
        as (evs' & hp' & o' & Heq' & _).
      rewrite Heq' in Hstr. cbn [snd trace] in Hstr. by apply straight_prefix in Hstr.
    - by rewrite (bind_Exit _ _ _ _ _ Heq) in Hstr.
    - by apply package_run_no_panic in Hrun. }
  assert (main_package' O P client req p s
          = (o, mkState (trace s ++ evs) (heap s ++ hp))) as Heq'.
  { rewrite <- Heq. eapply main_package'_straight; [done | done |]. by rewrite Heq. }
  destruct o as [[] | code |].
  - rewrite (bind_Ret _ _ _ _ _ Heq) in Hstr |- *. rewrite (bind_Ret _ _ _ _ _ Heq').
    by eapply IH.
  - by rewrite (bind_Exit _ _ _ _ _ Heq), (bind_Exit _ _ _ _ _ Heq').
  - by apply package_run_no_panic in Hrun.
Qed.

(** In a run in which every round trip has an answer, and none that the
    client may follow, the client that follows redirects does what the
    client of the first part does: the two programs have the same run. *)
Lemma run'_straight O P fl :
  returns_others P -> straight (run O fl).2 -> run' O P fl = run O fl.
Proof.
  intros HP Hstr. unfold run', run in *.
  enough (main' O P fl (mkState [] []) = main O fl (mkState [] [])) as -> by done.
  destruct (first_missing O fl) as [msg |] eqn:Hmiss.
  { rewrite (main_missing O fl msg Hmiss). revert Hmiss. clear.
    unfold first_missing, main'. intros Hmsg.
    destruct (decide (host fl = "")) as [H1 | H1].
    { rewrite required_missing by done. by simplify_eq. }
    erewrite bind_Ret by (by apply required_ok).
    destruct (decide (port fl = "")) as [H2 | H2].
    { rewrite required_missing by done. by simplify_eq. }
    erewrite bind_Ret by (by apply required_ok).
    destruct (decide (ca fl = "")) as [H3 | H3].
    { rewrite required_missing by done. by simplify_eq. }
    erewrite bind_Ret by (by apply required_ok).
    destruct (decide (cn fl = "")) as [H4 | H4].
    { rewrite required_missing by done. by simplify_eq. }
    erewrite bind_Ret by (by apply required_ok).
    destruct (decide (user fl = "")) as [H5 | H5].
    { rewrite required_missing by done. by simplify_eq. }
    erewrite bind_Ret by (by apply required_ok).
    cbv zeta.
    destruct (decide (os_Getenv O "I2_PASS" = "")) as [H6 | H6]; [| done].
    rewrite required_missing by done. by simplify_eq. }
  rewrite (main_configured O fl Hmiss) in Hstr |- *.
  assert (main' O P fl (mkState [] []) =
    match ReadFile O (ca fl) with
    | Err errRF =>
        (Exit 1, mkState [EvReadFile (ca fl) (Err errRF); EvStderr (errRF +:+ nl)] [])
    | Ok pem =>
        if AppendCertsFromPEM O pem
        then (got ← sendReq' O P (main_client fl pem) 2 "GET" "/v1/config/packages" None
                      (OutJSON (DecodePackages O));
              match got with
              | Err errSR => Fprintln_Stderr (Error errSR);; os_Exit 1
              | Ok packages => main_packages' O P (main_client fl pem) 2 packages
              end) (ready_state O fl pem)
        else (Exit 1, mkState [EvReadFile (ca fl) (Ok pem); EvStderr ("bad CA cert" +:+ nl)] [])
    end) as ->.
  { revert Hmiss. clear. unfold first_missing, main'. intros Hnone.
    destruct (decide (host fl = "")) as [H1 | H1]; [done |].
    erewrite bind_Ret by (by apply required_ok).
    destruct (decide (port fl = "")) as [H2 | H2]; [done |].
    erewrite bind_Ret by (by apply required_ok).
    destruct (decide (ca fl = "")) as [H3 | H3]; [done |].
    erewrite bind_Ret by (by apply required_ok).
    destruct (decide (cn fl = "")) as [H4 | H4]; [done |].
    erewrite bind_Ret by (by apply required_ok).
    destruct (decide (user fl = "")) as [H5 | H5]; [done |].
    erewrite bind_Ret by (by apply required_ok).
    cbv zeta.
    destruct (decide (os_Getenv O "I2_PASS" = "")) as [H6 | H6]; [done |].
    erewrite bind_Ret by (by apply required_ok).
    erewrite bind_Ret by reflexivity.
    destruct (ReadFile O (ca fl)) as [pem | errRF]; [| reflexivity].
    destruct (AppendCertsFromPEM O pem); unfold negb; cbv beta iota; [| reflexivity].
    erewrite bind_Ret by reflexivity.
    erewrite bind_Ret by reflexivity.
    erewrite bind_Ret by reflexivity.
    erewrite bind_Ret by (by eapply SetBasicAuth_ok).
    reflexivity. }
  destruct (ReadFile O (ca fl)) as [pem | errRF]; [| done].
  destruct (AppendCertsFromPEM O pem); [| done].
  unfold main_export in *.
  pose proof (ready_template O fl pem) as Ht.
  pose proof (sendReq_step O (main_client fl pem) 2 "GET" "/v1/config/packages" _
                (OutJSON (DecodePackages O)) _ _ _ _ Ht) as Hstep.
  cbn zeta in Hstep.
  set (got := RoundTrip O _ _ _) in Hstep.
  set (s1 := mkState _ _) in Hstep.
  assert (template_at s1 2 main_request (main_url fl) (main_header O fl)) as Ht1
    by (by eapply template_at_grow).
  rewrite (bind_Ret _ _ _ _ _ Hstep) in Hstr |- *.
  assert (straight (trace s1)) as H1.
  { destruct (answer (OutJSON (DecodePackages O)) got).2 as [packages | e].
    - destruct (main_packages_run O (main_client fl pem) 2 packages s1 _ _ _ Ht1)
        as (evs & hp & o & Heq & _).
      rewrite Heq in Hstr. destruct o; by apply straight_prefix in Hstr.
    - rewrite (Fprintln_exit (A:=unit)) in Hstr. by apply straight_prefix in Hstr. }
  assert (sendReq' O P (main_client fl pem) 2 "GET" "/v1/config/packages" None
            (OutJSON (DecodePackages O)) (ready_state O fl pem)
          = (Ret (answer (OutJSON (DecodePackages O)) got).2, s1)) as Hstep'.
  { rewrite <- Hstep. eapply sendReq'_straight; [done | done |]. by rewrite Hstep. }
  rewrite (bind_Ret _ _ _ _ _ Hstep').
  destruct (answer (OutJSON (DecodePackages O)) got).2 as [packages | e]; [| done].
  eapply main_packages'_straight; [done | done |].
  by destruct (main_packages O (main_client fl pem) 2 packages s1) as [[] ?].
Qed.
